(** * simulator_bindings.cpp: the marshalling layer of the simulator

    A shallow embedding of [src/simulator/simulator_bindings.cpp]: building
    the user input from raw arrays, merging it into a scene, counting
    objects, rendering per-object masks and packing the buffers returned by
    [magic_ponies]. *)

From Stdlib Require Import String List ZArith Lia Bool.
From Equations Require Import Equations.
Import ListNotations.

Local Open Scope Z_scope.

(** ** Outcomes of a C++ computation

    A call either returns, throws, or runs into undefined behaviour (a read
    or a write outside an object). *)

Inductive exn : Type :=
| runtime_error (msg : string)
| thrift_exception
| bad_array_new_length.

Inductive res (A : Type) : Type :=
| Ok (a : A)
| Throw (e : exn)
| Undefined.

Arguments Ok {A} a.
Arguments Throw {A} e.
Arguments Undefined {A}.

Definition res_bind {A B : Type} (r : res A) (k : A -> res B) : res B :=
  match r with
  | Ok a => k a
  | Throw e => Throw e
  | Undefined => Undefined
  end.

Declare Scope res_scope.
Delimit Scope res_scope with res.
Notation "'let!' a ':=' r 'in' k" :=
  (res_bind r (fun a => k))
  (at level 10, a name, r at level 100, k at level 200) : res_scope.

(** [v[i]] on a [std::vector]: no bounds check, so an index at or after
    [v.size()] is undefined behaviour. *)
Definition vec_at {A : Type} (v : list A) (i : nat) : res A :=
  match nth_error v i with
  | Some a => Ok a
  | None => Undefined
  end.

(** ** The thrift structures of a user input *)

Module scene.

(** Modelled from the spec: [scene::Vector], [AbsoluteConvexPolygon],
    [CircleWithPosition] and [UserInput] are generated into
    [gen-cpp/scene_types.h], which is not part of the sources; the fields
    are the ones this file reads and writes.  The coordinates are only
    copied, never computed with, so their type is a parameter. *)
Record Vector (float : Type) : Type :=
  { x : float; y : float }.

Record AbsoluteConvexPolygon (float : Type) : Type :=
  { vertices : list (Vector float) }.

Record CircleWithPosition (float : Type) : Type :=
  { position : Vector float; radius : float }.

Record UserInput (float : Type) : Type :=
  { flattened_point_list : list Z;
    polygons : list (AbsoluteConvexPolygon float);
    balls : list (CircleWithPosition float) }.

Arguments x {float} _.
Arguments y {float} _.
Arguments Build_Vector {float} _ _.
Arguments vertices {float} _.
Arguments Build_AbsoluteConvexPolygon {float} _.
Arguments position {float} _.
Arguments radius {float} _.
Arguments Build_CircleWithPosition {float} _ _.
Arguments flattened_point_list {float} _.
Arguments polygons {float} _.
Arguments balls {float} _.
Arguments Build_UserInput {float} _ _ _.

(** Modelled from the spec: the enum [scene::ShapeType] is generated; the
    code names [UNDEFINED] only, the other enumerators are kept by their
    tag. *)
Inductive ShapeType : Type :=
| UNDEFINED
| Shape (tag : positive).

(** Modelled from the spec: a body is its shape-type tag plus geometric
    parameters, which this file never inspects. *)
Record Body (G : Type) : Type :=
  { shapeType : ShapeType; geometry : G }.

Arguments shapeType {G} _.
Arguments geometry {G} _.
Arguments Build_Body {G} _ _.

Inductive UserInputStatus : Type :=
| NO_OCCLUSIONS
| HAD_OCCLUSIONS.

(** Modelled from the spec: the generated [scene::Scene].  The status is
    [None] as long as [__set_user_input_status] has not been called on
    the object. *)
Record Scene (G : Type) : Type :=
  { width : Z;
    height : Z;
    bodies : list (Body G);
    user_input_bodies : list (Body G);
    user_input_status : option UserInputStatus }.

Arguments width {G} _.
Arguments height {G} _.
Arguments bodies {G} _.
Arguments user_input_bodies {G} _.
Arguments user_input_status {G} _.
Arguments Build_Scene {G} _ _ _ _ _.

(** Modelled from the spec: the generated [scene::Image], of which the
    code reads [values] only. *)
Record Image : Type :=
  { values : list Z }.

End scene.

Module task.

(** Modelled from the spec: the generated [task::Task] (an initial scene
    plus metadata, kept abstract) and [task::TaskSimulation]. *)
Record Task (G T : Type) : Type :=
  { scene : scene.Scene G; metadata : T }.

Record TaskSimulation (G : Type) : Type :=
  { isSolution : bool; sceneList : list (scene.Scene G) }.

Arguments scene {G T} _.
Arguments metadata {G T} _.
Arguments Build_Task {G T} _ _.
Arguments isSolution {G} _.
Arguments sceneList {G} _.
Arguments Build_TaskSimulation {G} _ _.

End task.

(** Modelled from the spec: [getVector] is declared in a header that is not
    part of the sources; it builds the vector with the two given
    coordinates. *)
Definition getVector {float : Type} (a b : float) : scene.Vector float :=
  {| scene.x := a; scene.y := b |}.

(** ** A [py::array_t<int32_t>]

    Its shape, and the element at a pair of indices as the accessor
    [unchecked<2>()] gives it. *)
Record array_int32 : Type :=
  { shape : list nat;
    unchecked2 : nat -> nat -> Z }.

Definition ndim (a : array_int32) : nat := length (shape a).
Definition shape_at (a : array_int32) (k : nat) : nat := nth k (shape a) 0%nat.

(** ** buildUserInputObject *)

Section UserInputBuilder.

Context {float : Type}.

Local Open Scope res_scope.

(** Lines 83-86: the rows of [points], [x] before [y]. *)
Definition flatten_points (points : array_int32) : list Z :=
  flat_map (fun i => [unchecked2 points i 0%nat; unchecked2 points i 1%nat])
           (seq 0 (shape_at points 0)).

(** Lines 90-94: [for (int j = 0; j < 4; j += 2)], pushing the vertex
    read at [i + j] and [i + j + 1]. *)
Equations? vertices_loop (v : list float) (i j : nat)
    (acc : list (scene.Vector float)) : res (list (scene.Vector float))
    by wf (4 - j)%nat lt :=
  vertices_loop v i j acc with lt_dec j 4 := {
    | left _ =>
        let! a := vec_at v (i + j) in
        let! b := vec_at v (i + j + 1) in
        vertices_loop v i (j + 2) (acc ++ [getVector a b])
    | right _ => Ok acc }.
Proof.
  clear vertices_loop.
  do 4 (destruct j as [|j]; [simpl; lia|]); lia.
Qed.

(** Lines 88-96: [for (int i = 0; i < size; i += 8)], one polygon per
    iteration.  The index is a natural number: the inputs are taken to
    have fewer than [2^31] elements, so that the [int] does not wrap. *)
Equations? polygons_loop (v : list float) (i : nat)
    (acc : list (scene.AbsoluteConvexPolygon float))
    : res (list (scene.AbsoluteConvexPolygon float))
    by wf (length v - i)%nat lt :=
  polygons_loop v i acc with lt_dec i (length v) := {
    | left _ =>
        let! vs := vertices_loop v i 0 [] in
        polygons_loop v (i + 8) (acc ++ [scene.Build_AbsoluteConvexPolygon vs])
    | right _ => Ok acc }.
Proof. lia. Qed.

(** Lines 97-103: [for (int i = 0; i < size;)], three reads with [i++]
    per iteration. *)
Equations? balls_loop (v : list float) (i : nat)
    (acc : list (scene.CircleWithPosition float))
    : res (list (scene.CircleWithPosition float))
    by wf (length v - i)%nat lt :=
  balls_loop v i acc with lt_dec i (length v) := {
    | left _ =>
        let! cx := vec_at v i in
        let! cy := vec_at v (i + 1) in
        let! r := vec_at v (i + 2) in
        balls_loop v (i + 3)
          (acc ++ [scene.Build_CircleWithPosition
                     (scene.Build_Vector cx cy) r])
    | right _ => Ok acc }.
Proof. lia. Qed.

Definition buildUserInputObject (points : array_int32)
    (rectangulars_vertices_flatten balls_flatten : list float)
    : res (scene.UserInput float) :=
  if negb (Nat.eqb (ndim points) 2) then
    Throw (runtime_error "Number of dimensions must be two")
  else if negb (Nat.eqb (shape_at points 1) 2) then
    Throw (runtime_error "Second dimension must have size 2 (x, y)")
  else
    let flattened := flatten_points points in
    let! polys := polygons_loop rectangulars_vertices_flatten 0 [] in
    let! circles := balls_loop balls_flatten 0 [] in
    Ok (scene.Build_UserInput flattened polys circles).

End UserInputBuilder.

(** ** Machine integers

    [int] is 32 bits wide.  Signed overflow is undefined in C++; the model
    takes the two's complement wrap-around that the compiled code shows. *)

Definition INT_MAX : Z := 2147483647.

Definition int_wrap (z : Z) : Z := (z + 2147483648) mod 4294967296 - 2147483648.

Definition int_add (a b : Z) : Z := int_wrap (a + b).
Definition int_mul (a b : Z) : Z := int_wrap (a * b).

(** [static_cast<int>] of a [size_t] and the conversion of an [int] to
    [size_t] before a comparison with a size. *)
Definition int_of_size (n : nat) : Z := int_wrap (Z.of_nat n).
Definition size_of_int (z : Z) : Z := z mod 18446744073709551616.

(** The implicit conversion to [uint8_t] when [std::copy] stores a value. *)
Definition uint8_of (z : Z) : Z := z mod 256.

(** ** Heap buffers

    A buffer from [new T[n]] is a list of cells; a cell is [None] until it
    is written (its value is indeterminate).  A pointer into a buffer is
    the buffer together with an offset. *)

Definition buffer (A : Type) : Type := list (option A).

(** [new T[n]] with [n] an [int]: a negative count converts to a size that
    no allocation can satisfy. *)
Definition new_array (A : Type) (n : Z) : res (buffer A) :=
  if n <? 0 then Throw bad_array_new_length
  else Ok (repeat None (Z.to_nat n)).

(** Storing [data] from offset [off] on.  An empty range stores nothing,
    wherever the pointer is; a store of one element or more outside the
    buffer is undefined behaviour. *)
Definition write_at {A : Type} (buf : buffer A) (off : Z) (data : list A)
    : res (buffer A) :=
  match data with
  | [] => Ok buf
  | _ :: _ =>
      if (0 <=? off)
         && (off + Z.of_nat (length data) <=? Z.of_nat (length buf))
      then Ok (firstn (Z.to_nat off) buf ++ map Some data
                 ++ skipn (Z.to_nat off + length data) buf)
      else Undefined
  end.

(** [std::fill(p, p + n, c)]. *)
Definition fill_at {A : Type} (buf : buffer A) (off n : Z) (c : A)
    : res (buffer A) :=
  if n <? 0 then Undefined
  else write_at buf off (repeat c (Z.to_nat n)).

(** The cells [off, off + n) of a buffer. *)
Definition slice {A : Type} (buf : list A) (off n : nat) : list A :=
  firstn n (skipn off buf).

(** A one-dimensional [py::array_t] over a buffer: its shape and the
    memory it views. *)
Record py_array (A : Type) : Type :=
  { arr_shape : Z; arr_data : buffer A }.

Arguments arr_shape {A} _.
Arguments arr_data {A} _.
Arguments Build_py_array {A} _ _.

(** ** Calls that leave this file

    The computation monad pairs an outcome with the calls made to the
    collaborators, in order. *)

Inductive event (G : Type) : Type :=
| EvDeserialize (serialized : string)
| EvMerge (keep_space_around_bodies allow_occlusions : bool)
| EvSimulate (steps stride : Z)
| EvRenderTo (s : scene.Scene G) (offset : Z)
| EvRender (s : scene.Scene G)
| EvFeaturize (s : scene.Scene G) (offset : Z)
| EvWarning (expected : Z) (got : nat).

Arguments EvDeserialize {G} _.
Arguments EvMerge {G} _ _.
Arguments EvSimulate {G} _ _.
Arguments EvRenderTo {G} _ _.
Arguments EvRender {G} _.
Arguments EvFeaturize {G} _ _.
Arguments EvWarning {G} _ _.

Definition M (G A : Type) : Type := (list (event G) * res A)%type.

Definition ret {G A : Type} (a : A) : M G A := ([], Ok a).

Definition bind {G A B : Type} (m : M G A) (k : A -> M G B) : M G B :=
  match m with
  | (t, Ok a) => let (t', r) := k a in (t ++ t', r)
  | (t, Throw e) => (t, Throw e)
  | (t, Undefined) => (t, Undefined)
  end.

Definition tell {G : Type} (e : event G) : M G unit := ([e], Ok tt).

Definition lift {G A : Type} (r : res A) : M G A := ([], r).

Declare Scope M_scope.
Delimit Scope M_scope with M.
Notation "x <- m ;; k" := (bind m (fun x => k))
  (at level 61, m at next level, right associativity) : M_scope.
Notation "m ;; k" := (bind m (fun _ => k))
  (at level 61, right associativity) : M_scope.

(** The collaborators: the thrift reader, the merge algorithm, the
    simulator, the rasterizer and the featurizer.  The two functions that
    write through a pointer are given the buffer and the offset of the
    pointer and return the buffer; they leave its size as it is. *)
Class Engine (float G T : Type) : Type :=
  { thrift_read_Task : string -> option (task.Task G T);
    mergeUserInputIntoScene :
      scene.UserInput float -> list (scene.Body G) -> bool -> bool ->
      Z -> Z -> bool * list (scene.Body G);
    simulateTask : task.Task G T -> Z -> Z -> task.TaskSimulation G;
    render : scene.Scene G -> scene.Image;
    renderTo : scene.Scene G -> buffer Z -> Z -> buffer Z;
    featurizeScene : scene.Scene G -> buffer float -> Z -> buffer float;
    kObjectFeatureSize : Z;
    renderTo_length :
      forall s buf off, length (renderTo s buf off) = length buf;
    featurizeScene_length :
      forall s buf off, length (featurizeScene s buf off) = length buf }.

(** ** The functions of the binding layer *)

Section Bindings.

Context {float G T : Type} {engine : Engine float G T}.

Local Open Scope M_scope.

Let Body : Type := scene.Body G.
Let Scene : Type := scene.Scene G.

(** [deserialize<Task>], lines 44-56: the generated reader throws on
    input that it cannot decode. *)
Definition deserialize_Task (serializedBytes : string)
    : M G (task.Task G T) :=
  tell (EvDeserialize serializedBytes) ;;
  lift (match thrift_read_Task serializedBytes with
        | Some object => Ok object
        | None => Throw thrift_exception
        end).

(** Lines 108-118.  The scene is mutated through a pointer: the updated
    scene is returned. *)
Definition addUserInputToScene (user_input : scene.UserInput float)
    (keep_space_around_bodies allow_occlusions : bool) (s : Scene)
    : M G Scene :=
  tell (EvMerge keep_space_around_bodies allow_occlusions) ;;
  let '(good, user_input_bodies) :=
    mergeUserInputIntoScene user_input (scene.bodies s)
      keep_space_around_bodies allow_occlusions
      (scene.height s) (scene.width s) in
  let s1 :=
    {| scene.width := scene.width s;
       scene.height := scene.height s;
       scene.bodies := scene.bodies s;
       scene.user_input_bodies := scene.user_input_bodies s;
       scene.user_input_status :=
         Some (if good then scene.NO_OCCLUSIONS
               else scene.HAD_OCCLUSIONS) |} in
  ret {| scene.width := scene.width s1;
         scene.height := scene.height s1;
         scene.bodies := scene.bodies s1;
         scene.user_input_bodies := user_input_bodies;
         scene.user_input_status := scene.user_input_status s1 |}.

(** [body.shapeType != ShapeType::UNDEFINED]. *)
Definition is_defined (body : Body) : bool :=
  match scene.shapeType body with
  | scene.UNDEFINED => false
  | scene.Shape _ => true
  end.

(** Lines 120-131: the two lists are concatenated into a copy, then
    counted with an [int] counter. *)
Definition getNumObjectsInScene (s : Scene) : Z :=
  let bodies := scene.bodies s ++ scene.user_input_bodies s in
  fold_left
    (fun numObjects body =>
       if is_defined body then int_add numObjects 1 else numObjects)
    bodies 0.

(** Lines 133-139. *)
Definition getNumObjects (simulation : task.TaskSimulation G) : Z :=
  match task.sceneList simulation with
  | [] => 0
  | frame0 :: _ => getNumObjectsInScene frame0
  end.

(** Lines 141-146. *)
Definition hadSimulationOcclusions (simulation : task.TaskSimulation G)
    : bool :=
  match task.sceneList simulation with
  | [] => false
  | frame0 :: _ =>
      match scene.user_input_status frame0 with
      | Some scene.HAD_OCCLUSIONS => true
      | _ => false
      end
  end.

(** The scene built at lines 156-159: a default scene with the width
    and the height set and the body pushed. *)
Definition singleObjectScene (s : Scene) (body : Body) : Scene :=
  {| scene.width := scene.width s;
     scene.height := scene.height s;
     scene.bodies := [body];
     scene.user_input_bodies := [];
     scene.user_input_status := None |}.

(** The lambda of lines 154-175.  It captures [bufferStart], [imageSize]
    and, by reference, [currentObjectIndex]; the state is the buffer and
    that index. *)
Definition renderSingleBody (s : Scene) (bufferStart imageSize : Z)
    (body : Body) (st : buffer Z * Z) : M G (buffer Z * Z) :=
  let '(buf, currentObjectIndex) := st in
  tell (EvRender (singleObjectScene s body)) ;;
  let singleObjectImage := render (singleObjectScene s body) in
  let currentMaskBuffer :=
    bufferStart + int_mul currentObjectIndex imageSize in
  let got := length (scene.values singleObjectImage) in
  buf' <- (if Z.of_nat got =? size_of_int imageSize then
             lift (write_at buf currentMaskBuffer
                     (map uint8_of (scene.values singleObjectImage)))
           else
             tell (EvWarning imageSize got) ;;
             lift (fill_at buf currentMaskBuffer imageSize 0)) ;;
  ret (buf', int_add currentObjectIndex 1).

(** The two range-for loops of lines 177-188 have this body. *)
Fixpoint render_bodies (s : Scene) (bufferStart imageSize : Z)
    (bodies : list Body) (st : buffer Z * Z) : M G (buffer Z * Z) :=
  match bodies with
  | [] => ret st
  | body :: rest =>
      st' <- (if is_defined body
              then renderSingleBody s bufferStart imageSize body st
              else ret st) ;;
      render_bodies s bufferStart imageSize rest st'
  end.

(** Lines 149-189; [bufferStart] points [bufferStart] cells into [buf]. *)
Definition renderAllObjectMasksTo (s : Scene) (buf : buffer Z)
    (bufferStart : Z) : M G (buffer Z) :=
  let imageSize := int_mul (scene.width s) (scene.height s) in
  let currentObjectIndex := 0 in
  st1 <- render_bodies s bufferStart imageSize (scene.bodies s)
           (buf, currentObjectIndex) ;;
  st2 <- render_bodies s bufferStart imageSize
           (scene.user_input_bodies s) st1 ;;
  ret (fst st2).

(** The local variables of [magic_ponies] when line 242 is reached. *)
Record Packed : Type :=
  { isSolved : bool;
    hadOcclusions : bool;
    numImagesTotal : Z;
    numScenesTotal : Z;
    imageSize : Z;
    numSceneObjects : Z;
    packedImages : buffer Z;
    packedObjectMasks : buffer Z;
    packedVectorizedBodies : buffer float }.

(** The body of the loop of lines 219-230; the state is the two buffers,
    [imageWriteIndex] and [sceneIndex]. *)
Definition pack_frame (need_object_masks : bool)
    (imageSize numSceneObjects : Z) (s : Scene)
    (st : buffer Z * buffer Z * Z * Z) : M G (buffer Z * buffer Z * Z * Z) :=
  let '(packedImages, packedObjectMasks, imageWriteIndex, sceneIndex) :=
    st in
  tell (EvRenderTo s imageWriteIndex) ;;
  let packedImages := renderTo s packedImages imageWriteIndex in
  let imageWriteIndex := int_add imageWriteIndex imageSize in
  packedObjectMasks <-
    (if need_object_masks then
       let currentSceneMasksBuffer :=
         int_mul (int_mul sceneIndex numSceneObjects) imageSize in
       renderAllObjectMasksTo s packedObjectMasks currentSceneMasksBuffer
     else ret packedObjectMasks) ;;
  ret (packedImages, packedObjectMasks, imageWriteIndex,
       int_add sceneIndex 1).

Fixpoint pack_frames (need_object_masks : bool)
    (imageSize numSceneObjects : Z) (frames : list Scene)
    (st : buffer Z * buffer Z * Z * Z) : M G (buffer Z * buffer Z * Z * Z) :=
  match frames with
  | [] => ret st
  | s :: rest =>
      st' <- pack_frame need_object_masks imageSize numSceneObjects s st ;;
      pack_frames need_object_masks imageSize numSceneObjects rest st'
  end.

(** The loop of lines 238-241; the state is the buffer and
    [writeIndex]. *)
Fixpoint featurize_frames (numSceneObjects : Z) (frames : list Scene)
    (st : buffer float * Z) : M G (buffer float * Z) :=
  match frames with
  | [] => ret st
  | s :: rest =>
      let '(packedVectorizedBodies, writeIndex) := st in
      tell (EvFeaturize s writeIndex) ;;
      let packedVectorizedBodies :=
        featurizeScene s packedVectorizedBodies writeIndex in
      featurize_frames numSceneObjects rest
        (packedVectorizedBodies,
         int_add writeIndex (int_mul kObjectFeatureSize numSceneObjects))
  end.

(** Lines 196-242 of [magic_ponies]: decode, merge, simulate, allocate
    and fill the three buffers. *)
Definition magic_ponies_pack (serialized_task : string)
    (user_input : scene.UserInput float) (keep_space_around_bodies : bool)
    (steps stride : Z)
    (need_images need_featurized_objects need_object_masks : bool)
    : M G Packed :=
  task0 <- deserialize_Task serialized_task ;;
  scene1 <- addUserInputToScene user_input keep_space_around_bodies false
              (task.scene task0) ;;
  let task1 := task.Build_Task scene1 (task.metadata task0) in
  tell (EvSimulate steps stride) ;;
  let simulation := simulateTask task1 steps stride in
  let isSolved := task.isSolution simulation in
  let hadOcclusions := hadSimulationOcclusions simulation in
  let numImagesTotal :=
    if need_images
    then int_of_size (length (task.sceneList simulation)) else 0 in
  let numScenesTotal :=
    if need_featurized_objects
    then int_of_size (length (task.sceneList simulation)) else 0 in
  let imageSize :=
    int_mul (scene.width (task.scene task1))
            (scene.height (task.scene task1)) in
  packedImages <- lift (new_array Z (int_mul imageSize numImagesTotal)) ;;
  let numSceneObjects := getNumObjects simulation in
  packedObjectMasks <-
    lift (new_array Z (int_mul (int_mul imageSize numImagesTotal)
                               numSceneObjects)) ;;
  st <- (if 0 <? numImagesTotal then
           pack_frames need_object_masks imageSize numSceneObjects
             (task.sceneList simulation)
             (packedImages, packedObjectMasks, 0, 0)
         else ret (packedImages, packedObjectMasks, 0, 0)) ;;
  let '(packedImages, packedObjectMasks, _, _) := st in
  packedVectorizedBodies <-
    lift (new_array float
            (int_mul (int_mul numSceneObjects kObjectFeatureSize)
                     numScenesTotal)) ;;
  fst_ <- (if 0 <? numScenesTotal then
             featurize_frames numSceneObjects (task.sceneList simulation)
               (packedVectorizedBodies, 0)
           else ret (packedVectorizedBodies, 0)) ;;
  ret {| isSolved := isSolved;
         hadOcclusions := hadOcclusions;
         numImagesTotal := numImagesTotal;
         numScenesTotal := numScenesTotal;
         imageSize := imageSize;
         numSceneObjects := numSceneObjects;
         packedImages := packedImages;
         packedObjectMasks := packedObjectMasks;
         packedVectorizedBodies := fst fst_ |}.

(** The tuple returned at line 273, without its two timer readings
    (wall-clock values). *)
Record Result : Type :=
  { r_isSolved : bool;
    r_hadOcclusions : bool;
    r_packedImagesArray : py_array Z;
    r_packedObjectMasksArray : py_array Z;
    r_numSceneObjects : Z;
    r_packedObjectsArray : py_array float;
    r_numSceneObjects' : Z }.

(** Lines 260-276: the arrays over the buffers.  [py::array_t<uint8_t>(0)]
    is an array of its own with no element. *)
Definition magic_ponies_arrays (need_object_masks : bool) (p : Packed)
    : Result :=
  let packedImagesArray :=
    Build_py_array (int_mul (numImagesTotal p) (imageSize p))
                   (packedImages p) in
  let packedObjectsArray :=
    Build_py_array
      (int_mul (int_mul (numScenesTotal p) (numSceneObjects p))
               kObjectFeatureSize)
      (packedVectorizedBodies p) in
  let packedObjectMasksArray :=
    if need_object_masks then
      Build_py_array
        (int_mul (int_mul (numImagesTotal p) (numSceneObjects p))
                 (imageSize p))
        (packedObjectMasks p)
    else Build_py_array 0 [] in
  {| r_isSolved := isSolved p;
     r_hadOcclusions := hadOcclusions p;
     r_packedImagesArray := packedImagesArray;
     r_packedObjectMasksArray := packedObjectMasksArray;
     r_numSceneObjects := numSceneObjects p;
     r_packedObjectsArray := packedObjectsArray;
     r_numSceneObjects' := numSceneObjects p |}.

(** Lines 192-277. *)
Definition magic_ponies (serialized_task : string)
    (user_input : scene.UserInput float) (keep_space_around_bodies : bool)
    (steps stride : Z)
    (need_images need_featurized_objects need_object_masks : bool)
    : M G Result :=
  p <- magic_ponies_pack serialized_task user_input
         keep_space_around_bodies steps stride
         need_images need_featurized_objects need_object_masks ;;
  ret (magic_ponies_arrays need_object_masks p).

(** The entry point [check_for_occlusions], lines 315-328. *)
Definition check_for_occlusions (serialized_task : string)
    (points : array_int32)
    (rectangulars_vertices_flatten balls_flatten : list float)
    (keep_space_around_bodies : bool) : M G bool :=
  user_input <- lift (buildUserInputObject points
                        rectangulars_vertices_flatten balls_flatten) ;;
  task0 <- deserialize_Task serialized_task ;;
  scene1 <- addUserInputToScene user_input keep_space_around_bodies false
              (task.scene task0) ;;
  ret (match scene.user_input_status scene1 with
       | Some scene.HAD_OCCLUSIONS => true
       | _ => false
       end).

(** The entry point [magic_ponies], lines 352-369. *)
Definition magic_ponies_binding (serialized_task : string)
    (points : array_int32)
    (rectangulars_vertices_flatten balls_flatten : list float)
    (keep_space_around_bodies : bool) (steps stride : Z)
    (need_images need_featurized_objects need_object_masks : bool)
    : M G Result :=
  user_input <- lift (buildUserInputObject points
                        rectangulars_vertices_flatten balls_flatten) ;;
  magic_ponies serialized_task user_input keep_space_around_bodies
    steps stride need_images need_featurized_objects need_object_masks.

End Bindings.

(** ** Inputs by strides

    A sequence of floats that respects the caller contract is a sequence of
    complete strides: eight floats per rectangle, three per ball. *)

Section Strides.

Context {float : Type}.

Definition stride8 : Type :=
  (float * float * float * float * float * float * float * float)%type.
Definition stride3 : Type := (float * float * float)%type.

Definition flat8 (s : stride8) : list float :=
  let '(a, b, c, d, e, f, g, h) := s in [a; b; c; d; e; f; g; h].

Definition flat3 (s : stride3) : list float :=
  let '(a, b, c) := s in [a; b; c].

(** The polygon that the loop of lines 88-96 pushes for a stride. *)
Definition pushed_polygon (s : stride8) : scene.AbsoluteConvexPolygon float :=
  let '(a, b, c, d, _, _, _, _) := s in
  scene.Build_AbsoluteConvexPolygon [getVector a b; getVector c d].

(** The polygon of a stride as the specification describes it: the four
    vertices of the stride, in input order. *)
Definition four_vertex_polygon (s : stride8)
    : scene.AbsoluteConvexPolygon float :=
  let '(a, b, c, d, e, f, g, h) := s in
  scene.Build_AbsoluteConvexPolygon
    [getVector a b; getVector c d; getVector e f; getVector g h].

(** The circle of a stride: [(x, y, radius)]. *)
Definition circle_of (s : stride3) : scene.CircleWithPosition float :=
  let '(a, b, c) := s in
  scene.Build_CircleWithPosition (scene.Build_Vector a b) c.

End Strides.

(** An [N x 2] array holding the given rows. *)
Definition points_of_rows (rows : list (Z * Z)) : array_int32 :=
  {| shape := [length rows; 2%nat];
     unchecked2 := fun i j =>
       match j with
       | O => fst (nth i rows (0, 0))
       | _ => snd (nth i rows (0, 0))
       end |}.

(** ** A small engine to run the functions on

    Bodies carry one integer; a body with a negative one is rasterized into
    an image of the wrong size.  The simulator returns [steps] copies of the
    scene of the task. *)

Module Toy.

Definition toy_render (s : scene.Scene Z) : scene.Image :=
  match scene.bodies s with
  | b :: _ =>
      if scene.geometry b <? 0 then {| scene.values := [7] |}
      else {| scene.values :=
                repeat (scene.geometry b)
                  (Z.to_nat (scene.width s * scene.height s)) |}
  | [] => {| scene.values := [] |}
  end.

Definition toy_renderTo (s : scene.Scene Z) (buf : buffer Z) (off : Z)
    : buffer Z :=
  match write_at buf off
          (repeat 9 (Z.to_nat (scene.width s * scene.height s))) with
  | Ok buf' => buf'
  | _ => buf
  end.

Definition toy_merge (ui : scene.UserInput Z) (bodies : list (scene.Body Z))
    (keep allow : bool) (h w : Z) : bool * list (scene.Body Z) :=
  (match scene.polygons ui with [] => true | _ => allow end,
   map (fun c => scene.Build_Body (scene.Shape 1) (scene.radius c))
       (scene.balls ui)).

Definition toy_scene : scene.Scene Z :=
  {| scene.width := 2;
     scene.height := 2;
     scene.bodies :=
       [scene.Build_Body (scene.Shape 1) 5;
        scene.Build_Body scene.UNDEFINED 6;
        scene.Build_Body (scene.Shape 2) (-1)];
     scene.user_input_bodies := [scene.Build_Body (scene.Shape 1) 8];
     scene.user_input_status := None |}.

Definition toy_input : scene.UserInput Z :=
  scene.Build_UserInput []
    [] [scene.Build_CircleWithPosition (scene.Build_Vector 1 2) 3].

Definition toy_read (serialized : string) : option (task.Task Z unit) :=
  if String.eqb serialized "task"
  then Some (task.Build_Task toy_scene tt) else None.

Definition toy_simulate (t : task.Task Z unit) (steps stride : Z)
    : task.TaskSimulation Z :=
  {| task.isSolution := true;
     task.sceneList := repeat (task.scene t) (Z.to_nat steps) |}.

#[export] Instance toy_engine : Engine Z Z unit.
Proof.
  refine {| thrift_read_Task := toy_read;
            mergeUserInputIntoScene := toy_merge;
            simulateTask := toy_simulate;
            render := toy_render;
            renderTo := toy_renderTo;
            featurizeScene := fun _ buf _ => buf;
            kObjectFeatureSize := 14 |}.
  - intros s buf off. unfold toy_renderTo, write_at.
    destruct (repeat 9 _) as [|x data]; [reflexivity|].
    destruct ((0 <=? off) && _)%bool eqn:E; [|reflexivity].
    apply andb_true_iff in E. destruct E as [E1 E2].
    apply Z.leb_le in E1, E2.
    rewrite !length_app, length_map, length_firstn, length_skipn. lia.
  - reflexivity.
Defined.

End Toy.

(** ** The layout of the masks of a scene

    What [renderAllObjectMasksTo] is expected to leave in the buffer, body
    by body. *)

(** [data] stored from cell [off] on. *)
Definition blit {A : Type} (buf : buffer A) (off : nat) (data : list A)
    : buffer A :=
  firstn off buf ++ map Some data ++ skipn (off + length data) buf.

Section MaskLayout.

Context {float G T : Type} {engine : Engine float G T}.

(** The bodies that count: those of [bodies], then those of
    [user_input_bodies], without the undefined ones. *)
Definition valid_bodies (s : scene.Scene G) : list (scene.Body G) :=
  filter is_defined (scene.bodies s ++ scene.user_input_bodies s).

(** The rasterization of the scene that holds [body] alone. *)
Definition rasterization (s : scene.Scene G) (body : scene.Body G)
    : list Z :=
  scene.values (render (singleObjectScene s body)).

Definition size_matches (s : scene.Scene G) (body : scene.Body G) : bool :=
  Z.of_nat (length (rasterization s body))
  =? int_mul (scene.width s) (scene.height s).

(** The bytes of the mask of [body]: its rasterization, or zeros when the
    rasterization has another size than the image. *)
Definition mask_of (s : scene.Scene G) (body : scene.Body G) : list Z :=
  if size_matches s body then map uint8_of (rasterization s body)
  else repeat 0 (Z.to_nat (int_mul (scene.width s) (scene.height s))).

(** The calls made for [body]: the rasterizer, then the warning when the
    size is wrong. *)
Definition mask_events (s : scene.Scene G) (body : scene.Body G)
    : list (event G) :=
  EvRender (singleObjectScene s body)
  :: (if size_matches s body then []
      else [EvWarning (int_mul (scene.width s) (scene.height s))
                      (length (rasterization s body))]).

Definition is_render (e : event G) : bool :=
  match e with EvRender _ => true | _ => false end.

End MaskLayout.

(** ** The quantities of a run of [magic_ponies] *)

Section Runs.

Context {float G T : Type} {engine : Engine float G T}.

(** The scene that [addUserInputToScene] leaves. *)
Definition merged_scene (user_input : scene.UserInput float)
    (keep_space_around_bodies allow_occlusions : bool)
    (s : scene.Scene G) : scene.Scene G :=
  let merged :=
    mergeUserInputIntoScene user_input (scene.bodies s)
      keep_space_around_bodies allow_occlusions
      (scene.height s) (scene.width s) in
  {| scene.width := scene.width s;
     scene.height := scene.height s;
     scene.bodies := scene.bodies s;
     scene.user_input_bodies := snd merged;
     scene.user_input_status :=
       Some (if fst merged then scene.NO_OCCLUSIONS
             else scene.HAD_OCCLUSIONS) |}.

(** The simulation that [magic_ponies] runs on a decoded task. *)
Definition simulation_of (task0 : task.Task G T)
    (user_input : scene.UserInput float) (keep_space_around_bodies : bool)
    (steps stride : Z) : task.TaskSimulation G :=
  simulateTask
    (task.Build_Task
       (merged_scene user_input keep_space_around_bodies false
          (task.scene task0))
       (task.metadata task0))
    steps stride.

(** A frame that has the image size of the run and no more valid bodies
    than the first frame. *)
Definition frame_fits (imageSize numSceneObjects : Z)
    (frame : scene.Scene G) : Prop :=
  int_mul (scene.width frame) (scene.height frame) = imageSize /\
  Z.of_nat (length (valid_bodies frame)) <= numSceneObjects.

End Runs.

(** The frames handed to [renderTo], in the order of the calls. *)
Definition frames_rendered {G : Type} (tr : list (event G))
    : list (scene.Scene G) :=
  flat_map (fun e => match e with EvRenderTo s _ => [s] | _ => [] end) tr.

(** ** The other entry points

    The entry points that take their scene and their user input as bytes
    need the thrift reader and writer of these structures. *)

Class Codec (float G : Type) : Type :=
  { thrift_read_Scene : string -> option (scene.Scene G);
    thrift_read_UserInput : string -> option (scene.UserInput float);
    thrift_write_Scene : scene.Scene G -> string }.

(** [std::vector<T>(n, c)] with [n] an [int]: a negative count converts to
    a size above [max_size()] and the constructor throws
    [std::length_error], for which [None] stands. *)
Definition new_vector {A : Type} (n : Z) (c : A) : option (buffer A) :=
  if n <? 0 then None else Some (repeat (Some c) (Z.to_nat n)).

Section EntryPoints.

Context {float G T : Type} {engine : Engine float G T}
        {codec : Codec float G}.

Local Open Scope M_scope.

(** [deserialize<T>], lines 44-56, over the generated reader of [T]. *)
Definition deserialize {A : Type} (read : string -> option A)
    (serializedBytes : string) : M G A :=
  tell (EvDeserialize serializedBytes) ;;
  lift (match read serializedBytes with
        | Some object => Ok object
        | None => Throw thrift_exception
        end).

(** [serialize<Scene>], lines 58-68. *)
Definition serialize_Scene (object : scene.Scene G) : string :=
  thrift_write_Scene object.

(** The entry point [add_user_input_to_scene], lines 302-313. *)
Definition add_user_input_to_scene (scene_serialized : string)
    (user_input_serialized : string)
    (keep_space_around_bodies allow_occlusions : bool) : M G string :=
  scene0 <- deserialize thrift_read_Scene scene_serialized ;;
  user_input <- deserialize thrift_read_UserInput user_input_serialized ;;
  scene1 <- addUserInputToScene user_input keep_space_around_bodies
              allow_occlusions scene0 ;;
  ret (serialize_Scene scene1).

(** The entry point [check_for_occlusions_general], lines 330-341. *)
Definition check_for_occlusions_general (serialized_task : string)
    (serialized_user_input : string) (keep_space_around_bodies : bool)
    : M G bool :=
  user_input <- deserialize thrift_read_UserInput serialized_user_input ;;
  task0 <- deserialize_Task serialized_task ;;
  scene1 <- addUserInputToScene user_input keep_space_around_bodies false
              (task.scene task0) ;;
  ret (match scene.user_input_status scene1 with
       | Some scene.HAD_OCCLUSIONS => true
       | _ => false
       end).

(** The entry point [magic_ponies_general], lines 371-386: the user input
    is decoded as an argument of the call. *)
Definition magic_ponies_general (serialized_task : string)
    (serialized_user_input : string) (keep_space_around_bodies : bool)
    (steps stride : Z)
    (need_images need_featurized_objects need_object_masks : bool)
    : M G Result :=
  user_input <- deserialize thrift_read_UserInput serialized_user_input ;;
  magic_ponies serialized_task user_input keep_space_around_bodies
    steps stride need_images need_featurized_objects need_object_masks.

(** The entry point [render], lines 388-396; [None] is the
    [std::length_error] of the vector. *)
Definition render_binding (scene_serialized : string)
    : M G (option (buffer Z)) :=
  sceneObj <- deserialize thrift_read_Scene scene_serialized ;;
  match new_vector (int_mul (scene.width sceneObj) (scene.height sceneObj))
          0 with
  | None => ret None
  | Some pixels =>
      tell (EvRenderTo sceneObj 0) ;;
      ret (Some (renderTo sceneObj pixels 0))
  end.

(** The entry point [featurize_scene], lines 398-407; [zero] is [0.0f],
    with which the vector is filled. *)
Definition featurize_scene_binding (zero : float)
    (scene_serialized : string) : M G (option (buffer float)) :=
  sceneObj <- deserialize thrift_read_Scene scene_serialized ;;
  let numObjects := getNumObjectsInScene sceneObj in
  match new_vector (int_mul numObjects kObjectFeatureSize) zero with
  | None => ret None
  | Some objectsFeaturized =>
      tell (EvFeaturize sceneObj 0) ;;
      ret (Some (featurizeScene sceneObj objectsFeaturized 0))
  end.

End EntryPoints.

(** The calls of [renderTo]: the frame and the offset of the pointer. *)
Definition renderTo_calls {G : Type} (tr : list (event G))
    : list (scene.Scene G * Z) :=
  flat_map (fun e => match e with EvRenderTo s off => [(s, off)] | _ => [] end)
           tr.

(** The offsets [start], [start + step], ... of [n] consecutive runs. *)
Fixpoint offsets (start step : Z) (n : nat) : list Z :=
  match n with
  | O => []
  | S n' => start :: offsets (start + step) step n'
  end.

(** The calls of the packing stages: rasterizer, featurizer, warning. *)
Definition is_pack_event {G : Type} (e : event G) : bool :=
  match e with
  | EvRenderTo _ _ | EvRender _ | EvFeaturize _ _ | EvWarning _ _ => true
  | _ => false
  end.

(** The calls of the mask renderer: rasterizer of one body, warning. *)
Definition is_mask_event {G : Type} (e : event G) : bool :=
  match e with
  | EvRender _ | EvWarning _ _ => true
  | _ => false
  end.

(** The calls of [featurizeScene]: the frame and the offset of the
    pointer. *)
Definition featurize_calls {G : Type} (tr : list (event G))
    : list (scene.Scene G * Z) :=
  flat_map (fun e => match e with EvFeaturize s off => [(s, off)] | _ => [] end)
           tr.

(** A cell that holds a byte. *)
Definition is_byte_cell (c : option Z) : Prop :=
  exists b, c = Some b /\ 0 <= b < 256.

(** A codec on the small engine: a scene is read from its name. *)
Module ToyCodec.

Definition toy_read_Scene (serialized : string) : option (scene.Scene Z) :=
  if String.eqb serialized "scene" then Some Toy.toy_scene else None.

Definition toy_read_UserInput (serialized : string)
    : option (scene.UserInput Z) :=
  if String.eqb serialized "input" then Some Toy.toy_input else None.

Definition toy_write_Scene (s : scene.Scene Z) : string :=
  match scene.user_input_status s with
  | Some scene.NO_OCCLUSIONS => "clean"
  | Some scene.HAD_OCCLUSIONS => "occluded"
  | None => "unset"
  end.

#[export] Instance toy_codec : Codec Z Z :=
  {| thrift_read_Scene := toy_read_Scene;
     thrift_read_UserInput := toy_read_UserInput;
     thrift_write_Scene := toy_write_Scene |}.

End ToyCodec.

(** A second small engine, whose simulator returns the scene of the task
    and then the same scene with one more body. *)
Module ToyGrowing.

Definition growing_simulate (t : task.Task Z unit) (steps stride : Z)
    : task.TaskSimulation Z :=
  let s := task.scene t in
  {| task.isSolution := false;
     task.sceneList :=
       [s;
        {| scene.width := scene.width s;
           scene.height := scene.height s;
           scene.bodies := scene.bodies s;
           scene.user_input_bodies :=
             scene.Build_Body (scene.Shape 3) 7 :: scene.user_input_bodies s;
           scene.user_input_status := scene.user_input_status s |}] |}.

#[export] Instance growing_engine : Engine Z Z unit :=
  {| thrift_read_Task := Toy.toy_read;
     mergeUserInputIntoScene := Toy.toy_merge;
     simulateTask := growing_simulate;
     render := Toy.toy_render;
     renderTo := fun _ buf _ => buf;
     featurizeScene := fun _ buf _ => buf;
     kObjectFeatureSize := 14;
     renderTo_length := fun _ _ _ => eq_refl;
     featurizeScene_length := fun _ _ _ => eq_refl |}.

End ToyGrowing.

(** A third small engine, for sizes beyond an [int]: the task [large] has
    a scene of 256 by 256 pixels with 66 bodies, and the simulator returns
    [steps] frames of it. *)
Module ToyLarge.

Definition large_scene : scene.Scene Z :=
  {| scene.width := 256;
     scene.height := 256;
     scene.bodies := repeat (scene.Build_Body (scene.Shape 1) 5) 66;
     scene.user_input_bodies := [];
     scene.user_input_status := None |}.

Definition large_input : scene.UserInput Z :=
  scene.Build_UserInput [] [] [].

Definition large_read (serialized : string) : option (task.Task Z unit) :=
  if String.eqb serialized "large"
  then Some (task.Build_Task large_scene tt) else None.

Definition large_engine : Engine Z Z unit :=
  {| thrift_read_Task := large_read;
     mergeUserInputIntoScene := Toy.toy_merge;
     simulateTask := Toy.toy_simulate;
     render := Toy.toy_render;
     renderTo := Toy.toy_renderTo;
     featurizeScene := fun _ buf _ => buf;
     kObjectFeatureSize := 14;
     renderTo_length := @renderTo_length _ _ _ Toy.toy_engine;
     featurizeScene_length := fun _ _ _ => eq_refl |}.

End ToyLarge.

(** * Properties *)

(** ** Machine integers and outcomes *)

Lemma int_wrap_small (z : Z) :
  -2147483648 <= z <= INT_MAX -> int_wrap z = z.
Proof.
  unfold int_wrap, INT_MAX. intros Hz.
  rewrite Z.mod_small by lia. lia.
Qed.

Lemma int_wrap_mul_l (a b : Z) : int_wrap (int_wrap a * b) = int_wrap (a * b).
Proof.
  unfold int_wrap. f_equal.
  replace ((a + 2147483648) mod 4294967296 - 2147483648)
    with (a - 4294967296 * ((a + 2147483648) / 4294967296)).
  - replace ((a - 4294967296 * ((a + 2147483648) / 4294967296)) * b
             + 2147483648)
      with (a * b + 2147483648
            + (- ((a + 2147483648) / 4294967296) * b) * 4294967296) by ring.
    apply Z.mod_add. lia.
  - pose proof (Z.div_mod (a + 2147483648) 4294967296). lia.
Qed.

Lemma int_wrap_mul_r (a b : Z) : int_wrap (a * int_wrap b) = int_wrap (a * b).
Proof. rewrite (Z.mul_comm a), int_wrap_mul_l. f_equal. ring. Qed.

(** ** buildUserInputObject *)

Section UserInputBuilderFacts.

Context {float : Type}.

Lemma vec_at_app_r (pre v : list float) (j : nat) :
  vec_at (pre ++ v) (length pre + j) = vec_at v j.
Proof.
  unfold vec_at. rewrite nth_error_app2 by lia.
  replace (length pre + j - length pre)%nat with j by lia. reflexivity.
Qed.

(** The inner loop runs for [j = 0] and [j = 2] and stops at [j = 4]. *)
Lemma vertices_loop_eq (v : list float) (i : nat) :
  vertices_loop v i 0 [] =
    (let! a := vec_at v (i + 0) in
     let! b := vec_at v (i + 1) in
     let! c := vec_at v (i + 2) in
     let! d := vec_at v (i + 3) in
     Ok [getVector a b; getVector c d])%res.
Proof.
  change (vertices_loop v i 0 []) with
    (let! a := vec_at v (i + 0) in
     let! b := vec_at v (i + 0 + 1) in
     let! c := vec_at v (i + 2) in
     let! d := vec_at v (i + 2 + 1) in
     Ok [getVector a b; getVector c d])%res.
  rewrite <- !Nat.add_assoc. reflexivity.
Qed.

Lemma polygons_loop_eq (v : list float) (i : nat) acc :
  polygons_loop v i acc =
    if lt_dec i (length v) then
      (let! vs := vertices_loop v i 0 [] in
       polygons_loop v (i + 8)
         (acc ++ [scene.Build_AbsoluteConvexPolygon vs]))%res
    else Ok acc.
Proof.
  simp polygons_loop. destruct (lt_dec i (length v)); reflexivity.
Qed.

Lemma balls_loop_eq (v : list float) (i : nat) acc :
  balls_loop v i acc =
    if lt_dec i (length v) then
      (let! cx := vec_at v i in
       let! cy := vec_at v (i + 1) in
       let! r := vec_at v (i + 2) in
       balls_loop v (i + 3)
         (acc ++ [scene.Build_CircleWithPosition
                    (scene.Build_Vector cx cy) r]))%res
    else Ok acc.
Proof.
  simp balls_loop. destruct (lt_dec i (length v)); reflexivity.
Qed.

Lemma length_flat8 (s : @stride8 float) : length (flat8 s) = 8%nat.
Proof. destruct s as [[[[[[[a b] c] d] e] f] g] h]. reflexivity. Qed.

Lemma length_flat3 (s : @stride3 float) : length (flat3 s) = 3%nat.
Proof. destruct s as [[a b] c]. reflexivity. Qed.

(** On complete strides the polygon loop pushes one polygon per stride:
    the one made of the first two vertices of the stride. *)
Lemma polygons_loop_strides (ss : list (@stride8 float)) :
  forall (pre tl : list float) acc,
    polygons_loop (pre ++ flat_map flat8 ss ++ tl) (length pre) acc =
    polygons_loop (pre ++ flat_map flat8 ss ++ tl)
      (length pre + 8 * length ss) (acc ++ map pushed_polygon ss).
Proof.
  induction ss as [|s ss IH]; intros pre tl acc.
  - cbn [map length flat_map app]. rewrite app_nil_r. f_equal. lia.
  - rewrite polygons_loop_eq.
    destruct (lt_dec (length pre) _) as [_|Hge].
    2:{ exfalso. apply Hge. cbn [flat_map].
        rewrite !length_app, length_flat8. lia. }
    rewrite vertices_loop_eq, !vec_at_app_r.
    destruct s as [[[[[[[a b] c] d] e] f] g] h].
    cbn [flat_map flat8 app vec_at nth_error res_bind].
    specialize (IH (pre ++ [a; b; c; d; e; f; g; h]) tl
                   (acc ++ [pushed_polygon (a, b, c, d, e, f, g, h)])).
    rewrite length_app in IH. cbn [length] in IH.
    rewrite <- !app_assoc in IH. cbn [app] in IH.
    cbn [pushed_polygon] in IH.
    rewrite IH. cbn [map length pushed_polygon]. f_equal. lia.
Qed.

Lemma balls_loop_strides (ts : list (@stride3 float)) :
  forall (pre tl : list float) acc,
    balls_loop (pre ++ flat_map flat3 ts ++ tl) (length pre) acc =
    balls_loop (pre ++ flat_map flat3 ts ++ tl)
      (length pre + 3 * length ts) (acc ++ map circle_of ts).
Proof.
  induction ts as [|s ts IH]; intros pre tl acc.
  - cbn [map length flat_map app]. rewrite app_nil_r. f_equal. lia.
  - rewrite balls_loop_eq.
    destruct (lt_dec (length pre) _) as [_|Hge].
    2:{ exfalso. apply Hge. cbn [flat_map].
        rewrite !length_app, length_flat3. lia. }
    replace (vec_at (pre ++ flat_map flat3 (s :: ts) ++ tl) (length pre))
      with (vec_at (pre ++ flat_map flat3 (s :: ts) ++ tl) (length pre + 0))
      by (f_equal; lia).
    rewrite !vec_at_app_r.
    destruct s as [[a b] c].
    cbn [flat_map flat3 app vec_at nth_error res_bind].
    specialize (IH (pre ++ [a; b; c]) tl (acc ++ [circle_of (a, b, c)])).
    rewrite length_app in IH. cbn [length] in IH.
    rewrite <- !app_assoc in IH. cbn [app] in IH.
    cbn [circle_of] in IH.
    rewrite IH. cbn [map length circle_of]. f_equal. lia.
Qed.

Lemma polygons_loop_end (v : list float) (i : nat) acc :
  (length v <= i)%nat -> polygons_loop v i acc = Ok acc.
Proof.
  intros Hi. rewrite polygons_loop_eq.
  destruct (lt_dec i (length v)); [lia | reflexivity].
Qed.

Lemma balls_loop_end (v : list float) (i : nat) acc :
  (length v <= i)%nat -> balls_loop v i acc = Ok acc.
Proof.
  intros Hi. rewrite balls_loop_eq.
  destruct (lt_dec i (length v)); [lia | reflexivity].
Qed.

Lemma length_flat_map_flat8 (ss : list (@stride8 float)) :
  length (flat_map flat8 ss) = (8 * length ss)%nat.
Proof.
  induction ss as [|s ss IH]; [reflexivity|].
  cbn [flat_map length]. rewrite length_app, length_flat8, IH. lia.
Qed.

Lemma length_flat_map_flat3 (ts : list (@stride3 float)) :
  length (flat_map flat3 ts) = (3 * length ts)%nat.
Proof.
  induction ts as [|s ts IH]; [reflexivity|].
  cbn [flat_map length]. rewrite length_app, length_flat3, IH. lia.
Qed.

(** The polygon loop on complete strides followed by [tl]: the strides
    are consumed, then the loop goes on at the first index of [tl]. *)
Lemma polygons_loop_from_0 (ss : list (@stride8 float)) (tl : list float) :
  polygons_loop (flat_map flat8 ss ++ tl) 0 [] =
  polygons_loop (flat_map flat8 ss ++ tl) (length (flat_map flat8 ss))
    (map pushed_polygon ss).
Proof.
  pose proof (polygons_loop_strides ss [] tl []) as E.
  cbn [app length] in E. rewrite E, length_flat_map_flat8. reflexivity.
Qed.

Lemma balls_loop_from_0 (ts : list (@stride3 float)) (tl : list float) :
  balls_loop (flat_map flat3 ts ++ tl) 0 [] =
  balls_loop (flat_map flat3 ts ++ tl) (length (flat_map flat3 ts))
    (map circle_of ts).
Proof.
  pose proof (balls_loop_strides ts [] tl []) as E.
  cbn [app length] in E. rewrite E, length_flat_map_flat3. reflexivity.
Qed.

Lemma polygons_loop_complete (ss : list (@stride8 float)) :
  polygons_loop (flat_map flat8 ss) 0 [] = Ok (map pushed_polygon ss).
Proof.
  rewrite <- (app_nil_r (flat_map flat8 ss)) at 1.
  rewrite polygons_loop_from_0, polygons_loop_end; [reflexivity|].
  rewrite app_nil_r. lia.
Qed.

Lemma balls_loop_complete (ts : list (@stride3 float)) :
  balls_loop (flat_map flat3 ts) 0 [] = Ok (map circle_of ts).
Proof.
  rewrite <- (app_nil_r (flat_map flat3 ts)) at 1.
  rewrite balls_loop_from_0, balls_loop_end; [reflexivity|].
  rewrite app_nil_r. lia.
Qed.

(** A trailing partial stride of four floats or more gives one more
    polygon. *)
Lemma polygons_loop_tail_long (ss : list (@stride8 float))
    (a b c d : float) (tl : list float) :
  (length tl < 4)%nat ->
  polygons_loop (flat_map flat8 ss ++ a :: b :: c :: d :: tl) 0 [] =
  Ok (map pushed_polygon ss
        ++ [scene.Build_AbsoluteConvexPolygon
              [getVector a b; getVector c d]]).
Proof.
  intros Htl.
  rewrite polygons_loop_from_0, polygons_loop_eq.
  destruct (lt_dec _ _) as [_|Hge].
  2:{ exfalso. apply Hge. rewrite length_app. cbn [length]. lia. }
  rewrite vertices_loop_eq, !vec_at_app_r.
  cbn [vec_at nth_error res_bind].
  apply polygons_loop_end. rewrite length_app. cbn [length]. lia.
Qed.

(** A trailing partial stride of one to three floats: the loop reads
    after it. *)
Lemma polygons_loop_tail_short (ss : list (@stride8 float))
    (tl : list float) :
  tl <> [] -> (length tl < 4)%nat ->
  polygons_loop (flat_map flat8 ss ++ tl) 0 [] = Undefined.
Proof.
  intros Hne Htl.
  rewrite polygons_loop_from_0, polygons_loop_eq.
  destruct (lt_dec _ _) as [_|Hge].
  2:{ exfalso. apply Hge. rewrite length_app.
      destruct tl; [congruence | cbn [length]; lia]. }
  rewrite vertices_loop_eq, !vec_at_app_r.
  destruct tl as [|a [|b [|c [|d tl]]]]; try reflexivity.
  cbn [length] in Htl. lia.
Qed.

Lemma balls_loop_tail1 (ts : list (@stride3 float)) (r : float) :
  balls_loop (flat_map flat3 ts ++ [r]) 0 [] = Undefined.
Proof.
  rewrite balls_loop_from_0, balls_loop_eq.
  destruct (lt_dec _ _) as [_|Hge].
  2:{ exfalso. apply Hge. rewrite length_app. cbn [length]. lia. }
  replace (vec_at (flat_map flat3 ts ++ [r]) (length (flat_map flat3 ts)))
    with (vec_at (flat_map flat3 ts ++ [r])
            (length (flat_map flat3 ts) + 0)) by (f_equal; lia).
  rewrite !vec_at_app_r. reflexivity.
Qed.

Lemma balls_loop_tail2 (ts : list (@stride3 float)) (r r' : float) :
  balls_loop (flat_map flat3 ts ++ [r; r']) 0 [] = Undefined.
Proof.
  rewrite balls_loop_from_0, balls_loop_eq.
  destruct (lt_dec _ _) as [_|Hge].
  2:{ exfalso. apply Hge. rewrite length_app. cbn [length]. lia. }
  replace (vec_at (flat_map flat3 ts ++ [r; r'])
             (length (flat_map flat3 ts)))
    with (vec_at (flat_map flat3 ts ++ [r; r'])
            (length (flat_map flat3 ts) + 0)) by (f_equal; lia).
  rewrite !vec_at_app_r. reflexivity.
Qed.

(** Every list of [8 * k] floats is a list of [k] strides. *)
Lemma strides8_of_length (k : nat) :
  forall v : list float, length v = (8 * k)%nat ->
    exists ss, length ss = k /\ v = flat_map flat8 ss.
Proof.
  induction k as [|k IH]; intros v Hv.
  - destruct v; [|discriminate]. exists []. split; reflexivity.
  - destruct v as [|a [|b [|c [|d [|e [|f [|g [|h v]]]]]]]];
      try (cbn [length] in Hv; lia).
    destruct (IH v) as [ss [Hk Hss]]; [cbn [length] in Hv; lia|].
    exists ((a, b, c, d, e, f, g, h) :: ss). split.
    + cbn [length]. lia.
    + cbn [flat_map flat8 app]. rewrite <- Hss. reflexivity.
Qed.

Lemma strides3_of_length (k : nat) :
  forall v : list float, length v = (3 * k)%nat ->
    exists ts, length ts = k /\ v = flat_map flat3 ts.
Proof.
  induction k as [|k IH]; intros v Hv.
  - destruct v; [|discriminate]. exists []. split; reflexivity.
  - destruct v as [|a [|b [|c v]]]; try (cbn [length] in Hv; lia).
    destruct (IH v) as [ts [Hk Hts]]; [cbn [length] in Hv; lia|].
    exists ((a, b, c) :: ts). split.
    + cbn [length]. lia.
    + cbn [flat_map flat3 app]. rewrite <- Hts. reflexivity.
Qed.

(** Every list of floats is a list of complete strides followed by fewer
    floats than a stride. *)
Lemma strides8_split (n : nat) :
  forall v : list float, (length v <= n)%nat ->
    exists ss tl,
      v = flat_map flat8 ss ++ tl /\ (length tl < 8)%nat /\
      length v = (length tl + length ss * 8)%nat.
Proof.
  induction n as [|n IH]; intros v Hv;
    destruct (Nat.lt_ge_cases (length v) 8) as [Hshort|Hlong];
    try (exists [], v; cbn [flat_map app length]; repeat split; lia).
  destruct v as [|a [|b [|c [|d [|e [|f [|g [|h v]]]]]]]];
    try (cbn [length] in Hlong; lia).
  destruct (IH v) as [ss [tl [Hss [Htl Hlen]]]];
    [cbn [length] in Hv; lia|].
  exists ((a, b, c, d, e, f, g, h) :: ss), tl.
  cbn [flat_map flat8 app length]. rewrite <- Hss.
  repeat split; [assumption | lia].
Qed.

Lemma strides3_split (n : nat) :
  forall v : list float, (length v <= n)%nat ->
    exists ts tl,
      v = flat_map flat3 ts ++ tl /\ (length tl < 3)%nat /\
      length v = (length tl + length ts * 3)%nat.
Proof.
  induction n as [|n IH]; intros v Hv;
    destruct (Nat.lt_ge_cases (length v) 3) as [Hshort|Hlong];
    try (exists [], v; cbn [flat_map app length]; repeat split; lia).
  destruct v as [|a [|b [|c v]]]; try (cbn [length] in Hlong; lia).
  destruct (IH v) as [ts [tl [Hts [Htl Hlen]]]];
    [cbn [length] in Hv; lia|].
  exists ((a, b, c) :: ts), tl.
  cbn [flat_map flat3 app length]. rewrite <- Hts.
  repeat split; [assumption | lia].
Qed.

(** The polygon loop returns or reads out of range; it does not throw. *)
Lemma polygons_loop_no_throw (v : list float) (n : nat) :
  forall i acc e,
    (length v - i <= n)%nat -> polygons_loop v i acc <> Throw e.
Proof.
  induction n as [|n IH]; intros i acc e Hn.
  - rewrite polygons_loop_end by lia. discriminate.
  - rewrite polygons_loop_eq.
    destruct (lt_dec i (length v)); [|discriminate].
    rewrite vertices_loop_eq. unfold vec_at.
    destruct (nth_error v (i + 0)); cbn [res_bind]; [|discriminate].
    destruct (nth_error v (i + 1)); cbn [res_bind]; [|discriminate].
    destruct (nth_error v (i + 2)); cbn [res_bind]; [|discriminate].
    destruct (nth_error v (i + 3)); cbn [res_bind]; [|discriminate].
    apply IH. lia.
Qed.

(** A circle input with a partial stride: the circle loop reads after the
    end of the input. *)
Lemma balls_loop_partial (v : list float) :
  (length v mod 3 <> 0)%nat -> balls_loop v 0 [] = Undefined.
Proof.
  intros Hmod.
  destruct (strides3_split (length v) v (le_n _))
    as [ts [tl [-> [Htl Hlen]]]].
  rewrite Hlen, Nat.Div0.mod_add, Nat.mod_small in Hmod by assumption.
  destruct tl as [|r [|r' [|r'' tl]]].
  - cbn [length] in Hmod. congruence.
  - apply balls_loop_tail1.
  - apply balls_loop_tail2.
  - cbn [length] in Htl. lia.
Qed.

(** A rectangle input with a partial stride: the polygon loop reads after
    the end of the input, or makes a polygon of the partial stride. *)
Lemma polygons_loop_partial (v : list float) :
  (length v mod 8 <> 0)%nat ->
  polygons_loop v 0 [] = Undefined \/
  exists polys,
    polygons_loop v 0 [] = Ok polys /\
    length polys = S (length v / 8).
Proof.
  intros Hmod.
  destruct (strides8_split (length v) v (le_n _))
    as [ss [tl [-> [Htl Hlen]]]].
  assert (Hdiv : (length (flat_map flat8 ss ++ tl) / 8)%nat = length ss).
  { rewrite Hlen, Nat.div_add, Nat.div_small by lia. reflexivity. }
  rewrite Hlen, Nat.Div0.mod_add, Nat.mod_small in Hmod by assumption.
  rewrite Hdiv.
  destruct tl as [|a [|b [|c [|d tl]]]].
  - cbn [length] in Hmod. congruence.
  - left. apply polygons_loop_tail_short; [discriminate | cbn; lia].
  - left. apply polygons_loop_tail_short; [discriminate | cbn; lia].
  - left. apply polygons_loop_tail_short; [discriminate | cbn; lia].
  - right. eexists. split.
    + apply polygons_loop_tail_long. cbn [length] in Htl. lia.
    + rewrite length_app, length_map. cbn [length]. lia.
Qed.

(** *** The flattened point list *)

Lemma flatten_points_from (p : nat -> nat -> Z) (n : nat) :
  forall s i, (i < n)%nat ->
    let l := flat_map (fun i => [p i 0%nat; p i 1%nat]) (seq s n) in
    nth_error l (2 * i) = Some (p (s + i)%nat 0%nat) /\
    nth_error l (2 * i + 1) = Some (p (s + i)%nat 1%nat).
Proof.
  induction n as [|n IH]; intros s i Hi; [lia|].
  cbn [seq flat_map app]. destruct i as [|i].
  - rewrite Nat.add_0_r. split; reflexivity.
  - destruct (IH (S s) i) as [H0 H1]; [lia|].
    replace (2 * S i)%nat with (S (S (2 * i))) by lia.
    replace (S (S (2 * i)) + 1)%nat with (S (S (2 * i + 1))) by lia.
    cbn [nth_error].
    replace (s + S i)%nat with (S s + i)%nat by lia.
    split; assumption.
Qed.

Lemma length_flatten_points (p : nat -> nat -> Z) (n s : nat) :
  length (flat_map (fun i => [p i 0%nat; p i 1%nat]) (seq s n))
  = (2 * n)%nat.
Proof.
  revert s. induction n as [|n IH]; intros s; [reflexivity|].
  cbn [seq flat_map app length]. rewrite IH. lia.
Qed.

Lemma flatten_points_of_rows (rows : list (Z * Z)) :
  flatten_points (points_of_rows rows)
  = flat_map (fun r => [fst r; snd r]) rows.
Proof.
  unfold flatten_points, shape_at, points_of_rows.
  cbn [shape unchecked2 nth].
  assert (G : forall pre,
    flat_map (fun i => [fst (nth i (pre ++ rows) (0, 0));
                        snd (nth i (pre ++ rows) (0, 0))])
             (seq (length pre) (length rows))
    = flat_map (fun r => [fst r; snd r]) rows).
  { induction rows as [|r rows IH]; intros pre; [reflexivity|].
    cbn [length seq flat_map app].
    rewrite app_nth2 by lia. rewrite Nat.sub_diag. cbn [nth].
    do 2 f_equal.
    specialize (IH (pre ++ [r])).
    rewrite length_app, <- app_assoc in IH. cbn [length app] in IH.
    rewrite Nat.add_1_r in IH. exact IH. }
  exact (G []).
Qed.

(** On a well-shaped matrix and complete strides the builder returns,
    with the rows flattened, one two-vertex polygon per stride of eight
    and one circle per stride of three. *)
Lemma buildUserInputObject_strides (points : array_int32)
    (ss : list (@stride8 float)) (ts : list (@stride3 float)) :
  ndim points = 2%nat -> shape_at points 1 = 2%nat ->
  buildUserInputObject points (flat_map flat8 ss) (flat_map flat3 ts)
  = Ok (scene.Build_UserInput (flatten_points points)
          (map pushed_polygon ss) (map circle_of ts)).
Proof.
  intros Hd Hs. unfold buildUserInputObject.
  rewrite Hd, Hs. cbn [Nat.eqb negb].
  rewrite polygons_loop_complete, balls_loop_complete. reflexivity.
Qed.

Lemma points_of_rows_shape (rows : list (Z * Z)) :
  ndim (points_of_rows rows) = 2%nat /\
  shape_at (points_of_rows rows) 1 = 2%nat.
Proof. split; reflexivity. Qed.

End UserInputBuilderFacts.

(** ** Buffers *)

Section BufferFacts.

Context {A : Type}.

Lemma length_blit (buf : buffer A) (off : nat) (data : list A) :
  (off + length data <= length buf)%nat ->
  length (blit buf off data) = length buf.
Proof.
  intros Hb. unfold blit.
  rewrite !length_app, length_map, length_firstn, length_skipn. lia.
Qed.

Lemma blit_nil (buf : buffer A) (off : nat) : blit buf off [] = buf.
Proof.
  unfold blit. cbn [map length app]. rewrite Nat.add_0_r.
  apply firstn_skipn.
Qed.

(** Two stores one after the other are one store. *)
Lemma blit_blit (buf : buffer A) (off : nat) (d1 d2 : list A) :
  (off + length d1 <= length buf)%nat ->
  blit (blit buf off d1) (off + length d1) d2 = blit buf off (d1 ++ d2).
Proof.
  intros Hb. unfold blit.
  assert (Hf : length (firstn off buf) = off)
    by (rewrite length_firstn; lia).
  rewrite map_app, length_app, <- !app_assoc. 
  rewrite firstn_app, Hf.
  rewrite (firstn_all2 (n := (off + length d1)%nat) (firstn off buf))
    by lia.
  replace (off + length d1 - off)%nat with (length d1) by lia.
  rewrite firstn_app, length_map, Nat.sub_diag. cbn [firstn].
  rewrite (firstn_all2 (n := length d1) (map Some d1))
    by (rewrite length_map; lia).
  rewrite app_nil_r, <- !app_assoc. do 3 f_equal.
  rewrite skipn_app, Hf.
  rewrite (skipn_all2 (n := (off + length d1 + length d2)%nat)
             (firstn off buf)) by lia.
  cbn [app].
  rewrite skipn_app, length_map.
  rewrite (skipn_all2 (map Some d1)) by (rewrite length_map; lia).
  cbn [app]. rewrite skipn_skipn. f_equal. lia.
Qed.

Lemma slice_blit (buf : buffer A) (off : nat) (pre d post : list A) :
  (off + length pre + length d + length post <= length buf)%nat ->
  slice (blit buf off (pre ++ d ++ post)) (off + length pre) (length d)
  = map Some d.
Proof.
  intros Hb. unfold slice, blit.
  assert (Hf : length (firstn off buf) = off)
    by (rewrite length_firstn; lia).
  rewrite !map_app, <- !app_assoc.
  rewrite skipn_app, Hf.
  rewrite (skipn_all2 (firstn off buf)) by lia. cbn [app].
  replace (off + length pre - off)%nat with (length pre) by lia.
  rewrite skipn_app, length_map, Nat.sub_diag. cbn [skipn].
  rewrite (skipn_all2 (map Some pre)) by (rewrite length_map; lia).
  cbn [app].
  rewrite firstn_app, length_map, Nat.sub_diag. cbn [firstn].
  rewrite app_nil_r. apply firstn_all2. rewrite length_map. lia.
Qed.

Lemma firstn_blit (buf : buffer A) (off : nat) (data : list A) :
  (off <= length buf)%nat ->
  firstn off (blit buf off data) = firstn off buf.
Proof.
  intros Hb. unfold blit.
  rewrite firstn_app, length_firstn.
  replace (off - Nat.min off (length buf))%nat with 0%nat by lia.
  cbn [firstn]. rewrite app_nil_r. apply firstn_all2.
  rewrite length_firstn. lia.
Qed.

Lemma skipn_blit (buf : buffer A) (off : nat) (data : list A) :
  (off + length data <= length buf)%nat ->
  skipn (off + length data) (blit buf off data)
  = skipn (off + length data) buf.
Proof.
  intros Hb. unfold blit.
  assert (Hf : length (firstn off buf) = off)
    by (rewrite length_firstn; lia).
  rewrite skipn_app, Hf.
  rewrite (skipn_all2 (firstn off buf)) by lia. cbn [app].
  replace (off + length data - off)%nat with (length data) by lia.
  rewrite skipn_app, length_map, Nat.sub_diag. cbn [skipn].
  rewrite (skipn_all2 (map Some data)) by (rewrite length_map; lia).
  reflexivity.
Qed.

Lemma write_at_ok (buf : buffer A) (off : Z) (data : list A) :
  0 <= off -> off + Z.of_nat (length data) <= Z.of_nat (length buf) ->
  write_at buf off data = Ok (blit buf (Z.to_nat off) data).
Proof.
  intros H0 H1. unfold write_at.
  destruct data as [|x data]; [rewrite blit_nil; reflexivity|].
  destruct (0 <=? off) eqn:E0; [|apply Z.leb_gt in E0; lia].
  destruct (_ <=? Z.of_nat (length buf)) eqn:E1;
    [|apply Z.leb_gt in E1; lia].
  reflexivity.
Qed.

Lemma fill_at_ok (buf : buffer A) (off n : Z) (c : A) :
  0 <= off -> 0 <= n -> off + n <= Z.of_nat (length buf) ->
  fill_at buf off n c = Ok (blit buf (Z.to_nat off) (repeat c (Z.to_nat n))).
Proof.
  intros H0 Hn H1. unfold fill_at.
  destruct (n <? 0) eqn:E; [apply Z.ltb_lt in E; lia|].
  apply write_at_ok; [assumption|]. rewrite repeat_length. lia.
Qed.

Lemma new_array_ok (n : Z) :
  0 <= n -> new_array A n = Ok (repeat None (Z.to_nat n)).
Proof.
  intros Hn. unfold new_array.
  destruct (n <? 0) eqn:E; [apply Z.ltb_lt in E; lia | reflexivity].
Qed.

(** An allocation that returns has the size that was asked for. *)
Lemma new_array_length (n : Z) (buf : buffer A) :
  new_array A n = Ok buf -> Z.of_nat (length buf) = n.
Proof.
  unfold new_array. destruct (n <? 0) eqn:E; [discriminate|].
  intros [= <-]. rewrite repeat_length. apply Z.ltb_ge in E. lia.
Qed.

End BufferFacts.

Lemma int_wrap_range (z : Z) : -2147483648 <= int_wrap z <= INT_MAX.
Proof.
  unfold int_wrap, INT_MAX.
  pose proof (Z.mod_pos_bound (z + 2147483648) 4294967296). lia.
Qed.

Lemma size_of_int_small (z : Z) : 0 <= z <= INT_MAX -> size_of_int z = z.
Proof.
  unfold size_of_int, INT_MAX. intros Hz. apply Z.mod_small. lia.
Qed.

(** ** The computation monad *)

Lemma bind_ok {G A B : Type} (t : list (event G)) (a : A) (k : A -> M G B) :
  bind (t, Ok a) k = (t ++ fst (k a), snd (k a)).
Proof. unfold bind. destruct (k a). reflexivity. Qed.

Lemma bind_ret {G A B : Type} (a : A) (k : A -> M G B) : bind (ret a) k = k a.
Proof. unfold ret. rewrite bind_ok. destruct (k a). reflexivity. Qed.

Lemma bind_tell {G B : Type} (e : event G) (k : unit -> M G B) :
  bind (tell e) k = (e :: fst (k tt), snd (k tt)).
Proof. unfold tell. rewrite bind_ok. reflexivity. Qed.

Lemma bind_lift_ok {G A B : Type} (a : A) (k : A -> M G B) :
  bind (lift (Ok a)) k = k a.
Proof. exact (bind_ret a k). Qed.

(** ** renderAllObjectMasksTo *)

Section MaskFacts.

Context {float G T : Type} {engine : Engine float G T}.

Implicit Types (s : scene.Scene G) (body : scene.Body G).

Local Abbreviation image_size s := (int_mul (scene.width s) (scene.height s)).

(** Every mask has the size of the image. *)
Lemma length_mask_of s body :
  0 <= image_size s ->
  length (mask_of s body) = Z.to_nat (image_size s).
Proof.
  intros HS. unfold mask_of, size_matches.
  destruct (Z.of_nat _ =? _) eqn:E.
  - apply Z.eqb_eq in E. rewrite length_map. lia.
  - apply repeat_length.
Qed.

Lemma length_flat_map_mask_of s (bs : list (scene.Body G)) :
  0 <= image_size s ->
  Z.of_nat (length (flat_map (mask_of s) bs))
  = Z.of_nat (length bs) * image_size s.
Proof.
  intros HS. induction bs as [|b bs IH]; [reflexivity|].
  cbn [flat_map length]. rewrite length_app, length_mask_of by assumption.
  lia.
Qed.

(** One call of the lambda: the rasterizer is called, the mask of the
    body is stored at [bufferStart + currentObjectIndex * imageSize] and
    the index moves on. *)
Lemma renderSingleBody_run s (bufferStart : Z) body (buf : buffer Z)
    (idx : Z) :
  0 <= image_size s ->
  0 <= idx -> idx + 1 <= INT_MAX -> idx * image_size s <= INT_MAX ->
  0 <= bufferStart ->
  bufferStart + (idx + 1) * image_size s <= Z.of_nat (length buf) ->
  renderSingleBody s bufferStart (image_size s) body (buf, idx)
  = (mask_events s body,
     Ok (blit buf (Z.to_nat (bufferStart + idx * image_size s))
              (mask_of s body),
         idx + 1)).
Proof.
  intros HS Hi Hi1 HiS Hb Hlen.
  pose proof (int_wrap_range (scene.width s * scene.height s)) as HR.
  fold (image_size s) in HR.
  unfold renderSingleBody. rewrite bind_tell.
  assert (Hoff : int_mul idx (image_size s) = idx * image_size s).
  { unfold int_mul at 1. apply int_wrap_small. unfold INT_MAX in *. nia. }
  assert (Hidx : int_add idx 1 = idx + 1).
  { unfold int_add. apply int_wrap_small. unfold INT_MAX in *. lia. }
  rewrite Hoff, Hidx, size_of_int_small by lia.
  unfold mask_events, mask_of, size_matches, rasterization.
  destruct (Z.of_nat _ =? image_size s) eqn:E.
  - apply Z.eqb_eq in E.
    rewrite write_at_ok; [| nia | rewrite length_map; nia].
    reflexivity.
  - rewrite bind_tell, fill_at_ok; [| nia | lia | nia].
    reflexivity.
Qed.

(** A range-for loop over bodies: the masks of the defined bodies are
    stored one after the other, in list order. *)
Lemma render_bodies_run s (bufferStart : Z) (bodies : list (scene.Body G)) :
  forall (buf : buffer Z) (idx : Z),
    let vs := filter is_defined bodies in
    let n := Z.of_nat (length vs) in
    0 <= image_size s ->
    0 <= idx -> idx + n <= INT_MAX ->
    (idx + n) * image_size s <= INT_MAX ->
    0 <= bufferStart ->
    bufferStart + (idx + n) * image_size s <= Z.of_nat (length buf) ->
    render_bodies s bufferStart (image_size s) bodies (buf, idx)
    = (flat_map (mask_events s) vs,
       Ok (blit buf (Z.to_nat (bufferStart + idx * image_size s))
                (flat_map (mask_of s) vs),
           idx + n)).
Proof.
  induction bodies as [|b bodies IH]; intros buf idx vs n HS Hi Hn HnS Hb Hlen.
  - subst vs n. cbn [filter flat_map length render_bodies].
    rewrite blit_nil, Z.add_0_r. reflexivity.
  - cbn [render_bodies]. subst vs n. cbn [filter] in *.
    destruct (is_defined b) eqn:Eb.
    + cbn [length flat_map] in *.
      rewrite Nat2Z.inj_succ in *.
      rewrite renderSingleBody_run by nia.
      rewrite bind_ok. cbn [fst snd].
      assert (Hm := length_mask_of s b HS).
      rewrite IH; try nia.
      2:{ rewrite length_blit; [nia|]. rewrite Hm. nia. }
      cbn [fst snd].
      replace (Z.to_nat (bufferStart + (idx + 1) * image_size s))
        with (Z.to_nat (bufferStart + idx * image_size s)
              + length (mask_of s b))%nat by (rewrite Hm; nia).
      rewrite blit_blit by (rewrite Hm; nia).
      do 3 f_equal. lia.
    + rewrite bind_ret. apply IH; assumption.
Qed.

(** The whole function: the masks of the valid bodies, those of [bodies]
    first, are stored from [bufferStart] on. *)
Lemma renderAllObjectMasksTo_run s (buf : buffer Z) (bufferStart : Z) :
  let n := Z.of_nat (length (valid_bodies s)) in
  0 <= image_size s ->
  n <= INT_MAX -> n * image_size s <= INT_MAX ->
  0 <= bufferStart ->
  bufferStart + n * image_size s <= Z.of_nat (length buf) ->
  renderAllObjectMasksTo s buf bufferStart
  = (flat_map (mask_events s) (valid_bodies s),
     Ok (blit buf (Z.to_nat bufferStart)
              (flat_map (mask_of s) (valid_bodies s)))).
Proof.
  intros n HS Hn HnS Hb Hlen. subst n.
  unfold valid_bodies in *. rewrite filter_app in *.
  rewrite length_app, Nat2Z.inj_add in *.
  set (v1 := filter is_defined (scene.bodies s)) in *.
  set (v2 := filter is_defined (scene.user_input_bodies s)) in *.
  unfold renderAllObjectMasksTo.
  rewrite render_bodies_run; fold v1; try nia.
  rewrite bind_ok. cbn [fst snd].
  assert (H1 := length_flat_map_mask_of s v1 HS).
  rewrite render_bodies_run; fold v2; try nia.
  2:{ rewrite length_blit; nia. }
  rewrite bind_ok. cbn [fst snd ret]. rewrite app_nil_r.
  rewrite !flat_map_app. rewrite Z.mul_0_l, Z.add_0_r.
  replace (Z.to_nat (bufferStart + (0 + Z.of_nat (length v1)) * image_size s))
    with (Z.to_nat bufferStart + length (flat_map (mask_of s) v1))%nat
    by nia.
  rewrite blit_blit by nia. reflexivity.
Qed.

End MaskFacts.

(** ** Where a mask lies *)

Section MaskSlices.

Context {float G T : Type} {engine : Engine float G T}.

Implicit Types (s : scene.Scene G) (body : scene.Body G).

Local Abbreviation image_size s :=
  (int_mul (scene.width s) (scene.height s)).

(** The mask of the [i]-th body of [vs] is the [i]-th run of
    [imageSize] cells. *)
Lemma slice_mask s (buf : buffer Z) (start : Z) (vs : list (scene.Body G))
    (i : nat) body :
  0 <= image_size s -> 0 <= start ->
  start + Z.of_nat (length vs) * image_size s <= Z.of_nat (length buf) ->
  nth_error vs i = Some body ->
  slice (blit buf (Z.to_nat start) (flat_map (mask_of s) vs))
        (Z.to_nat (start + Z.of_nat i * image_size s))
        (Z.to_nat (image_size s))
  = map Some (mask_of s body).
Proof.
  intros HS Hstart Hlen Hi.
  destruct (nth_error_split vs i Hi) as [l1 [l2 [-> Hl1]]].
  rewrite flat_map_app. cbn [flat_map].
  assert (H1 := length_flat_map_mask_of s l1 HS).
  assert (H2 := length_flat_map_mask_of s l2 HS).
  assert (Hm := length_mask_of s body HS).
  rewrite length_app in Hlen. cbn [length] in Hlen.
  replace (Z.to_nat (start + Z.of_nat i * image_size s))
    with (Z.to_nat start + length (flat_map (mask_of s) l1))%nat by nia.
  rewrite <- Hm. apply slice_blit. nia.
Qed.

Lemma render_events s (vs : list (scene.Body G)) :
  filter is_render (flat_map (mask_events s) vs)
  = map (fun body => EvRender (singleObjectScene s body)) vs.
Proof.
  induction vs as [|b vs IH]; [reflexivity|].
  cbn [flat_map map]. rewrite filter_app, IH. unfold mask_events.
  destruct (size_matches s b); reflexivity.
Qed.

Lemma warning_event s (vs : list (scene.Body G)) body :
  In body vs -> size_matches s body = false ->
  In (EvWarning (image_size s) (length (rasterization s body)))
     (flat_map (mask_events s) vs).
Proof.
  intros Hin Hm. apply in_flat_map. exists body. split; [assumption|].
  unfold mask_events. rewrite Hm. right. left. reflexivity.
Qed.

(** Values that are bytes already are stored as they are. *)
Lemma map_uint8_of_bytes (l : list Z) :
  Forall (fun v => 0 <= v < 256) l -> map uint8_of l = l.
Proof.
  induction 1 as [|v l Hv _ IH]; [reflexivity|].
  cbn [map]. rewrite IH. unfold uint8_of.
  rewrite Z.mod_small by assumption. reflexivity.
Qed.

End MaskSlices.

(** ** Counting objects *)

Section CountFacts.

Context {G : Type}.

Lemma count_loop (l : list (scene.Body G)) :
  forall n : Z,
    0 <= n -> n + Z.of_nat (length (filter is_defined l)) <= INT_MAX ->
    fold_left
      (fun numObjects body =>
         if is_defined body then int_add numObjects 1 else numObjects)
      l n
    = n + Z.of_nat (length (filter is_defined l)).
Proof.
  induction l as [|b l IH]; intros n Hn Hmax.
  - cbn [fold_left filter length]. lia.
  - cbn [fold_left filter] in *. destruct (is_defined b).
    + cbn [length] in *. rewrite Nat2Z.inj_succ in *.
      unfold int_add. rewrite int_wrap_small by (unfold INT_MAX in *; lia).
      rewrite IH; lia.
    + apply IH; assumption.
Qed.

Lemma getNumObjectsInScene_count (s : scene.Scene G) :
  Z.of_nat (length (filter is_defined
                      (scene.bodies s ++ scene.user_input_bodies s)))
  <= INT_MAX ->
  getNumObjectsInScene s
  = Z.of_nat (length (filter is_defined
                        (scene.bodies s ++ scene.user_input_bodies s))).
Proof.
  intros Hmax. unfold getNumObjectsInScene.
  rewrite count_loop by lia. lia.
Qed.

End CountFacts.

(** ** Computations that return *)

Lemma bind_inv_ok {G A B : Type} (m : M G A) (k : A -> M G B)
    (tr : list (event G)) (b : B) :
  bind m k = (tr, Ok b) ->
  exists t1 a t2, m = (t1, Ok a) /\ k a = (t2, Ok b) /\ tr = t1 ++ t2.
Proof.
  destruct m as [t1 [a| |]]; cbn [bind]; try discriminate.
  destruct (k a) as [t2 r] eqn:E. intros [= <- ->].
  exists t1, a, t2. auto.
Qed.

(** The trace of a computation that has stopped is kept by [bind]. *)
Lemma bind_trace {G A B : Type} (m : M G A) (k : A -> M G B)
    (P : event G -> Prop) :
  Forall P (fst m) -> (forall a, Forall P (fst (k a))) ->
  Forall P (fst (bind m k)).
Proof.
  intros Hm Hk. destruct m as [t1 [a| |]]; cbn [bind fst] in *; try assumption.
  specialize (Hk a). destruct (k a) as [t2 r]. cbn [fst] in *.
  apply Forall_app. split; assumption.
Qed.

Section BufferSizes.

Context {A : Type}.

Lemma write_at_length (buf buf' : buffer A) (off : Z) (data : list A) :
  write_at buf off data = Ok buf' -> length buf' = length buf.
Proof.
  unfold write_at.
  destruct data as [|x data]; [intros [= <-]; reflexivity|].
  destruct ((0 <=? off) && _)%bool eqn:E; [|discriminate].
  apply andb_true_iff in E. destruct E as [E1 E2].
  apply Z.leb_le in E1, E2. intros [= <-].
  assert (H : (Z.to_nat off + length (x :: data) <= length buf)%nat) by lia.
  exact (length_blit buf (Z.to_nat off) (x :: data) H).
Qed.

Lemma fill_at_length (buf buf' : buffer A) (off n : Z) (c : A) :
  fill_at buf off n c = Ok buf' -> length buf' = length buf.
Proof.
  unfold fill_at. destruct (n <? 0); [discriminate|].
  apply write_at_length.
Qed.

End BufferSizes.

Section PackFacts.

Context {float G T : Type} {engine : Engine float G T}.

Implicit Types (s : scene.Scene G) (body : scene.Body G).

(** No store of the mask renderer changes the size of the buffer. *)
Lemma renderSingleBody_length s (bufferStart imageSize : Z) body
    (buf buf' : buffer Z) (idx idx' : Z) tr :
  renderSingleBody s bufferStart imageSize body (buf, idx)
  = (tr, Ok (buf', idx')) ->
  length buf' = length buf.
Proof.
  unfold renderSingleBody. rewrite bind_tell.
  intros [= _ E]. revert E. cbv beta zeta.
  destruct (Z.of_nat _ =? size_of_int imageSize).
  - destruct (write_at buf _ _) as [b| |] eqn:W; cbn; try discriminate.
    intros [= <- _]. eapply write_at_length; eassumption.
  - destruct (fill_at buf _ _ _) as [b| |] eqn:W; cbn; try discriminate.
    intros [= <- _]. eapply fill_at_length; eassumption.
Qed.

Lemma render_bodies_length s (bufferStart imageSize : Z)
    (bodies : list (scene.Body G)) :
  forall (buf buf' : buffer Z) (idx idx' : Z) tr,
    render_bodies s bufferStart imageSize bodies (buf, idx)
    = (tr, Ok (buf', idx')) ->
    length buf' = length buf.
Proof.
  induction bodies as [|b bodies IH]; intros buf buf' idx idx' tr.
  - cbn. intros [= _ <- _]. reflexivity.
  - cbn [render_bodies]. intros E.
    apply bind_inv_ok in E. destruct E as [t1 [[buf1 idx1] [t2 [E1 [E2 _]]]]].
    apply IH in E2. rewrite E2.
    destruct (is_defined b).
    + eapply renderSingleBody_length; eassumption.
    + cbn in E1. injection E1 as _ <- _. reflexivity.
Qed.

Lemma renderAllObjectMasksTo_length s (buf buf' : buffer Z)
    (bufferStart : Z) tr :
  renderAllObjectMasksTo s buf bufferStart = (tr, Ok buf') ->
  length buf' = length buf.
Proof.
  unfold renderAllObjectMasksTo. intros E.
  apply bind_inv_ok in E. destruct E as [t1 [[buf1 idx1] [t2 [E1 [E2 _]]]]].
  apply bind_inv_ok in E2. destruct E2 as [t3 [[buf2 idx2] [t4 [E2 [E3 _]]]]].
  cbn in E3. injection E3 as _ <-.
  apply render_bodies_length in E1, E2. cbn [fst]. congruence.
Qed.

Lemma pack_frames_length (need_object_masks : bool)
    (imageSize numSceneObjects : Z) (frames : list (scene.Scene G)) :
  forall (imgs masks imgs' masks' : buffer Z) (iwi si iwi' si' : Z) tr,
    pack_frames need_object_masks imageSize numSceneObjects frames
      (imgs, masks, iwi, si) = (tr, Ok (imgs', masks', iwi', si')) ->
    length imgs' = length imgs /\ length masks' = length masks.
Proof.
  induction frames as [|f frames IH];
    intros imgs masks imgs' masks' iwi si iwi' si' tr.
  - cbn. intros [= _ <- <- _ _]. split; reflexivity.
  - cbn [pack_frames]. intros E.
    apply bind_inv_ok in E.
    destruct E as [t1 [[[[imgs1 masks1] iwi1] si1] [t2 [E1 [E2 _]]]]].
    apply IH in E2. destruct E2 as [-> ->].
    unfold pack_frame in E1. rewrite bind_tell in E1.
    injection E1 as _ E1.
    destruct need_object_masks.
    + destruct (renderAllObjectMasksTo f masks _) as [t [m| |]] eqn:R;
        cbn in E1; try discriminate.
      injection E1 as <- <- _ _.
      apply renderAllObjectMasksTo_length in R.
      rewrite renderTo_length. split; [reflexivity | assumption].
    + cbn in E1. injection E1 as <- <- _ _.
      rewrite renderTo_length. split; reflexivity.
Qed.

(** The feature loop always returns, and leaves the size of the buffer
    and the rasterizer alone. *)
Lemma featurize_frames_run (numSceneObjects : Z)
    (frames : list (scene.Scene G)) :
  forall (buf : buffer float) (writeIndex : Z),
    exists tr buf' writeIndex',
      featurize_frames numSceneObjects frames (buf, writeIndex)
      = (tr, Ok (buf', writeIndex')) /\
      length buf' = length buf /\
      filter is_render tr = [].
Proof.
  induction frames as [|f frames IH]; intros buf writeIndex.
  - exists [], buf, writeIndex. repeat split.
  - cbn [featurize_frames]. rewrite bind_tell.
    destruct (IH (featurizeScene f buf writeIndex)
                 (int_add writeIndex
                    (int_mul kObjectFeatureSize numSceneObjects)))
      as [tr [buf' [wi' [E [L R]]]]].
    rewrite E. cbn [fst snd].
    exists (EvFeaturize f writeIndex :: tr), buf', wi'.
    repeat split.
    + rewrite L. apply featurizeScene_length.
    + cbn [filter is_render]. assumption.
Qed.

End PackFacts.

(** ** magic_ponies *)

Section MagicPoniesFacts.

Context {float G T : Type} {engine : Engine float G T}.

Lemma addUserInputToScene_run (user_input : scene.UserInput float)
    (keep allow : bool) (s : scene.Scene G) :
  addUserInputToScene user_input keep allow s
  = ([EvMerge keep allow], Ok (merged_scene user_input keep allow s)).
Proof.
  unfold addUserInputToScene, merged_scene.
  destruct (mergeUserInputIntoScene _ _ _ _ _ _) as [good bodies].
  reflexivity.
Qed.

Lemma deserialize_Task_run (serialized : string) :
  deserialize_Task serialized
  = ([EvDeserialize serialized],
     match thrift_read_Task serialized with
     | Some object => Ok object
     | None => Throw thrift_exception
     end).
Proof.
  unfold deserialize_Task. rewrite bind_tell. reflexivity.
Qed.

(** The stage of lines 216-231 keeps the sizes of the two buffers. *)
Lemma images_stage_length (need_object_masks : bool)
    (numImagesTotal imageSize numSceneObjects : Z)
    (frames : list (scene.Scene G))
    (imgs masks imgs' masks' : buffer Z) (a b : Z) tr :
  (if 0 <? numImagesTotal
   then pack_frames need_object_masks imageSize numSceneObjects frames
          (imgs, masks, 0, 0)
   else ret (imgs, masks, 0, 0)) = (tr, Ok (imgs', masks', a, b)) ->
  length imgs' = length imgs /\ length masks' = length masks.
Proof.
  destruct (0 <? numImagesTotal).
  - apply pack_frames_length.
  - cbn. intros [= _ <- <- _ _]. split; reflexivity.
Qed.

(** The stage of lines 234-242 always returns. *)
Lemma features_stage_run (numScenesTotal numSceneObjects : Z)
    (frames : list (scene.Scene G)) (buf : buffer float) :
  exists tr buf' writeIndex,
    (if 0 <? numScenesTotal
     then featurize_frames numSceneObjects frames (buf, 0)
     else ret (buf, 0)) = (tr, Ok (buf', writeIndex)) /\
    length buf' = length buf /\ filter is_render tr = [].
Proof.
  destruct (0 <? numScenesTotal).
  - apply featurize_frames_run.
  - exists [], buf, 0. repeat split.
Qed.

(** What a run that reaches line 242 has computed. *)
Lemma magic_ponies_pack_inv (serialized_task : string)
    (user_input : scene.UserInput float) (keep : bool) (steps stride : Z)
    (need_images need_featurized_objects need_object_masks : bool)
    (task0 : task.Task G T) tr (p : Packed) :
  thrift_read_Task serialized_task = Some task0 ->
  magic_ponies_pack serialized_task user_input keep steps stride
    need_images need_featurized_objects need_object_masks = (tr, Ok p) ->
  let simulation := simulation_of task0 user_input keep steps stride in
  let frames := task.sceneList simulation in
  isSolved p = task.isSolution simulation /\
  hadOcclusions p = hadSimulationOcclusions simulation /\
  numImagesTotal p
    = (if need_images then int_of_size (length frames) else 0) /\
  numScenesTotal p
    = (if need_featurized_objects then int_of_size (length frames) else 0) /\
  imageSize p
    = int_mul (scene.width (task.scene task0))
              (scene.height (task.scene task0)) /\
  numSceneObjects p = getNumObjects simulation /\
  Z.of_nat (length (packedImages p))
    = int_mul (imageSize p) (numImagesTotal p) /\
  Z.of_nat (length (packedObjectMasks p))
    = int_mul (int_mul (imageSize p) (numImagesTotal p))
              (numSceneObjects p) /\
  Z.of_nat (length (packedVectorizedBodies p))
    = int_mul (int_mul (numSceneObjects p) kObjectFeatureSize)
              (numScenesTotal p).
Proof.
  intros Hread. unfold magic_ponies_pack.
  rewrite deserialize_Task_run, Hread, bind_ok. cbn [fst snd].
  rewrite addUserInputToScene_run, bind_ok. cbn [fst snd].
  rewrite bind_tell. cbn [fst snd].
  fold (simulation_of task0 user_input keep steps stride).
  set (simulation := simulation_of task0 user_input keep steps stride).
  cbn [task.scene merged_scene scene.width scene.height].
  set (nI := if need_images then _ else 0).
  set (nS := if need_featurized_objects then _ else 0).
  set (S := int_mul (scene.width (task.scene task0))
                    (scene.height (task.scene task0))).
  set (O := getNumObjects simulation).
  destruct (new_array Z (int_mul S nI)) as [imgs| |] eqn:A1;
    try (cbn; discriminate).
  rewrite bind_lift_ok.
  destruct (new_array Z (int_mul (int_mul S nI) O)) as [masks| |] eqn:A2;
    try (cbn; discriminate).
  rewrite bind_lift_ok.
  destruct (if 0 <? nI then _ else _)
    as [t1 [[[[imgs' masks'] a] b]| |]] eqn:St; try (cbn; discriminate).
  apply images_stage_length in St. destruct St as [L1 L2].
  rewrite bind_ok. cbn [fst snd].
  destruct (new_array float (int_mul (int_mul O kObjectFeatureSize) nS))
    as [feats| |] eqn:A3; try (cbn; discriminate).
  rewrite bind_lift_ok.
  destruct (features_stage_run nS O (task.sceneList simulation) feats)
    as [t2 [feats' [wi [F [L3 _]]]]].
  rewrite F, bind_ok. cbn [fst snd ret].
  intros [= _ <-]. cbn.
  apply new_array_length in A1, A2, A3.
  repeat split; congruence.
Qed.

End MagicPoniesFacts.

(** ** Runs that return *)

Section Returns.

Context {float G T : Type} {engine : Engine float G T}.

Lemma int_mul_mul_small (a b c : Z) :
  -2147483648 <= a * b * c <= INT_MAX ->
  int_mul (int_mul a b) c = a * b * c.
Proof.
  intros Hr. unfold int_mul. rewrite int_wrap_mul_l.
  apply int_wrap_small. assumption.
Qed.

Lemma count_loop_le (l : list (scene.Body G)) :
  forall n : Z,
    n <= INT_MAX ->
    fold_left
      (fun numObjects body =>
         if is_defined body then int_add numObjects 1 else numObjects)
      l n <= INT_MAX.
Proof.
  induction l as [|b l IH]; intros n Hn; [exact Hn|].
  cbn [fold_left]. apply IH. destruct (is_defined b); [|exact Hn].
  apply int_wrap_range.
Qed.

Lemma getNumObjects_le (simulation : task.TaskSimulation G) :
  getNumObjects simulation <= INT_MAX.
Proof.
  unfold getNumObjects. destruct (task.sceneList simulation).
  - unfold INT_MAX. lia.
  - apply count_loop_le. unfold INT_MAX. lia.
Qed.

Lemma frames_rendered_masks (s : scene.Scene G)
    (vs : list (scene.Body G)) :
  frames_rendered (flat_map (mask_events s) vs) = [].
Proof.
  induction vs as [|b vs IH]; [reflexivity|].
  cbn [flat_map]. unfold frames_rendered in *.
  rewrite flat_map_app, IH. unfold mask_events.
  destruct (size_matches s b); reflexivity.
Qed.

(** One frame: with masks asked for, a frame that fits gets its masks
    stored in its own run of [numSceneObjects * imageSize] cells. *)
Lemma pack_frame_returns (need_object_masks : bool)
    (imageSize numSceneObjects : Z) (f : scene.Scene G)
    (imgs masks : buffer Z) (iwi si : Z) :
  (need_object_masks = true -> frame_fits imageSize numSceneObjects f) ->
  0 <= imageSize -> 0 <= numSceneObjects <= INT_MAX -> 0 <= si ->
  (si + 1) * numSceneObjects * imageSize <= INT_MAX ->
  (si + 1) * numSceneObjects * imageSize <= Z.of_nat (length masks) ->
  exists tr imgs' masks',
    pack_frame need_object_masks imageSize numSceneObjects f
      (imgs, masks, iwi, si)
    = (tr, Ok (imgs', masks', int_add iwi imageSize, int_add si 1)) /\
    length masks' = length masks /\
    frames_rendered tr = [f].
Proof.
  intros Hfit HS HO Hsi Hmax Hlen.
  unfold pack_frame. rewrite bind_tell.
  destruct need_object_masks.
  - destruct (Hfit eq_refl) as [HfS Hfn].
    assert (Hstart : int_mul (int_mul si numSceneObjects) imageSize
                     = si * numSceneObjects * imageSize).
    { apply int_mul_mul_small. unfold INT_MAX in *. nia. }
    rewrite Hstart.
    pose proof (renderAllObjectMasksTo_run f masks
                  (si * numSceneObjects * imageSize)) as R.
    cbv zeta in R. rewrite HfS in R.
    rewrite R; try nia.
    rewrite bind_ok. cbn [fst snd ret].
    eexists _, _, _. split; [reflexivity|]. split.
    + apply length_blit.
      pose proof (length_flat_map_mask_of f (valid_bodies f)) as L.
      rewrite HfS in L. specialize (L HS). nia.
    + rewrite app_nil_r. cbn [frames_rendered flat_map app].
      f_equal. apply frames_rendered_masks.
  - rewrite bind_ret. cbn [fst snd ret].
    eexists _, _, _. repeat split.
Qed.

Lemma pack_frames_returns (need_object_masks : bool)
    (imageSize numSceneObjects : Z) (frames : list (scene.Scene G)) :
  forall (imgs masks : buffer Z) (iwi si : Z),
    (need_object_masks = true ->
     Forall (frame_fits imageSize numSceneObjects) frames) ->
    0 <= imageSize -> 0 <= numSceneObjects <= INT_MAX -> 0 <= si ->
    si + Z.of_nat (length frames) <= INT_MAX ->
    (si + Z.of_nat (length frames)) * numSceneObjects * imageSize
      <= INT_MAX ->
    (si + Z.of_nat (length frames)) * numSceneObjects * imageSize
      <= Z.of_nat (length masks) ->
    exists tr st',
      pack_frames need_object_masks imageSize numSceneObjects frames
        (imgs, masks, iwi, si) = (tr, Ok st') /\
      frames_rendered tr = frames.
Proof.
  induction frames as [|f frames IH];
    intros imgs masks iwi si Hfit HS HO Hsi Hn Hmax Hlen.
  - eexists _, _. split; reflexivity.
  - cbn [pack_frames]. cbn [length] in *. rewrite Nat2Z.inj_succ in *.
    destruct (pack_frame_returns need_object_masks imageSize
                numSceneObjects f imgs masks iwi si)
      as [tr [imgs' [masks' [E [L R]]]]]; try assumption; try nia.
    { intros Hm. specialize (Hfit Hm). inversion Hfit. assumption. }
    rewrite E, bind_ok. cbn [fst snd].
    assert (Hsi1 : int_add si 1 = si + 1).
    { unfold int_add. apply int_wrap_small. unfold INT_MAX in *. lia. }
    rewrite Hsi1.
    assert (Hfit' : need_object_masks = true ->
                    Forall (frame_fits imageSize numSceneObjects) frames).
    { intros Hm. specialize (Hfit Hm). inversion Hfit. assumption. }
    destruct (IH imgs' masks' (int_add iwi imageSize) (si + 1)
                Hfit' HS HO)
      as [tr' [st' [E' R']]]; [lia | lia | nia | rewrite L; nia |].
    rewrite E'. eexists _, _. split; [reflexivity|].
    cbn [fst]. unfold frames_rendered in *.
    rewrite flat_map_app, R, R'. reflexivity.
Qed.

(** A run returns when the task decodes, the sizes fit an [int] and,
    with images and masks asked for, every frame fits. *)
Lemma magic_ponies_returns (serialized_task : string)
    (user_input : scene.UserInput float) (keep : bool) (steps stride : Z)
    (need_images need_featurized_objects need_object_masks : bool)
    (task0 : task.Task G T) :
  let simulation := simulation_of task0 user_input keep steps stride in
  let frames := task.sceneList simulation in
  let F := Z.of_nat (length frames) in
  let O := getNumObjects simulation in
  let S := int_mul (scene.width (task.scene task0))
                   (scene.height (task.scene task0)) in
  thrift_read_Task serialized_task = Some task0 ->
  0 <= S -> 0 <= O -> F <= INT_MAX ->
  F * S <= INT_MAX -> F * O * S <= INT_MAX ->
  0 <= int_mul (int_mul O kObjectFeatureSize)
         (if need_featurized_objects then F else 0) ->
  (need_images = true -> need_object_masks = true ->
   Forall (frame_fits S O) frames) ->
  exists tr r,
    magic_ponies serialized_task user_input keep steps stride
      need_images need_featurized_objects need_object_masks = (tr, Ok r).
Proof.
  intros simulation frames F O S Hread HS HO HF HFS HFOS Hfeat Hfit.
  assert (HO' : O <= INT_MAX) by apply getNumObjects_le.
  assert (HFi : int_of_size (length frames) = F).
  { unfold int_of_size. apply int_wrap_small. unfold INT_MAX in *. lia. }
  unfold magic_ponies, magic_ponies_pack.
  rewrite deserialize_Task_run, Hread, bind_ok. cbn [fst snd].
  rewrite addUserInputToScene_run, bind_ok. cbn [fst snd].
  rewrite bind_tell. cbn [fst snd].
  fold (simulation_of task0 user_input keep steps stride).
  fold simulation. fold frames.
  cbn [task.scene merged_scene scene.width scene.height].
  fold S. fold O. rewrite HFi.
  set (nI := if need_images then F else 0).
  set (nS := if need_featurized_objects then F else 0) in *.
  assert (HnI : 0 <= nI <= F) by (subst nI; destruct need_images; lia).
  assert (B1 : 0 <= S * nI <= INT_MAX).
  { subst nI. destruct need_images; unfold INT_MAX in *; nia. }
  assert (B2 : 0 <= S * nI * O <= INT_MAX).
  { subst nI. destruct need_images; unfold INT_MAX in *; nia. }
  assert (A1 : int_mul S nI = S * nI).
  { unfold int_mul. apply int_wrap_small. unfold INT_MAX in *. lia. }
  assert (A2 : int_mul (int_mul S nI) O = S * nI * O).
  { apply int_mul_mul_small. unfold INT_MAX in *. lia. }
  rewrite A2, A1.
  rewrite !new_array_ok by lia.
  rewrite !bind_lift_ok.
  match goal with
  | |- context [bind (if 0 <? nI then ?a else ?b) _] =>
      assert (St : exists t1 st1,
                (if 0 <? nI then a else b) = (t1, Ok st1))
  end.
  { destruct (0 <? nI) eqn:E; [|eexists _, _; reflexivity].
    apply Z.ltb_lt in E.
    assert (need_images = true /\ nI = F) as [Hni ->].
    { subst nI. destruct need_images; [split; reflexivity | lia]. }
    destruct (pack_frames_returns need_object_masks S O frames
                (repeat None (Z.to_nat (S * F)))
                (repeat None (Z.to_nat (S * F * O))) 0 0)
      as [t1 [st1 [E1 _]]]; try lia; try nia.
    - intros Hm. apply Hfit; assumption.
    - rewrite repeat_length. nia.
    - eexists _, _. exact E1. }
  destruct St as [t1 [[[[imgs' masks'] a] b] St]].
  rewrite St, bind_ok. cbn [fst snd].
  rewrite bind_lift_ok.
  destruct (features_stage_run nS O frames
              (repeat None
                 (Z.to_nat (int_mul (int_mul O kObjectFeatureSize) nS))))
    as [t2 [feats' [wi [Ft _]]]].
  rewrite Ft, bind_ok. cbn [fst snd].
  eexists _, _. reflexivity.
Qed.

(** Without images the rasterizer of single bodies is never called,
    whatever the outcome. *)
Lemma magic_ponies_pack_no_images (serialized_task : string)
    (user_input : scene.UserInput float) (keep : bool) (steps stride : Z)
    (need_featurized_objects need_object_masks : bool) :
  let run :=
    magic_ponies_pack serialized_task user_input keep steps stride
      false need_featurized_objects need_object_masks in
  filter is_render (fst run) = [] /\
  forall p, snd run = Ok p ->
    numImagesTotal p = 0 /\ packedImages p = [] /\ packedObjectMasks p = [].
Proof.
  cbv zeta. unfold magic_ponies_pack.
  rewrite deserialize_Task_run.
  destruct (thrift_read_Task serialized_task) as [task0|];
    [|split; [reflexivity | discriminate]].
  rewrite bind_ok. cbn [fst snd].
  rewrite addUserInputToScene_run, bind_ok. cbn [fst snd].
  rewrite bind_tell. cbn [fst snd].
  fold (simulation_of task0 user_input keep steps stride).
  set (simulation := simulation_of task0 user_input keep steps stride).
  cbn [task.scene merged_scene scene.width scene.height].
  set (S := int_mul (scene.width (task.scene task0))
                    (scene.height (task.scene task0))).
  set (O := getNumObjects simulation).
  assert (Z1 : int_mul S 0 = 0)
    by (unfold int_mul; rewrite Z.mul_0_r; reflexivity).
  rewrite Z1.
  assert (Z2 : int_mul 0 O = 0) by reflexivity.
  rewrite Z2.
  change (new_array Z 0) with (@Ok (buffer Z) []).
  rewrite !bind_lift_ok.
  change (0 <? 0) with false. cbv iota.
  rewrite bind_ret.
  set (nS := if need_featurized_objects then _ else 0).
  destruct (new_array float (int_mul (int_mul O kObjectFeatureSize) nS))
    as [feats| |]; try (split; [reflexivity | discriminate]).
  rewrite bind_lift_ok.
  destruct (features_stage_run nS O (task.sceneList simulation) feats)
    as [t2 [feats' [wi [Ft [_ Hr]]]]].
  rewrite Ft, bind_ok. cbn [fst snd ret app filter is_render].
  rewrite app_nil_r. split; [exact Hr|].
  intros p [= <-]. repeat split.
Qed.

(** Without masks the loop over the frames always returns, calls
    [renderTo] only and leaves the buffer of the masks alone. *)
Lemma pack_frames_no_masks (imageSize numSceneObjects : Z)
    (frames : list (scene.Scene G)) :
  forall (imgs masks : buffer Z) (iwi si : Z),
    exists tr imgs' iwi' si',
      pack_frames false imageSize numSceneObjects frames
        (imgs, masks, iwi, si) = (tr, Ok (imgs', masks, iwi', si')) /\
      filter is_render tr = [] /\
      frames_rendered tr = frames.
Proof.
  induction frames as [|f frames IH]; intros imgs masks iwi si.
  - exists [], imgs, iwi, si. repeat split.
  - cbn [pack_frames]. unfold pack_frame.
    rewrite bind_tell, bind_ret. cbn [fst snd ret].
    destruct (IH (renderTo f imgs iwi) masks (int_add iwi imageSize)
                 (int_add si 1)) as [tr [imgs' [iwi' [si' [E [R Fr]]]]]].
    rewrite bind_ok, E. cbn [fst snd].
    eexists _, _, _, _. split; [reflexivity|].
    cbn [app filter is_render frames_rendered flat_map].
    split; [exact R|]. f_equal. exact Fr.
Qed.

(** Without masks a run reaches line 242 as soon as the task decodes and
    the three allocations succeed. *)
Lemma magic_ponies_pack_no_masks_returns (serialized_task : string)
    (user_input : scene.UserInput float) (keep : bool) (steps stride : Z)
    (need_images need_featurized_objects : bool)
    (task0 : task.Task G T) :
  let simulation := simulation_of task0 user_input keep steps stride in
  let frames := task.sceneList simulation in
  let O := getNumObjects simulation in
  let S := int_mul (scene.width (task.scene task0))
                   (scene.height (task.scene task0)) in
  let nI := if need_images then int_of_size (length frames) else 0 in
  let nS :=
    if need_featurized_objects then int_of_size (length frames) else 0 in
  thrift_read_Task serialized_task = Some task0 ->
  0 <= int_mul S nI ->
  0 <= int_mul (int_mul S nI) O ->
  0 <= int_mul (int_mul O kObjectFeatureSize) nS ->
  exists tr p,
    magic_ponies_pack serialized_task user_input keep steps stride
      need_images need_featurized_objects false = (tr, Ok p).
Proof.
  intros simulation frames O S nI nS Hread H1 H2 H3.
  unfold magic_ponies_pack.
  rewrite deserialize_Task_run, Hread, bind_ok. cbn [fst snd].
  rewrite addUserInputToScene_run, bind_ok. cbn [fst snd].
  rewrite bind_tell. cbn [fst snd].
  fold (simulation_of task0 user_input keep steps stride).
  fold simulation. fold frames.
  cbn [task.scene merged_scene scene.width scene.height].
  fold S. fold O. fold nI. fold nS.
  rewrite !new_array_ok by assumption.
  rewrite !bind_lift_ok.
  match goal with
  | |- context [bind (if 0 <? nI then ?a else ?b) _] =>
      assert (St : exists t1 st1,
                (if 0 <? nI then a else b) = (t1, Ok st1))
  end.
  { destruct (0 <? nI); [|eexists _, _; reflexivity].
    destruct (pack_frames_no_masks S O frames
                (repeat None (Z.to_nat (int_mul S nI)))
                (repeat None (Z.to_nat (int_mul (int_mul S nI) O))) 0 0)
      as [t1 [imgs' [iwi' [si' [E _]]]]].
    eexists _, _. exact E. }
  destruct St as [t1 [[[[imgs' masks'] a] b] St]].
  rewrite St, bind_ok. cbn [fst snd].
  rewrite bind_lift_ok.
  destruct (features_stage_run nS O frames
              (repeat None
                 (Z.to_nat (int_mul (int_mul O kObjectFeatureSize) nS))))
    as [t2 [feats' [wi [Ft _]]]].
  rewrite Ft, bind_ok. cbn [fst snd].
  eexists _, _. reflexivity.
Qed.

End Returns.

(** * The statements of the specification *)

(** ** The user input builder *)

(** C1.  On [k] complete strides of eight floats the builder returns [k]
    polygons, one per stride and in input order; but each polygon holds two
    vertices, made of the first four floats of its stride, and so is not
    the four-vertex polygon of the stride. *)
Theorem C1_stride_gives_two_vertex_polygon {float : Type}
    (rows : list (Z * Z)) (s : @stride8 float) (ss : list (@stride8 float))
    (ts : list (@stride3 float)) :
  exists ui,
    buildUserInputObject (points_of_rows rows)
      (flat_map flat8 (s :: ss)) (flat_map flat3 ts) = Ok ui /\
    length (scene.polygons ui) = length (s :: ss) /\
    scene.polygons ui = map pushed_polygon (s :: ss) /\
    Forall (fun p => length (scene.vertices p) = 2%nat) (scene.polygons ui) /\
    scene.polygons ui <> map four_vertex_polygon (s :: ss).
Proof.
  eexists. split.
  - apply buildUserInputObject_strides; reflexivity.
  - cbn [scene.polygons]. repeat split.
    + apply length_map.
    + apply Forall_forall. intros p Hp. apply in_map_iff in Hp.
      destruct Hp as [q [<- _]].
      destruct q as [[[[[[[a b] c] d] e] f] g] h]. reflexivity.
    + destruct s as [[[[[[[a b] c] d] e] f] g] h]. cbn [map].
      intros E. injection E as E _. discriminate E.
Qed.

(** C2.  A trailing partial stride is not dropped.  When the length of
    the circle input is not a multiple of 3, the circle loop reads after
    the end of the input, so the builder has no defined result, whatever
    the rectangle input is.  When the length of the rectangle input is not
    a multiple of 8 (the circle input being complete), the polygon loop
    reads after the end of the input or the builder returns one polygon
    more than the number of complete strides: never the polygons of the
    complete strides alone. *)
Theorem C2_partial_stride_is_not_dropped {float : Type}
    (rows : list (Z * Z)) (rects balls : list float)
    (ts : list (@stride3 float)) :
  ((length balls mod 3 <> 0)%nat ->
   buildUserInputObject (points_of_rows rows) rects balls = Undefined) /\
  ((length rects mod 8 <> 0)%nat ->
   buildUserInputObject (points_of_rows rows) rects (flat_map flat3 ts)
   = Undefined \/
   exists ui,
     buildUserInputObject (points_of_rows rows) rects (flat_map flat3 ts)
     = Ok ui /\
     length (scene.polygons ui) = S (length rects / 8)).
Proof.
  unfold buildUserInputObject. cbn [ndim shape_at points_of_rows shape
    length nth Nat.eqb negb]. split.
  - intros Hmod. rewrite (balls_loop_partial balls Hmod).
    destruct (polygons_loop rects 0 []) as [polys|e|] eqn:E;
      try reflexivity.
    exfalso. exact (polygons_loop_no_throw rects _ 0%nat [] e (le_n _) E).
  - intros Hmod. rewrite balls_loop_complete.
    destruct (polygons_loop_partial rects Hmod) as [->|[polys [-> Hlen]]].
    + left. reflexivity.
    + right. eexists. split; [reflexivity|]. exact Hlen.
Qed.

Lemma C2_partial_stride_is_not_dropped_witness :
  buildUserInputObject (float := Z) (points_of_rows []) [1; 2; 3; 4; 5] [6]
  = Undefined /\
  exists ui,
    buildUserInputObject (float := Z) (points_of_rows []) [1; 2; 3; 4; 5] []
    = Ok ui /\
    length (scene.polygons ui) = 1%nat.
Proof.
  pose proof (C2_partial_stride_is_not_dropped (float := Z)
                [] [1; 2; 3; 4; 5] [6] []) as [Hballs _].
  pose proof (C2_partial_stride_is_not_dropped (float := Z)
                [] [1; 2; 3; 4; 5] [] []) as [_ Hrects].
  split.
  - apply Hballs. cbn. discriminate.
  - destruct Hrects as [Hu | Hok].
    + cbn. discriminate.
    + discriminate Hu.
    + exact Hok.
Defined.

(** C9.  For an [N x 2] matrix, the flattened point list that the builder
    returns has [2 N] elements: the element [2 i] is [points(i, 0)] and the
    element [2 i + 1] is [points(i, 1)], for every row [i]. *)
Theorem C9_flattened_point_list {float : Type} (points : array_int32)
    (N : nat) (rectangulars_vertices_flatten balls_flatten : list float)
    (ui : scene.UserInput float) :
  shape points = [N; 2%nat] ->
  buildUserInputObject points rectangulars_vertices_flatten balls_flatten
  = Ok ui ->
  length (scene.flattened_point_list ui) = (2 * N)%nat /\
  forall i, (i < N)%nat ->
    nth_error (scene.flattened_point_list ui) (2 * i)
    = Some (unchecked2 points i 0%nat) /\
    nth_error (scene.flattened_point_list ui) (2 * i + 1)
    = Some (unchecked2 points i 1%nat).
Proof.
  intros Hshape. unfold buildUserInputObject, ndim, shape_at.
  rewrite Hshape. cbn [length nth Nat.eqb negb].
  destruct (polygons_loop _ _ _) as [polys| |]; cbn [res_bind];
    try discriminate.
  destruct (balls_loop _ _ _) as [circles| |]; cbn [res_bind];
    try discriminate.
  intros [= <-]. cbn [scene.flattened_point_list].
  unfold flatten_points, shape_at. rewrite Hshape. cbn [nth]. split.
  - apply length_flatten_points.
  - intros i Hi.
    exact (flatten_points_from (unchecked2 points) N 0 i Hi).
Qed.

Lemma C9_flattened_point_list_witness :
  shape (points_of_rows [(1, 2); (3, 4)]) = [2%nat; 2%nat] /\
  buildUserInputObject (points_of_rows [(1, 2); (3, 4)]) [] []
  = Ok (scene.Build_UserInput (float := Z) [1; 2; 3; 4] [] []) /\
  length [1; 2; 3; 4] = 4%nat.
Proof.
  split; [reflexivity|]. split; [reflexivity|].
  exact (proj1 (C9_flattened_point_list
                  (points_of_rows [(1, 2); (3, 4)]) 2 [] []
                  (scene.Build_UserInput (float := Z) [1; 2; 3; 4] [] [])
                  eq_refl eq_refl)).
Defined.

(** ** The functions on scenes *)

Section SceneProperties.

Context {float G T : Type} {engine : Engine float G T}.

Local Abbreviation image_size s :=
  (int_mul (scene.width s) (scene.height s)).

(** C8.  When [points] is not of rank 2 with a second dimension of 2, the
    builder throws a runtime error, whatever the two float sequences are;
    [check_for_occlusions] and the entry point [magic_ponies] throw the
    same error with no call made: nothing is decoded, merged or
    simulated. *)
Theorem C8_shape_validation_first (points : array_int32) :
  ~ (ndim points = 2%nat /\ shape_at points 1 = 2%nat) ->
  exists msg,
    forall (rects balls : list float),
      buildUserInputObject points rects balls = Throw (runtime_error msg) /\
      (forall serialized_task keep,
         check_for_occlusions serialized_task points rects balls keep
         = ([], Throw (runtime_error msg))) /\
      (forall serialized_task keep steps stride
              need_images need_featurized_objects need_object_masks,
         magic_ponies_binding serialized_task points rects balls keep
           steps stride need_images need_featurized_objects
           need_object_masks
         = ([], Throw (runtime_error msg))).
Proof.
  intros Hshape.
  unfold check_for_occlusions, magic_ponies_binding, buildUserInputObject.
  destruct (Nat.eqb (ndim points) 2) eqn:Ed.
  - destruct (Nat.eqb (shape_at points 1) 2) eqn:Es.
    + exfalso. apply Hshape. split; apply Nat.eqb_eq; assumption.
    + eexists. intros rects balls. cbn [negb].
      split; [reflexivity|]. split; reflexivity.
  - eexists. intros rects balls. cbn [negb].
    split; [reflexivity|]. split; reflexivity.
Qed.

(** C6.  [addUserInputToScene] calls the merge once; the status of the
    scene becomes [NO_OCCLUSIONS] exactly when the merge reports a clean
    placement and [HAD_OCCLUSIONS] exactly when it does not; the
    user-input bodies of the scene become the bodies that the merge
    returns, whatever they were; the rest of the scene is kept. *)
Theorem C6_merge_sets_status_and_bodies
    (user_input : scene.UserInput float)
    (keep_space_around_bodies allow_occlusions : bool)
    (s : scene.Scene G) :
  let merged :=
    mergeUserInputIntoScene user_input (scene.bodies s)
      keep_space_around_bodies allow_occlusions
      (scene.height s) (scene.width s) in
  exists s',
    addUserInputToScene user_input keep_space_around_bodies
      allow_occlusions s
    = ([EvMerge keep_space_around_bodies allow_occlusions], Ok s') /\
    (scene.user_input_status s' = Some scene.NO_OCCLUSIONS
     <-> fst merged = true) /\
    (scene.user_input_status s' = Some scene.HAD_OCCLUSIONS
     <-> fst merged = false) /\
    scene.user_input_bodies s' = snd merged /\
    scene.bodies s' = scene.bodies s /\
    scene.width s' = scene.width s /\
    scene.height s' = scene.height s.
Proof.
  cbv zeta. eexists. split; [apply addUserInputToScene_run|].
  unfold merged_scene. cbn.
  destruct (fst (mergeUserInputIntoScene _ _ _ _ _ _)).
  - repeat split; intros; try reflexivity; discriminate.
  - repeat split; intros; try reflexivity; discriminate.
Qed.

(** C4.  The count of a scene is the number of bodies of [bodies] whose
    shape type is not [UNDEFINED] plus the number of such bodies of
    [user_input_bodies], as long as that number fits an [int]; the count
    of a simulation is 0 without frames and the count of the first frame
    otherwise. *)
Theorem C4_countObjects (s : scene.Scene G)
    (simulation : task.TaskSimulation G) :
  Z.of_nat (length (filter is_defined (scene.bodies s))
            + length (filter is_defined (scene.user_input_bodies s)))
  <= INT_MAX ->
  getNumObjectsInScene s
  = Z.of_nat (length (filter is_defined (scene.bodies s))
              + length (filter is_defined (scene.user_input_bodies s))) /\
  (task.sceneList simulation = [] -> getNumObjects simulation = 0) /\
  (forall frame0 rest,
     task.sceneList simulation = frame0 :: rest ->
     getNumObjects simulation = getNumObjectsInScene frame0).
Proof.
  intros Hmax. split; [|split].
  - rewrite <- length_app, <- filter_app in *.
    apply getNumObjectsInScene_count. assumption.
  - unfold getNumObjects. intros ->. reflexivity.
  - unfold getNumObjects. intros frame0 rest ->. reflexivity.
Qed.

(** C5.  [renderAllObjectMasksTo] calls the rasterizer once per body
    whose shape type is not [UNDEFINED], those of [bodies] first and then
    those of [user_input_bodies], in list order, each time on a scene of
    the same width and height that holds this body alone; and when the
    rasterization of the [i]-th such body has [imageSize] values, these
    values, as bytes, are the [imageSize] cells of the buffer from
    [bufferStart + i * imageSize] on. *)
Theorem C5_masks_in_body_order (s : scene.Scene G) (buf : buffer Z)
    (bufferStart : Z) :
  let n := Z.of_nat (length (valid_bodies s)) in
  0 <= image_size s ->
  n <= INT_MAX -> n * image_size s <= INT_MAX ->
  0 <= bufferStart ->
  bufferStart + n * image_size s <= Z.of_nat (length buf) ->
  valid_bodies s
  = filter is_defined (scene.bodies s)
      ++ filter is_defined (scene.user_input_bodies s) /\
  exists tr buf',
    renderAllObjectMasksTo s buf bufferStart = (tr, Ok buf') /\
    filter is_render tr
    = map (fun body => EvRender (singleObjectScene s body))
          (valid_bodies s) /\
    forall i body,
      nth_error (valid_bodies s) i = Some body ->
      scene.width (singleObjectScene s body) = scene.width s /\
      scene.height (singleObjectScene s body) = scene.height s /\
      scene.bodies (singleObjectScene s body) = [body] /\
      scene.user_input_bodies (singleObjectScene s body) = [] /\
      (Z.of_nat (length (rasterization s body)) = image_size s ->
       slice buf' (Z.to_nat (bufferStart + Z.of_nat i * image_size s))
             (Z.to_nat (image_size s))
       = map Some (map uint8_of (rasterization s body))).
Proof.
  intros n HS Hn HnS Hb Hlen. split; [apply filter_app|].
  eexists _, _. split; [apply renderAllObjectMasksTo_run; assumption|].
  split; [apply render_events|].
  intros i body Hi. repeat split.
  intros Hsize.
  rewrite (slice_mask s buf bufferStart (valid_bodies s) i body)
    by assumption.
  unfold mask_of, size_matches. rewrite Hsize, Z.eqb_refl. reflexivity.
Qed.

(** C7.  When the rasterization of a valid body has another size than
    [imageSize], [renderAllObjectMasksTo] fills the [imageSize] cells of
    this body with zeros and writes a warning; it still returns, after
    having rasterized every valid body; the cells of the bodies whose
    rasterization has the right size hold that rasterization, and the
    cells before and after the masks are as they were.  The loop over
    the frames, likewise, goes through every frame and returns, whatever
    the sizes of the rasterizations. *)
Theorem C7_size_mismatch_is_zero_filled (s : scene.Scene G)
    (buf : buffer Z) (bufferStart : Z) :
  let n := Z.of_nat (length (valid_bodies s)) in
  0 <= image_size s ->
  n <= INT_MAX -> n * image_size s <= INT_MAX ->
  0 <= bufferStart ->
  bufferStart + n * image_size s <= Z.of_nat (length buf) ->
  (exists tr buf',
     renderAllObjectMasksTo s buf bufferStart = (tr, Ok buf') /\
     length buf' = length buf /\
     filter is_render tr
     = map (fun body => EvRender (singleObjectScene s body))
           (valid_bodies s) /\
     firstn (Z.to_nat bufferStart) buf'
     = firstn (Z.to_nat bufferStart) buf /\
     skipn (Z.to_nat (bufferStart + n * image_size s)) buf'
     = skipn (Z.to_nat (bufferStart + n * image_size s)) buf /\
     forall i body,
       nth_error (valid_bodies s) i = Some body ->
       (Z.of_nat (length (rasterization s body)) <> image_size s ->
        slice buf' (Z.to_nat (bufferStart + Z.of_nat i * image_size s))
              (Z.to_nat (image_size s))
        = repeat (Some 0) (Z.to_nat (image_size s)) /\
        In (EvWarning (image_size s) (length (rasterization s body))) tr) /\
       (Z.of_nat (length (rasterization s body)) = image_size s ->
        slice buf' (Z.to_nat (bufferStart + Z.of_nat i * image_size s))
              (Z.to_nat (image_size s))
        = map Some (map uint8_of (rasterization s body)))) /\
  (forall (imageSize numSceneObjects : Z) (frames : list (scene.Scene G))
          (imgs masks : buffer Z),
     Forall (frame_fits imageSize numSceneObjects) frames ->
     0 <= imageSize -> 0 <= numSceneObjects <= INT_MAX ->
     Z.of_nat (length frames) <= INT_MAX ->
     Z.of_nat (length frames) * numSceneObjects * imageSize <= INT_MAX ->
     Z.of_nat (length frames) * numSceneObjects * imageSize
       <= Z.of_nat (length masks) ->
     exists tr st',
       pack_frames true imageSize numSceneObjects frames
         (imgs, masks, 0, 0) = (tr, Ok st') /\
       frames_rendered tr = frames).
Proof.
  intros n HS Hn HnS Hb Hlen. split.
  - assert (L := length_flat_map_mask_of s (valid_bodies s) HS).
    eexists _, _. split; [apply renderAllObjectMasksTo_run; assumption|].
    split; [apply length_blit; fold n in L; nia|].
    split; [apply render_events|].
    split; [apply firstn_blit; lia|].
    split.
    { replace (Z.to_nat (bufferStart + n * image_size s))
        with (Z.to_nat bufferStart
              + length (flat_map (mask_of s) (valid_bodies s)))%nat
        by (fold n in L; nia).
      apply skipn_blit. fold n in L. nia. }
    intros i body Hi.
    rewrite (slice_mask s buf bufferStart (valid_bodies s) i body)
      by assumption.
    split; intros Hsize.
    + assert (Hm : size_matches s body = false).
      { unfold size_matches. apply Z.eqb_neq. assumption. }
      split.
      * unfold mask_of. rewrite Hm. apply map_repeat.
      * apply warning_event; [|assumption].
        eapply nth_error_In. eassumption.
    + unfold mask_of, size_matches. rewrite Hsize, Z.eqb_refl.
      reflexivity.
  - intros imageSize numSceneObjects frames imgs masks
      Hfit HS' HO HF HFOS HFlen.
    apply pack_frames_returns; try assumption; try lia.
    intros _. assumption.
Qed.

End SceneProperties.

Section PackProperties.

Context {float G T : Type} {engine : Engine float G T}.

(** The sizes when they fit.  In a run with [need_images] that returns,
    with [F] frames, [O] objects and an image size of [S], and with
    [F * S] and [F * O * S] fitting an [int]: the images array has [F * S]
    elements over a buffer of [F * S] bytes; the buffer of the object
    masks has [F * O * S] bytes, whatever [need_object_masks] is; and with
    [need_object_masks] the masks array has [F * O * S] elements over
    that buffer. *)
Theorem sizes_of_packed_buffers_in_range (serialized_task : string)
    (user_input : scene.UserInput float) (keep_space_around_bodies : bool)
    (steps stride : Z) (need_featurized_objects need_object_masks : bool)
    (task0 : task.Task G T) (tr : list (event G)) (r : Result) :
  let simulation :=
    simulation_of task0 user_input keep_space_around_bodies steps stride in
  let F := Z.of_nat (length (task.sceneList simulation)) in
  let O := getNumObjects simulation in
  let S := int_mul (scene.width (task.scene task0))
                   (scene.height (task.scene task0)) in
  thrift_read_Task serialized_task = Some task0 ->
  0 <= S -> 0 <= O -> F <= INT_MAX ->
  F * S <= INT_MAX -> F * O * S <= INT_MAX ->
  magic_ponies serialized_task user_input keep_space_around_bodies
    steps stride true need_featurized_objects need_object_masks
  = (tr, Ok r) ->
  exists p,
    magic_ponies_pack serialized_task user_input keep_space_around_bodies
      steps stride true need_featurized_objects need_object_masks
    = (tr, Ok p) /\
    r = magic_ponies_arrays need_object_masks p /\
    r_numSceneObjects r = O /\
    arr_shape (r_packedImagesArray r) = F * S /\
    Z.of_nat (length (arr_data (r_packedImagesArray r))) = F * S /\
    Z.of_nat (length (packedObjectMasks p)) = F * O * S /\
    (need_object_masks = true ->
     arr_shape (r_packedObjectMasksArray r) = F * O * S /\
     arr_data (r_packedObjectMasksArray r) = packedObjectMasks p).
Proof.
  intros simulation F O S Hread HS HO HF HFS HFOS Hrun.
  unfold magic_ponies in Hrun. apply bind_inv_ok in Hrun.
  destruct Hrun as [t1 [p [t2 [Hpack [Hret ->]]]]].
  injection Hret as <- <-. rewrite app_nil_r.
  exists p. split; [assumption|]. split; [reflexivity|].
  destruct (magic_ponies_pack_inv _ _ _ _ _ _ _ _ task0 t1 p Hread Hpack)
    as [_ [_ [HnI [_ [HiS [HnO [Li [Lm _]]]]]]]].
  fold simulation in HnI, HnO. fold S in HiS. fold O in HnO.
  assert (HFi : int_of_size (length (task.sceneList simulation)) = F).
  { unfold int_of_size. apply int_wrap_small. unfold INT_MAX in *. lia. }
  rewrite HFi in HnI.
  rewrite HiS, HnI in Li. rewrite HiS, HnI, HnO in Lm.
  unfold magic_ponies_arrays.
  cbn [r_numSceneObjects r_packedImagesArray r_packedObjectMasksArray
       arr_shape arr_data].
  rewrite HiS, HnI, HnO.
  assert (A1 : int_mul F S = F * S).
  { unfold int_mul. apply int_wrap_small. unfold INT_MAX in *. nia. }
  assert (A2 : int_mul S F = F * S).
  { unfold int_mul. rewrite Z.mul_comm. apply int_wrap_small.
    unfold INT_MAX in *. nia. }
  assert (A3 : int_mul (int_mul S F) O = F * O * S).
  { rewrite int_mul_mul_small; unfold INT_MAX in *; nia. }
  assert (A4 : int_mul (int_mul F O) S = F * O * S).
  { apply int_mul_mul_small. unfold INT_MAX in *. nia. }
  rewrite A2 in Li. rewrite A3 in Lm.
  split; [reflexivity|]. split; [exact A1|]. split; [exact Li|].
  split; [exact Lm|].
  intros ->. cbn [arr_shape arr_data]. split; [exact A4 | reflexivity].
Qed.

(** C10.  In a run without [need_images] the rasterizer of single
    bodies is never called, whatever the outcome and whatever
    [need_object_masks] is, and the masks array that the run returns has
    no element. *)
Theorem C10_no_masks_without_images (serialized_task : string)
    (user_input : scene.UserInput float) (keep_space_around_bodies : bool)
    (steps stride : Z) (need_featurized_objects need_object_masks : bool) :
  let run :=
    magic_ponies serialized_task user_input keep_space_around_bodies
      steps stride false need_featurized_objects need_object_masks in
  filter is_render (fst run) = [] /\
  forall r, snd run = Ok r ->
    arr_shape (r_packedObjectMasksArray r) = 0 /\
    arr_data (r_packedObjectMasksArray r) = [].
Proof.
  cbv zeta. unfold magic_ponies.
  destruct (magic_ponies_pack_no_images serialized_task user_input
              keep_space_around_bodies steps stride
              need_featurized_objects need_object_masks) as [Htr Hp].
  cbv zeta in Htr, Hp.
  destruct (magic_ponies_pack _ _ _ _ _ false _ _) as [t [p| |]];
    cbn [fst snd] in *.
  - rewrite bind_ok. cbn [fst snd ret]. rewrite app_nil_r.
    split; [assumption|]. intros r [= <-].
    destruct (Hp p eq_refl) as [HnI [_ Hm]].
    unfold magic_ponies_arrays. cbn [r_packedObjectMasksArray].
    destruct need_object_masks; cbn [arr_shape arr_data].
    + rewrite HnI, Hm. split; reflexivity.
    + split; reflexivity.
  - cbn. split; [assumption | discriminate].
  - cbn. split; [assumption | discriminate].
Qed.

(** C3.  The sizes are products of [int]s, and the product for the
    object masks is not checked.  In a run with [need_images] and without
    [need_object_masks], with [F] frames, [O] objects and an image size of
    [S], [F * S] fitting an [int]: when the [int] that [F * O * S] wraps
    to is not negative the run returns; its images buffer has [F * S]
    bytes; the buffer of the object masks is allocated with that wrapped
    value as its number of bytes.  So when [F * O * S] does not fit an
    [int], the buffer of the object masks does not have [F * O * S]
    bytes. *)
Theorem C3_mask_buffer_size_wraps (serialized_task : string)
    (user_input : scene.UserInput float) (keep_space_around_bodies : bool)
    (steps stride : Z) (need_featurized_objects : bool)
    (task0 : task.Task G T) :
  let simulation :=
    simulation_of task0 user_input keep_space_around_bodies steps stride in
  let F := Z.of_nat (length (task.sceneList simulation)) in
  let O := getNumObjects simulation in
  let S := int_mul (scene.width (task.scene task0))
                   (scene.height (task.scene task0)) in
  thrift_read_Task serialized_task = Some task0 ->
  0 <= S -> F <= INT_MAX -> F * S <= INT_MAX ->
  0 <= int_wrap (F * O * S) ->
  0 <= int_mul (int_mul O kObjectFeatureSize)
         (if need_featurized_objects then F else 0) ->
  exists tr p,
    magic_ponies_pack serialized_task user_input keep_space_around_bodies
      steps stride true need_featurized_objects false = (tr, Ok p) /\
    magic_ponies serialized_task user_input keep_space_around_bodies
      steps stride true need_featurized_objects false
    = (tr, Ok (magic_ponies_arrays false p)) /\
    Z.of_nat (length (packedImages p)) = F * S /\
    Z.of_nat (length (packedObjectMasks p)) = int_wrap (F * O * S) /\
    (INT_MAX < F * O * S ->
     Z.of_nat (length (packedObjectMasks p)) <> F * O * S).
Proof.
  intros simulation F O S Hread HS HF HFS HW Hfeat.
  assert (HFi : int_of_size (length (task.sceneList simulation)) = F).
  { unfold int_of_size. apply int_wrap_small. unfold INT_MAX in *. lia. }
  assert (A1 : int_mul S F = F * S).
  { unfold int_mul. rewrite Z.mul_comm. apply int_wrap_small.
    unfold INT_MAX in *. nia. }
  assert (A2 : int_mul (int_mul S F) O = int_wrap (F * O * S)).
  { unfold int_mul. rewrite int_wrap_mul_l. f_equal. ring. }
  destruct (magic_ponies_pack_no_masks_returns serialized_task user_input
              keep_space_around_bodies steps stride true
              need_featurized_objects task0 Hread)
    as [tr [p Hpack]].
  - change (0 <= int_mul S
                   (int_of_size (length (task.sceneList simulation)))).
    rewrite HFi, A1. nia.
  - change (0 <= int_mul
                   (int_mul S
                      (int_of_size (length (task.sceneList simulation))))
                   O).
    rewrite HFi, A2. exact HW.
  - change (0 <= int_mul (int_mul O kObjectFeatureSize)
                   (if need_featurized_objects
                    then int_of_size (length (task.sceneList simulation))
                    else 0)).
    rewrite HFi. exact Hfeat.
  - destruct (magic_ponies_pack_inv _ _ _ _ _ _ _ _ task0 tr p Hread Hpack)
      as [_ [_ [HnI [_ [HiS [HnO [Li [Lm _]]]]]]]].
    fold simulation in HnI, HnO. fold S in HiS. fold O in HnO.
    rewrite HFi in HnI.
    rewrite HiS, HnI, A1 in Li. rewrite HiS, HnI, HnO, A2 in Lm.
    exists tr, p. split; [exact Hpack|]. split.
    { unfold magic_ponies. rewrite Hpack, bind_ok. cbn [fst snd ret].
      rewrite app_nil_r. reflexivity. }
    split; [exact Li|]. split; [exact Lm|].
    intros Hbig. rewrite Lm.
    pose proof (int_wrap_range (F * O * S)) as HR.
    unfold INT_MAX in *. lia.
Qed.

End PackProperties.

(** ** The statements on the small engine *)

Lemma C8_shape_validation_first_witness :
  exists msg,
    check_for_occlusions (engine := Toy.toy_engine) "task"
      {| shape := [3%nat]; unchecked2 := fun _ _ => 0 |} [1] [2] true
    = ([], Throw (runtime_error msg)).
Proof.
  destruct (C8_shape_validation_first (engine := Toy.toy_engine)
              {| shape := [3%nat]; unchecked2 := fun _ _ => 0 |})
    as [msg Hmsg].
  - intros [Hd _]. discriminate Hd.
  - exists msg. exact (proj1 (proj2 (Hmsg [1] [2])) "task"%string true).
Defined.

Lemma C4_countObjects_witness :
  getNumObjectsInScene Toy.toy_scene = 3 /\
  getNumObjects (Toy.toy_simulate (task.Build_Task Toy.toy_scene tt) 0 1) = 0.
Proof.
  pose proof (C4_countObjects Toy.toy_scene
                (Toy.toy_simulate (task.Build_Task Toy.toy_scene tt) 0 1))
    as C.
  split.
  - apply C. vm_compute. discriminate.
  - apply C; [vm_compute; discriminate | reflexivity].
Defined.

Lemma C5_masks_in_body_order_witness :
  exists tr buf',
    renderAllObjectMasksTo (engine := Toy.toy_engine)
      Toy.toy_scene (repeat None 13) 1 = (tr, Ok buf') /\
    slice buf' 1 4 = [Some 5; Some 5; Some 5; Some 5] /\
    slice buf' 9 4 = [Some 8; Some 8; Some 8; Some 8].
Proof.
  destruct (C5_masks_in_body_order (engine := Toy.toy_engine)
              Toy.toy_scene (repeat None 13) 1)
    as [_ [tr [buf' [Hrun [_ Hslices]]]]];
    try (vm_compute; discriminate).
  exists tr, buf'. split; [exact Hrun|]. split.
  - exact (proj2 (proj2 (proj2 (proj2
             (Hslices 0%nat (scene.Build_Body (scene.Shape 1) 5) eq_refl))))
             eq_refl).
  - exact (proj2 (proj2 (proj2 (proj2
             (Hslices 2%nat (scene.Build_Body (scene.Shape 1) 8) eq_refl))))
             eq_refl).
Defined.

Lemma C7_size_mismatch_is_zero_filled_witness :
  exists tr buf',
    renderAllObjectMasksTo (engine := Toy.toy_engine)
      Toy.toy_scene (repeat None 13) 1 = (tr, Ok buf') /\
    slice buf' 5 4 = [Some 0; Some 0; Some 0; Some 0] /\
    In (EvWarning 4 1) tr.
Proof.
  destruct (C7_size_mismatch_is_zero_filled (engine := Toy.toy_engine)
              Toy.toy_scene (repeat None 13) 1)
    as [[tr [buf' [Hrun [_ [_ [_ [_ Hslices]]]]]]] _];
    try (vm_compute; discriminate).
  exists tr, buf'. split; [exact Hrun|].
  apply (proj1 (Hslices 1%nat (scene.Build_Body (scene.Shape 2) (-1))
                  eq_refl)).
  vm_compute. discriminate.
Defined.

Lemma sizes_of_packed_buffers_in_range_witness :
  exists tr r,
    magic_ponies (engine := Toy.toy_engine)
      "task" Toy.toy_input true 2 1 true true true = (tr, Ok r) /\
    arr_shape (r_packedImagesArray r) = 8 /\
    arr_shape (r_packedObjectMasksArray r) = 24 /\
    length (arr_data (r_packedObjectMasksArray r)) = 24%nat.
Proof.
  destruct (magic_ponies (engine := Toy.toy_engine)
              "task" Toy.toy_input true 2 1 true true true)
    as [tr [r| |]] eqn:Hrun; try (vm_compute in Hrun; discriminate).
  exists tr, r. split; [reflexivity|].
  destruct (sizes_of_packed_buffers_in_range (engine := Toy.toy_engine)
              "task" Toy.toy_input true 2 1 true true
              (task.Build_Task Toy.toy_scene tt) tr r)
    as [p [_ [_ [_ [Hi [_ [Hm Hmasks]]]]]]];
    try (vm_compute; discriminate); try reflexivity.
  - exact Hrun.
  - destruct (Hmasks eq_refl) as [Hs Hd].
    split; [exact Hi|]. split; [exact Hs|].
    rewrite Hd. apply Nat2Z.inj. exact Hm.
Defined.

Lemma C3_mask_buffer_size_wraps_witness :
  exists tr p,
    magic_ponies_pack (engine := ToyLarge.large_engine)
      "large" ToyLarge.large_input true 1000 1 true false false
    = (tr, Ok p) /\
    Z.of_nat (length (packedImages p)) = 1000 * 65536 /\
    Z.of_nat (length (packedObjectMasks p)) = 30408704 /\
    Z.of_nat (length (packedObjectMasks p)) <> 1000 * 66 * 65536.
Proof.
  destruct (C3_mask_buffer_size_wraps (engine := ToyLarge.large_engine)
              "large" ToyLarge.large_input true 1000 1 false
              (task.Build_Task ToyLarge.large_scene tt))
    as [tr [p [Hpack [_ [Hi [Hm _]]]]]].
  - reflexivity.
  - vm_compute. discriminate.
  - vm_compute. discriminate.
  - vm_compute. discriminate.
  - vm_compute. discriminate.
  - vm_compute. discriminate.
  - exists tr, p. split; [exact Hpack|].
    rewrite Hm, Hi. split; [|split]; vm_compute.
    + reflexivity.
    + reflexivity.
    + discriminate.
Defined.

Lemma C10_no_masks_without_images_witness :
  filter is_render
    (fst (magic_ponies (engine := Toy.toy_engine)
            "task" Toy.toy_input true 2 1 false true true)) = [] /\
  exists r,
    snd (magic_ponies (engine := Toy.toy_engine)
           "task" Toy.toy_input true 2 1 false true true) = Ok r /\
    arr_shape (r_packedObjectMasksArray r) = 0.
Proof.
  pose proof (C10_no_masks_without_images (engine := Toy.toy_engine)
                "task" Toy.toy_input true 2 1 true true) as [Htr Hr].
  split; [exact Htr|].
  destruct (snd (magic_ponies (engine := Toy.toy_engine)
                   "task" Toy.toy_input true 2 1 false true true))
    as [r| |] eqn:Hrun; try (vm_compute in Hrun; discriminate).
  exists r. split; [reflexivity|]. exact (proj1 (Hr r eq_refl)).
Defined.

(** * Further properties of the code *)

(** ** The user input builder *)

Section BuilderReturns.

Context {float : Type}.

Lemma balls_loop_no_throw (v : list float) (n : nat) :
  forall i acc e,
    (length v - i <= n)%nat -> balls_loop v i acc <> Throw e.
Proof.
  induction n as [|n IH]; intros i acc e Hn.
  - rewrite balls_loop_end by lia. discriminate.
  - rewrite balls_loop_eq.
    destruct (lt_dec i (length v)); [|discriminate].
    unfold vec_at.
    destruct (nth_error v i); cbn [res_bind]; [|discriminate].
    destruct (nth_error v (i + 1)); cbn [res_bind]; [|discriminate].
    destruct (nth_error v (i + 2)); cbn [res_bind]; [|discriminate].
    apply IH. lia.
Qed.

(** A circle loop that returns has consumed complete strides only. *)
Lemma balls_loop_returns (v : list float) circles :
  balls_loop v 0 [] = Ok circles ->
  (length v mod 3 = 0)%nat /\ length circles = (length v / 3)%nat.
Proof.
  intros Hok.
  destruct (Nat.eq_dec (length v mod 3) 0) as [Hmod|Hmod].
  2:{ rewrite (balls_loop_partial v Hmod) in Hok. discriminate. }
  split; [assumption|].
  destruct (strides3_of_length (length v / 3) v) as [ts [Hk ->]].
  { apply Nat.Div0.div_exact. assumption. }
  rewrite balls_loop_complete in Hok. injection Hok as <-.
  rewrite length_map. assumption.
Qed.

Lemma started_strides (q r : nat) :
  (r < 8)%nat ->
  ((r + q * 8 + 7) / 8)%nat = (q + match r with O => 0 | _ => 1 end)%nat.
Proof.
  intros Hr.
  replace (r + q * 8 + 7)%nat with (r + 7 + q * 8)%nat by lia.
  rewrite Nat.div_add by lia.
  do 8 (destruct r as [|r]; [cbn; lia|]). lia.
Qed.

(** A polygon loop that returns has made one polygon per started
    stride, and the last stride has four floats at least. *)
Lemma polygons_loop_returns (v : list float) polys :
  polygons_loop v 0 [] = Ok polys ->
  ((length v mod 8 = 0)%nat \/ (4 <= length v mod 8)%nat) /\
  length polys = ((length v + 7) / 8)%nat.
Proof.
  intros Hok.
  destruct (strides8_split (length v) v (le_n _))
    as [ss [tl [-> [Htl Hlen]]]].
  assert (Hmod : (length (flat_map flat8 ss ++ tl) mod 8)%nat = length tl).
  { rewrite Hlen, Nat.Div0.mod_add, Nat.mod_small by assumption.
    reflexivity. }
  rewrite Hmod, Hlen, started_strides by assumption.
  destruct tl as [|a [|b [|c [|d tl]]]].
  - rewrite app_nil_r, polygons_loop_complete in Hok. injection Hok as <-.
    rewrite length_map. cbn [length]. split; [left; reflexivity | lia].
  - rewrite polygons_loop_tail_short in Hok;
      [discriminate | discriminate | cbn; lia].
  - rewrite polygons_loop_tail_short in Hok;
      [discriminate | discriminate | cbn; lia].
  - rewrite polygons_loop_tail_short in Hok;
      [discriminate | discriminate | cbn; lia].
  - cbn [length] in Htl.
    rewrite polygons_loop_tail_long in Hok by lia. injection Hok as <-.
    rewrite length_app, length_map. cbn [length].
    split; [right; lia | lia].
Qed.

End BuilderReturns.

(** X1.  On complete strides the builder returns one circle per stride of
    three floats, in input order: the position of the [i]-th circle is the
    first two floats of the [i]-th stride and its radius is the third. *)
Theorem X1_circle_per_stride {float : Type} (rows : list (Z * Z))
    (ss : list (@stride8 float)) (ts : list (@stride3 float)) :
  exists ui,
    buildUserInputObject (points_of_rows rows)
      (flat_map flat8 ss) (flat_map flat3 ts) = Ok ui /\
    length (scene.balls ui) = length ts /\
    forall i a b c,
      nth_error ts i = Some (a, b, c) ->
      nth_error (scene.balls ui) i
      = Some (scene.Build_CircleWithPosition (scene.Build_Vector a b) c).
Proof.
  eexists. split; [apply buildUserInputObject_strides; reflexivity|].
  cbn [scene.balls]. split; [apply length_map|].
  intros i a b c Hi.
  rewrite nth_error_map, Hi. reflexivity.
Qed.

(** X2.  The builder throws for a malformed [points] only, and then with
    the message of the first check that fails: an array of another rank
    than 2 gives the message on the dimensions, whatever its shape is; an
    array of rank 2 whose second dimension is not 2 gives the message on
    the second dimension.  On a well-shaped array nothing is thrown. *)
Theorem X2_builder_throws_for_shape_only {float : Type}
    (points : array_int32) (rects balls : list float) (e : exn) :
  buildUserInputObject points rects balls = Throw e ->
  (ndim points <> 2%nat /\
   e = runtime_error "Number of dimensions must be two") \/
  (ndim points = 2%nat /\ shape_at points 1 <> 2%nat /\
   e = runtime_error "Second dimension must have size 2 (x, y)").
Proof.
  unfold buildUserInputObject.
  destruct (Nat.eqb (ndim points) 2) eqn:Ed; cbn [negb].
  - apply Nat.eqb_eq in Ed.
    destruct (Nat.eqb (shape_at points 1) 2) eqn:Es; cbn [negb].
    + intros Hthrow. exfalso.
      destruct (polygons_loop rects 0 []) as [polys|e'|] eqn:Ep;
        cbn [res_bind] in Hthrow.
      * destruct (balls_loop balls 0 []) as [circles|e'|] eqn:Eb;
          cbn [res_bind] in Hthrow; try discriminate.
        exact (balls_loop_no_throw balls _ 0%nat [] e' (le_n _) Eb).
      * exact (polygons_loop_no_throw rects _ 0%nat [] e' (le_n _) Ep).
      * discriminate.
    + apply Nat.eqb_neq in Es. intros [= <-]. right. auto.
  - apply Nat.eqb_neq in Ed. intros [= <-]. left. auto.
Qed.

Lemma X2_builder_throws_for_shape_only_witness :
  ndim {| shape := [2%nat; 3%nat]; unchecked2 := fun _ _ => 0 |} = 2%nat /\
  buildUserInputObject (float := Z)
    {| shape := [2%nat; 3%nat]; unchecked2 := fun _ _ => 0 |} [1] [2]
  = Throw (runtime_error "Second dimension must have size 2 (x, y)").
Proof.
  split; [reflexivity|].
  destruct (X2_builder_throws_for_shape_only (float := Z)
              {| shape := [2%nat; 3%nat]; unchecked2 := fun _ _ => 0 |}
              [1] [2]
              (runtime_error "Second dimension must have size 2 (x, y)")
              eq_refl) as [[Hd _] | [_ [_ He]]].
  - exfalso. apply Hd. reflexivity.
  - reflexivity.
Defined.

(** X3.  When the builder returns, the circle input had a length that is
    a multiple of 3 and there is one circle per three floats; the
    rectangle input ended on a complete stride or on a stride of four
    floats at least, and there is one polygon per started stride. *)
Theorem X3_builder_returns_on_strides {float : Type}
    (points : array_int32) (rects balls : list float)
    (ui : scene.UserInput float) :
  buildUserInputObject points rects balls = Ok ui ->
  (length balls mod 3 = 0)%nat /\
  length (scene.balls ui) = (length balls / 3)%nat /\
  ((length rects mod 8 = 0)%nat \/ (4 <= length rects mod 8)%nat) /\
  length (scene.polygons ui) = ((length rects + 7) / 8)%nat.
Proof.
  unfold buildUserInputObject.
  destruct (negb (Nat.eqb (ndim points) 2)); [discriminate|].
  destruct (negb (Nat.eqb (shape_at points 1) 2)); [discriminate|].
  destruct (polygons_loop rects 0 []) as [polys| |] eqn:Ep;
    cbn [res_bind]; try discriminate.
  destruct (balls_loop balls 0 []) as [circles| |] eqn:Eb;
    cbn [res_bind]; try discriminate.
  intros [= <-]. cbn [scene.balls scene.polygons].
  destruct (balls_loop_returns balls circles Eb) as [Hm Hl].
  destruct (polygons_loop_returns rects polys Ep) as [Hr Hp].
  auto.
Qed.

Lemma X3_builder_returns_on_strides_witness :
  buildUserInputObject (float := Z) (points_of_rows [(1, 2)])
    [1; 2; 3; 4; 5; 6; 7; 8; 9; 10; 11; 12] [1; 2; 3]
  = Ok (scene.Build_UserInput [1; 2]
          [scene.Build_AbsoluteConvexPolygon [getVector 1 2; getVector 3 4];
           scene.Build_AbsoluteConvexPolygon [getVector 9 10; getVector 11 12]]
          [scene.Build_CircleWithPosition (scene.Build_Vector 1 2) 3]) /\
  (length [1; 2; 3] mod 3 = 0)%nat.
Proof.
  split; [reflexivity|].
  exact (proj1 (X3_builder_returns_on_strides (float := Z)
                  (points_of_rows [(1, 2)])
                  [1; 2; 3; 4; 5; 6; 7; 8; 9; 10; 11; 12] [1; 2; 3] _
                  eq_refl)).
Defined.

(** ** The functions on scenes *)

Section SceneExtras.

Context {float G T : Type} {engine : Engine float G T}.

Local Abbreviation image_size s :=
  (int_mul (scene.width s) (scene.height s)).

Lemma bind_undefined {A B : Type} (m : M G A) (k : A -> M G B) :
  snd m = Undefined -> snd (bind m k) = Undefined.
Proof.
  destruct m as [t r]. cbn [snd]. intros ->. reflexivity.
Qed.

(** A loop over bodies that are all undefined does nothing. *)
Lemma render_bodies_none (s : scene.Scene G) (bufferStart imageSize : Z)
    (bodies : list (scene.Body G)) (st : buffer Z * Z) :
  filter is_defined bodies = [] ->
  render_bodies s bufferStart imageSize bodies st = ([], Ok st).
Proof.
  induction bodies as [|b bodies IH]; intros Hf; [reflexivity|].
  cbn [render_bodies filter] in *.
  destruct (is_defined b); [discriminate|].
  rewrite bind_ret. apply IH. assumption.
Qed.

(** A store of one element or more that does not fit is undefined. *)
Lemma write_at_overflow {A : Type} (buf : buffer A) (off : Z)
    (data : list A) :
  data <> [] ->
  Z.of_nat (length buf) < off + Z.of_nat (length data) ->
  write_at buf off data = Undefined.
Proof.
  intros Hd Hlen. unfold write_at.
  destruct data as [|x data]; [contradiction|].
  destruct (_ <=? Z.of_nat (length buf)) eqn:E2;
    [apply Z.leb_le in E2; lia|].
  rewrite andb_false_r. reflexivity.
Qed.

(** A store that does not fit: the lambda runs into undefined
    behaviour. *)
Lemma renderSingleBody_overflow (s : scene.Scene G) (bufferStart : Z)
    (body : scene.Body G) (buf : buffer Z) (idx : Z) :
  0 < image_size s ->
  0 <= idx -> idx * image_size s <= INT_MAX ->
  0 <= bufferStart ->
  Z.of_nat (length buf) < bufferStart + (idx + 1) * image_size s ->
  snd (renderSingleBody s bufferStart (image_size s) body (buf, idx))
  = Undefined.
Proof.
  intros HS Hi HiS Hb Hlen.
  pose proof (int_wrap_range (scene.width s * scene.height s)) as HR.
  fold (image_size s) in HR.
  unfold renderSingleBody. rewrite bind_tell. cbn [snd].
  assert (Hoff : int_mul idx (image_size s) = idx * image_size s).
  { unfold int_mul at 1. apply int_wrap_small. unfold INT_MAX in *. nia. }
  rewrite Hoff, size_of_int_small by lia.
  destruct (Z.of_nat _ =? image_size s) eqn:E.
  - apply Z.eqb_eq in E. rewrite write_at_overflow; [reflexivity| |].
    + intros Hnil. apply (f_equal (@length _)) in Hnil.
      rewrite length_map in Hnil. cbn [length] in Hnil. lia.
    + rewrite length_map. nia.
  - rewrite bind_tell. cbn [snd]. unfold fill_at.
    destruct (image_size s <? 0) eqn:E1; [reflexivity|].
    rewrite write_at_overflow; [reflexivity| |].
    + intros Hnil. apply (f_equal (@length _)) in Hnil.
      rewrite repeat_length in Hnil. cbn [length] in Hnil. lia.
    + rewrite repeat_length. nia.
Qed.

Lemma render_bodies_overflow (s : scene.Scene G) (bufferStart : Z)
    (bodies : list (scene.Body G)) :
  forall (buf : buffer Z) (idx : Z),
    let n := Z.of_nat (length (filter is_defined bodies)) in
    0 < image_size s ->
    1 <= n -> 0 <= idx -> idx + n <= INT_MAX ->
    (idx + n) * image_size s <= INT_MAX ->
    0 <= bufferStart ->
    Z.of_nat (length buf) < bufferStart + (idx + n) * image_size s ->
    snd (render_bodies s bufferStart (image_size s) bodies (buf, idx))
    = Undefined.
Proof.
  induction bodies as [|b bodies IH];
    intros buf idx n HS Hn Hi Hmax HnS Hb Hlen; subst n.
  - cbn [filter length] in Hn. lia.
  - cbn [render_bodies filter] in *.
    destruct (is_defined b) eqn:Eb.
    + cbn [length] in *. rewrite Nat2Z.inj_succ in *.
      destruct (Z_lt_le_dec (Z.of_nat (length buf))
                  (bufferStart + (idx + 1) * image_size s)) as [Hover|Hfit].
      * pose proof (renderSingleBody_overflow s bufferStart b buf idx
                      HS Hi ltac:(nia) Hb Hover) as U.
        destruct (renderSingleBody _ _ _ _ _) as [t r]. cbn [snd] in U.
        subst r. reflexivity.
      * rewrite renderSingleBody_run by nia.
        rewrite bind_ok. cbn [fst snd].
        apply IH; try nia.
        rewrite length_blit; [nia|].
        rewrite length_mask_of by lia. nia.
    + rewrite bind_ret. apply IH; assumption.
Qed.

(** X4.  A second [addUserInputToScene] starts from the bodies of the
    scene again: the user-input bodies and the status that an earlier call
    has left are overwritten, so two calls in a row leave the scene that
    the second call alone leaves. *)
Theorem X4_merge_overwrites_earlier_merge
    (user_input user_input' : scene.UserInput float)
    (keep allow keep' allow' : bool) (s : scene.Scene G) :
  exists s1 s2,
    addUserInputToScene user_input' keep' allow' s
    = ([EvMerge keep' allow'], Ok s1) /\
    addUserInputToScene user_input keep allow s1
    = ([EvMerge keep allow], Ok s2) /\
    addUserInputToScene user_input keep allow s
    = ([EvMerge keep allow], Ok s2).
Proof.
  eexists _, _. rewrite !addUserInputToScene_run.
  split; [reflexivity|]. split; reflexivity.
Qed.

(** X5.  [renderAllObjectMasksTo] calls the rasterizer as many times as
    [getNumObjectsInScene] counts objects, so a buffer of the object count
    times the image size holds the masks of the scene. *)
Theorem X5_one_mask_per_counted_object (s : scene.Scene G)
    (buf : buffer Z) (bufferStart : Z) :
  let n := getNumObjectsInScene s in
  0 <= image_size s ->
  Z.of_nat (length (valid_bodies s)) <= INT_MAX ->
  Z.of_nat (length (valid_bodies s)) * image_size s <= INT_MAX ->
  0 <= bufferStart ->
  bufferStart + n * image_size s <= Z.of_nat (length buf) ->
  exists tr buf',
    renderAllObjectMasksTo s buf bufferStart = (tr, Ok buf') /\
    Z.of_nat (length (filter is_render tr)) = n.
Proof.
  intros n HS Hn HnS Hb Hlen.
  assert (Hcount : n = Z.of_nat (length (valid_bodies s))).
  { apply getNumObjectsInScene_count. exact Hn. }
  rewrite Hcount in *.
  eexists _, _. split; [apply renderAllObjectMasksTo_run; assumption|].
  rewrite render_events, length_map. reflexivity.
Qed.

(** X6.  On a scene without a valid body [renderAllObjectMasksTo] calls
    nothing and leaves the buffer as it is, whatever the size of the
    image, the buffer and the offset are. *)
Theorem X6_no_valid_body_no_mask (s : scene.Scene G) (buf : buffer Z)
    (bufferStart : Z) :
  valid_bodies s = [] ->
  renderAllObjectMasksTo s buf bufferStart = ([], Ok buf).
Proof.
  unfold valid_bodies. rewrite filter_app. intros Hv.
  apply app_eq_nil in Hv. destruct Hv as [H1 H2].
  unfold renderAllObjectMasksTo.
  rewrite render_bodies_none by assumption.
  rewrite bind_ok. cbn [fst snd app].
  rewrite render_bodies_none by assumption. reflexivity.
Qed.

(** A buffer too short for the masks of the scene, of one pixel or more
    each: a store goes past its end. *)
Lemma masks_overflow_short_buffer (s : scene.Scene G)
    (buf : buffer Z) (bufferStart : Z) :
  let n := Z.of_nat (length (valid_bodies s)) in
  0 < image_size s ->
  1 <= n <= INT_MAX -> n * image_size s <= INT_MAX ->
  0 <= bufferStart ->
  Z.of_nat (length buf) < bufferStart + n * image_size s ->
  snd (renderAllObjectMasksTo s buf bufferStart) = Undefined.
Proof.
  intros n HS Hn HnS Hb Hlen. subst n.
  unfold valid_bodies in *. rewrite filter_app in *.
  rewrite length_app, Nat2Z.inj_add in *.
  set (v1 := filter is_defined (scene.bodies s)) in *.
  set (v2 := filter is_defined (scene.user_input_bodies s)) in *.
  unfold renderAllObjectMasksTo.
  destruct (Z_lt_le_dec (Z.of_nat (length buf))
              (bufferStart + Z.of_nat (length v1) * image_size s))
    as [Hover|Hfit].
  - destruct (Z.eq_dec (Z.of_nat (length v1)) 0) as [H0|H0].
    + assert (Hv1 : v1 = []) by (destruct v1; [reflexivity | discriminate]).
      rewrite render_bodies_none by exact Hv1.
      rewrite bind_ok. cbn [fst snd].
      apply bind_undefined.
      pose proof (render_bodies_overflow s bufferStart
                    (scene.user_input_bodies s) buf 0) as U.
      cbv zeta in U. fold v2 in U. apply U; lia.
    + apply bind_undefined.
      pose proof (render_bodies_overflow s bufferStart
                    (scene.bodies s) buf 0) as U.
      cbv zeta in U. fold v1 in U. apply U; nia.
  - rewrite render_bodies_run; fold v1; try nia.
    rewrite bind_ok. cbn [fst snd].
    apply bind_undefined.
    pose proof (render_bodies_overflow s bufferStart
                  (scene.user_input_bodies s)
                  (blit buf (Z.to_nat (bufferStart + 0 * image_size s))
                     (flat_map (mask_of s) v1))
                  (0 + Z.of_nat (length v1))) as U.
    cbv zeta in U. fold v2 in U.
    assert (L := length_flat_map_mask_of s v1 (Z.lt_le_incl _ _ HS)).
    apply U; try nia.
    rewrite length_blit; nia.
Qed.


(** X8.  After [renderAllObjectMasksTo] every cell of the masks, from
    [bufferStart] to [bufferStart + n * imageSize], holds a byte: none is
    left indeterminate. *)
Theorem X8_mask_cells_are_bytes (s : scene.Scene G) (buf : buffer Z)
    (bufferStart : Z) :
  let n := Z.of_nat (length (valid_bodies s)) in
  0 <= image_size s ->
  n <= INT_MAX -> n * image_size s <= INT_MAX ->
  0 <= bufferStart ->
  bufferStart + n * image_size s <= Z.of_nat (length buf) ->
  exists tr buf',
    renderAllObjectMasksTo s buf bufferStart = (tr, Ok buf') /\
    length (slice buf' (Z.to_nat bufferStart) (Z.to_nat (n * image_size s)))
    = Z.to_nat (n * image_size s) /\
    Forall is_byte_cell
      (slice buf' (Z.to_nat bufferStart) (Z.to_nat (n * image_size s))).
Proof.
  intros n HS Hn HnS Hb Hlen.
  eexists _, _. split; [apply renderAllObjectMasksTo_run; assumption|].
  assert (L := length_flat_map_mask_of s (valid_bodies s) HS).
  fold n in L.
  pose proof (slice_blit buf (Z.to_nat bufferStart) []
                (flat_map (mask_of s) (valid_bodies s)) []) as Sl.
  cbn [app length] in Sl. rewrite app_nil_r, !Nat.add_0_r in Sl.
  replace (Z.to_nat (n * image_size s))
    with (length (flat_map (mask_of s) (valid_bodies s))) by lia.
  rewrite Sl by lia. split; [apply length_map|].
  apply Forall_forall. intros c Hc. apply in_map_iff in Hc.
  destruct Hc as [b [<- Hb']]. exists b. split; [reflexivity|].
  apply in_flat_map in Hb'. destruct Hb' as [body [_ Hb']].
  unfold mask_of in Hb'. destruct (size_matches s body).
  - apply in_map_iff in Hb'. destruct Hb' as [v [<- _]].
    unfold uint8_of. apply Z.mod_pos_bound. lia.
  - apply repeat_spec in Hb'. subst b. lia.
Qed.

End SceneExtras.

Lemma X5_one_mask_per_counted_object_witness :
  getNumObjectsInScene Toy.toy_scene = 3 /\
  exists tr buf',
    renderAllObjectMasksTo (engine := Toy.toy_engine)
      Toy.toy_scene (repeat None 12) 0 = (tr, Ok buf') /\
    length (filter is_render tr) = 3%nat.
Proof.
  split; [reflexivity|].
  destruct (X5_one_mask_per_counted_object (engine := Toy.toy_engine)
              Toy.toy_scene (repeat None 12) 0)
    as [tr [buf' [Hrun Hn]]]; try (vm_compute; discriminate).
  exists tr, buf'. split; [exact Hrun|].
  apply Nat2Z.inj. exact Hn.
Defined.

Lemma X6_no_valid_body_no_mask_witness :
  renderAllObjectMasksTo (engine := Toy.toy_engine)
    {| scene.width := -3; scene.height := 2;
       scene.bodies := [scene.Build_Body scene.UNDEFINED 1];
       scene.user_input_bodies := [];
       scene.user_input_status := None |} [] 7
  = ([], Ok []).
Proof.
  apply (X6_no_valid_body_no_mask (engine := Toy.toy_engine)).
  reflexivity.
Defined.


Lemma X8_mask_cells_are_bytes_witness :
  exists tr buf',
    renderAllObjectMasksTo (engine := Toy.toy_engine)
      Toy.toy_scene (repeat None 13) 1 = (tr, Ok buf') /\
    Forall is_byte_cell (slice buf' 1 12).
Proof.
  destruct (X8_mask_cells_are_bytes (engine := Toy.toy_engine)
              Toy.toy_scene (repeat None 13) 1)
    as [tr [buf' [Hrun [_ Hcells]]]]; try (vm_compute; discriminate).
  exists tr, buf'. split; [exact Hrun | exact Hcells].
Defined.

(** ** The traces of the packing stages *)

Section PackTraces.

Context {float G T : Type} {engine : Engine float G T}.

Lemma render_bodies_trace (s : scene.Scene G) (bufferStart imageSize : Z)
    (bodies : list (scene.Body G)) :
  forall st,
    Forall (fun e => is_mask_event e = true)
      (fst (render_bodies s bufferStart imageSize bodies st)).
Proof.
  induction bodies as [|b bodies IH]; intros st; [constructor|].
  cbn [render_bodies]. apply bind_trace; [|intros st'; apply IH].
  destruct (is_defined b); [|constructor].
  destruct st as [buf idx]. unfold renderSingleBody.
  rewrite bind_tell. cbn [fst]. constructor; [reflexivity|].
  apply bind_trace; [|intros buf'; constructor].
  destruct (Z.of_nat _ =? _); [constructor|].
  rewrite bind_tell. cbn [fst]. constructor; [reflexivity | constructor].
Qed.

Lemma renderAllObjectMasksTo_trace (s : scene.Scene G) (buf : buffer Z)
    (bufferStart : Z) :
  Forall (fun e => is_mask_event e = true)
    (fst (renderAllObjectMasksTo s buf bufferStart)).
Proof.
  unfold renderAllObjectMasksTo.
  apply bind_trace; [apply render_bodies_trace|]. intros st1.
  apply bind_trace; [apply render_bodies_trace|]. intros st2. constructor.
Qed.

Lemma mask_events_no_renderTo (tr : list (event G)) :
  Forall (fun e => is_mask_event e = true) tr -> renderTo_calls tr = [].
Proof.
  induction 1 as [|e tr He _ IH]; [reflexivity|].
  unfold renderTo_calls in *. cbn [flat_map]. rewrite IH.
  destruct e; try discriminate; reflexivity.
Qed.

Lemma pack_frames_trace (need_object_masks : bool)
    (imageSize numSceneObjects : Z) (frames : list (scene.Scene G)) :
  forall st,
    Forall (fun e => is_pack_event e = true)
      (fst (pack_frames need_object_masks imageSize numSceneObjects
              frames st)).
Proof.
  induction frames as [|f frames IH]; intros st; [constructor|].
  cbn [pack_frames]. apply bind_trace; [|intros st'; apply IH].
  destruct st as [[[imgs masks] iwi] si]. unfold pack_frame.
  rewrite bind_tell. cbn [fst]. constructor; [reflexivity|].
  apply bind_trace; [|intros m; constructor].
  destruct need_object_masks; [|constructor].
  eapply Forall_impl; [|apply renderAllObjectMasksTo_trace].
  intros e He. destruct e; try discriminate; reflexivity.
Qed.

Lemma featurize_frames_trace (numSceneObjects : Z)
    (frames : list (scene.Scene G)) :
  forall st,
    Forall (fun e => is_pack_event e = true)
      (fst (featurize_frames numSceneObjects frames st)).
Proof.
  induction frames as [|f frames IH]; intros [buf wi]; [constructor|].
  cbn [featurize_frames]. rewrite bind_tell. cbn [fst].
  constructor; [reflexivity | apply IH].
Qed.

End PackTraces.

(** ** magic_ponies *)

Section RunExtras.

Context {float G T : Type} {engine : Engine float G T}.

(** X9.  With the three flags off, a run whose task decodes always
    returns: the calls are the decoding, the merge without occlusions
    allowed and the simulation; the three arrays have no element; the
    scalars are the solved flag of the simulation, the occlusion status of
    its first frame and the object count of its first frame, twice. *)
Theorem X9_run_without_outputs (serialized_task : string)
    (user_input : scene.UserInput float) (keep_space_around_bodies : bool)
    (steps stride : Z) (need_object_masks : bool)
    (task0 : task.Task G T) :
  let simulation :=
    simulation_of task0 user_input keep_space_around_bodies steps stride in
  thrift_read_Task serialized_task = Some task0 ->
  magic_ponies serialized_task user_input keep_space_around_bodies
    steps stride false false need_object_masks
  = ([EvDeserialize serialized_task;
      EvMerge keep_space_around_bodies false;
      EvSimulate steps stride],
     Ok {| r_isSolved := task.isSolution simulation;
           r_hadOcclusions := hadSimulationOcclusions simulation;
           r_packedImagesArray := Build_py_array 0 [];
           r_packedObjectMasksArray := Build_py_array 0 [];
           r_numSceneObjects := getNumObjects simulation;
           r_packedObjectsArray := Build_py_array 0 [];
           r_numSceneObjects' := getNumObjects simulation |}).
Proof.
  intros simulation Hread. unfold magic_ponies, magic_ponies_pack.
  rewrite deserialize_Task_run, Hread, bind_ok. cbn [fst snd].
  rewrite addUserInputToScene_run, bind_ok. cbn [fst snd].
  rewrite bind_tell. cbn [fst snd].
  fold (simulation_of task0 user_input keep_space_around_bodies
          steps stride). fold simulation.
  cbn [task.scene merged_scene scene.width scene.height].
  set (S := int_mul (scene.width (task.scene task0))
                    (scene.height (task.scene task0))).
  set (O := getNumObjects simulation).
  assert (Z1 : int_mul S 0 = 0)
    by (unfold int_mul; rewrite Z.mul_0_r; reflexivity).
  assert (Z2 : int_mul (int_mul O kObjectFeatureSize) 0 = 0)
    by (unfold int_mul at 1; rewrite Z.mul_0_r; reflexivity).
  assert (Z3 : int_mul (int_mul 0 O) S = 0) by reflexivity.
  assert (Z4 : int_mul (int_mul 0 O) kObjectFeatureSize = 0) by reflexivity.
  rewrite Z1, Z2.
  change (int_mul 0 O) with 0.
  change (new_array Z 0) with (@Ok (buffer Z) []).
  change (new_array float 0) with (@Ok (buffer float) []).
  change (0 <? 0) with false. cbv iota.
  unfold magic_ponies_arrays.
  cbn [bind ret lift fst snd app isSolved hadOcclusions numImagesTotal
       numScenesTotal imageSize numSceneObjects packedImages
       packedObjectMasks packedVectorizedBodies].
  rewrite Z3, Z4. change (int_mul 0 S) with 0.
  destruct need_object_masks; reflexivity.
Qed.

(** X10.  When the task does not decode, the run throws the exception of
    the reader right after the decoding: nothing is merged, simulated or
    rendered, whatever the flags are; so does [check_for_occlusions] once
    the user input is built. *)
Theorem X10_decode_failure_propagates (serialized_task : string)
    (user_input : scene.UserInput float) (keep_space_around_bodies : bool)
    (steps stride : Z)
    (need_images need_featurized_objects need_object_masks : bool)
    (points : array_int32) (rects balls : list float) :
  thrift_read_Task serialized_task = None ->
  buildUserInputObject points rects balls = Ok user_input ->
  magic_ponies serialized_task user_input keep_space_around_bodies
    steps stride need_images need_featurized_objects need_object_masks
  = ([EvDeserialize serialized_task], Throw thrift_exception) /\
  magic_ponies_binding serialized_task points rects balls
    keep_space_around_bodies steps stride
    need_images need_featurized_objects need_object_masks
  = ([EvDeserialize serialized_task], Throw thrift_exception) /\
  check_for_occlusions serialized_task points rects balls
    keep_space_around_bodies
  = ([EvDeserialize serialized_task], Throw thrift_exception).
Proof.
  intros Hread Hbuild.
  assert (Hrun :
    magic_ponies serialized_task user_input keep_space_around_bodies
      steps stride need_images need_featurized_objects need_object_masks
    = ([EvDeserialize serialized_task], Throw thrift_exception)).
  { unfold magic_ponies, magic_ponies_pack.
    rewrite deserialize_Task_run, Hread. reflexivity. }
  split; [exact Hrun|]. split.
  - unfold magic_ponies_binding. rewrite Hbuild, bind_lift_ok. exact Hrun.
  - unfold check_for_occlusions. rewrite Hbuild, bind_lift_ok.
    rewrite deserialize_Task_run, Hread. reflexivity.
Qed.

(** X11.  In a run with [need_featurized_objects] that returns, with [F]
    frames and [O] objects, and with [F * O] times the feature size
    fitting an [int]: the features array has [F * O * kObjectFeatureSize]
    elements over a buffer of as many floats. *)
Theorem X11_size_of_features (serialized_task : string)
    (user_input : scene.UserInput float) (keep_space_around_bodies : bool)
    (steps stride : Z) (need_images need_object_masks : bool)
    (task0 : task.Task G T) (tr : list (event G)) (r : Result) :
  let simulation :=
    simulation_of task0 user_input keep_space_around_bodies steps stride in
  let F := Z.of_nat (length (task.sceneList simulation)) in
  let O := getNumObjects simulation in
  thrift_read_Task serialized_task = Some task0 ->
  0 <= O -> 0 <= kObjectFeatureSize -> F <= INT_MAX ->
  F * O * kObjectFeatureSize <= INT_MAX ->
  magic_ponies serialized_task user_input keep_space_around_bodies
    steps stride need_images true need_object_masks = (tr, Ok r) ->
  arr_shape (r_packedObjectsArray r) = F * O * kObjectFeatureSize /\
  Z.of_nat (length (arr_data (r_packedObjectsArray r)))
  = F * O * kObjectFeatureSize.
Proof.
  intros simulation F O Hread HO Hk HF HFOk Hrun.
  unfold magic_ponies in Hrun. apply bind_inv_ok in Hrun.
  destruct Hrun as [t1 [p [t2 [Hpack [Hret ->]]]]].
  injection Hret as <- <-.
  destruct (magic_ponies_pack_inv _ _ _ _ _ _ _ _ task0 t1 p Hread Hpack)
    as [_ [_ [_ [HnS [_ [HnO [_ [_ Lf]]]]]]]].
  fold simulation in HnS, HnO. fold O in HnO.
  assert (HFi : int_of_size (length (task.sceneList simulation)) = F).
  { unfold int_of_size. apply int_wrap_small. unfold INT_MAX in *. lia. }
  rewrite HFi in HnS. rewrite HnS, HnO in Lf.
  unfold magic_ponies_arrays. cbn [r_packedObjectsArray arr_shape arr_data].
  rewrite HnS, HnO.
  rewrite int_mul_mul_small in Lf by (unfold INT_MAX in *; nia).
  rewrite int_mul_mul_small by (unfold INT_MAX in *; nia).
  split; [reflexivity | lia].
Qed.

(** X12.  In a run without [need_object_masks] the rasterizer of single
    bodies is never called, whatever the outcome and the other flags are,
    and the masks array that the run returns has no element. *)
Theorem X12_no_masks_when_not_asked (serialized_task : string)
    (user_input : scene.UserInput float) (keep_space_around_bodies : bool)
    (steps stride : Z) (need_images need_featurized_objects : bool) :
  let run :=
    magic_ponies serialized_task user_input keep_space_around_bodies
      steps stride need_images need_featurized_objects false in
  filter is_render (fst run) = [] /\
  forall r, snd run = Ok r ->
    arr_shape (r_packedObjectMasksArray r) = 0 /\
    arr_data (r_packedObjectMasksArray r) = [].
Proof.
  cbv zeta. split.
  - unfold magic_ponies, magic_ponies_pack.
    rewrite deserialize_Task_run.
    destruct (thrift_read_Task serialized_task) as [task0|]; [|reflexivity].
    rewrite bind_ok. cbn [fst snd].
    rewrite addUserInputToScene_run, bind_ok. cbn [fst snd].
    rewrite bind_tell. cbn [fst snd].
    fold (simulation_of task0 user_input keep_space_around_bodies
            steps stride).
    set (simulation := simulation_of task0 user_input
                         keep_space_around_bodies steps stride).
    cbn [task.scene merged_scene scene.width scene.height].
    set (nI := if need_images then _ else 0).
    set (nS := if need_featurized_objects then _ else 0).
    set (S := int_mul (scene.width (task.scene task0))
                      (scene.height (task.scene task0))).
    set (O := getNumObjects simulation).
    destruct (new_array Z (int_mul S nI)) as [imgs| |];
      try reflexivity.
    rewrite bind_lift_ok.
    destruct (new_array Z (int_mul (int_mul S nI) O)) as [masks| |];
      try reflexivity.
    rewrite bind_lift_ok.
    assert (St : exists t1 imgs' a b,
      (if 0 <? nI
       then pack_frames false S O (task.sceneList simulation)
              (imgs, masks, 0, 0)
       else ret (imgs, masks, 0, 0)) = (t1, Ok (imgs', masks, a, b)) /\
      filter is_render t1 = []).
    { destruct (0 <? nI).
      - destruct (pack_frames_no_masks S O (task.sceneList simulation)
                    imgs masks 0 0) as [t1 [imgs' [a [b [E [R _]]]]]].
        exists t1, imgs', a, b. auto.
      - exists [], imgs, 0, 0. auto. }
    destruct St as [t1 [imgs' [a [b [St R1]]]]].
    rewrite St, bind_ok. cbn [fst snd].
    destruct (new_array float (int_mul (int_mul O kObjectFeatureSize) nS))
      as [feats| |].
    + rewrite bind_lift_ok.
      destruct (features_stage_run nS O (task.sceneList simulation) feats)
        as [t2 [feats' [wi [Ft [_ R2]]]]].
      rewrite Ft, bind_ok. cbn [fst snd ret].
      rewrite bind_ok. cbn [fst snd ret app].
      rewrite !app_nil_r. cbn [filter is_render].
      rewrite filter_app, R1, R2. reflexivity.
    + cbn [fst lift bind app]. rewrite !app_nil_r.
      cbn [filter is_render]. exact R1.
    + cbn [fst lift bind app]. rewrite !app_nil_r.
      cbn [filter is_render]. exact R1.
  - intros r Hr. unfold magic_ponies in Hr.
    destruct (magic_ponies_pack _ _ _ _ _ _ _ false) as [t [p| |]];
      cbn in Hr; try discriminate.
    injection Hr as <-. split; reflexivity.
Qed.

(** X13.  Every run whose task decodes starts with the decoding, the
    merge with occlusions not allowed and the simulation, in this order;
    all later calls are calls of the rasterizer, of the featurizer or
    warnings.  So the task is decoded once, the merge comes before the
    simulation and the simulator runs once. *)
Theorem X13_decode_merge_simulate_then_pack (serialized_task : string)
    (user_input : scene.UserInput float) (keep_space_around_bodies : bool)
    (steps stride : Z)
    (need_images need_featurized_objects need_object_masks : bool)
    (task0 : task.Task G T) :
  thrift_read_Task serialized_task = Some task0 ->
  exists rest,
    fst (magic_ponies serialized_task user_input keep_space_around_bodies
           steps stride need_images need_featurized_objects
           need_object_masks)
    = [EvDeserialize serialized_task;
       EvMerge keep_space_around_bodies false;
       EvSimulate steps stride] ++ rest /\
    Forall (fun e => is_pack_event e = true) rest.
Proof.
  intros Hread. unfold magic_ponies, magic_ponies_pack.
  rewrite deserialize_Task_run, Hread, bind_ok. cbn [fst snd].
  rewrite addUserInputToScene_run, bind_ok. cbn [fst snd].
  rewrite bind_tell. cbn [fst snd].
  match goal with
  | |- context [bind (?t, ?o) ?k] =>
      set (m := o); set (pre := t)
  end.
  assert (Hm : exists rest, pre = [EvDeserialize serialized_task;
                                   EvMerge keep_space_around_bodies false;
                                   EvSimulate steps stride] ++ rest /\
                            Forall (fun e => is_pack_event e = true) rest).
  { subst pre. eexists. split; [reflexivity|].
    apply bind_trace; [constructor|]. intros imgs.
    apply bind_trace; [constructor|]. intros masks.
    apply bind_trace.
    - match goal with
      | |- Forall _ (fst (if ?c then _ else _)) => destruct c
      end; [apply pack_frames_trace | constructor].
    - intros [[[imgs' masks'] a] b].
      apply bind_trace; [constructor|]. intros feats.
      apply bind_trace; [|intros st; constructor].
      match goal with
      | |- Forall _ (fst (if ?c then _ else _)) => destruct c
      end; [apply featurize_frames_trace | constructor]. }
  destruct Hm as [rest [Hpre Hrest]].
  exists rest. split; [|exact Hrest].
  destruct m; cbn [bind fst ret]; rewrite ?app_nil_r; exact Hpre.
Qed.

(** X14.  The scalars of a run that returns, whatever the flags are: the
    solved flag of the simulation; the occlusion flag, which is set
    exactly when the simulation has a first frame whose status is
    [HAD_OCCLUSIONS]; and the object count of the first frame, at both
    places of the tuple. *)
Theorem X14_scalars_of_a_run (serialized_task : string)
    (user_input : scene.UserInput float) (keep_space_around_bodies : bool)
    (steps stride : Z)
    (need_images need_featurized_objects need_object_masks : bool)
    (task0 : task.Task G T) (tr : list (event G)) (r : Result) :
  let simulation :=
    simulation_of task0 user_input keep_space_around_bodies steps stride in
  thrift_read_Task serialized_task = Some task0 ->
  magic_ponies serialized_task user_input keep_space_around_bodies
    steps stride need_images need_featurized_objects need_object_masks
  = (tr, Ok r) ->
  r_isSolved r = task.isSolution simulation /\
  (r_hadOcclusions r = true <->
   exists frame0 rest,
     task.sceneList simulation = frame0 :: rest /\
     scene.user_input_status frame0 = Some scene.HAD_OCCLUSIONS) /\
  r_numSceneObjects r = getNumObjects simulation /\
  r_numSceneObjects' r = r_numSceneObjects r.
Proof.
  intros simulation Hread Hrun.
  unfold magic_ponies in Hrun. apply bind_inv_ok in Hrun.
  destruct Hrun as [t1 [p [t2 [Hpack [Hret ->]]]]].
  injection Hret as <- <-.
  destruct (magic_ponies_pack_inv _ _ _ _ _ _ _ _ task0 t1 p Hread Hpack)
    as [Hs [Hh [_ [_ [_ [HnO _]]]]]].
  fold simulation in Hs, Hh, HnO.
  unfold magic_ponies_arrays.
  cbn [r_isSolved r_hadOcclusions r_numSceneObjects r_numSceneObjects'].
  rewrite Hs, Hh, HnO. repeat split.
  - unfold hadSimulationOcclusions.
    destruct (task.sceneList simulation) as [|frame0 rest];
      [discriminate|].
    destruct (scene.user_input_status frame0) as [[|]|] eqn:Hst;
      try discriminate.
    intros _. exists frame0, rest. split; [reflexivity | exact Hst].
  - intros [frame0 [rest [Hl Hst]]]. unfold hadSimulationOcclusions.
    rewrite Hl, Hst. reflexivity.
Qed.

End RunExtras.

(** ** The layout of the packed buffers *)

Section SlicePrefix.

Context {A : Type}.

(** A slice that ends within a common prefix of two lists is the same in
    both. *)
Lemma slice_prefix (a b : list A) (off n m : nat) :
  (off + n <= m)%nat -> firstn m a = firstn m b ->
  slice a off n = slice b off n.
Proof.
  intros Hm Hab.
  assert (P : forall l : list A,
            slice l off n = slice (firstn m l) off n).
  { intros l. unfold slice.
    rewrite skipn_firstn_comm, firstn_firstn.
    f_equal. lia. }
  rewrite (P a), (P b), Hab. reflexivity.
Qed.

Lemma firstn_prefix (a b : list A) (k m : nat) :
  (k <= m)%nat -> firstn m a = firstn m b -> firstn k a = firstn k b.
Proof.
  intros Hk Hab.
  rewrite <- (Nat.min_l k m Hk), <- !firstn_firstn, Hab. reflexivity.
Qed.

End SlicePrefix.

Section PackLayout.

Context {float G T : Type} {engine : Engine float G T}.

Lemma renderTo_calls_app (t1 t2 : list (event G)) :
  renderTo_calls (t1 ++ t2) = renderTo_calls t1 ++ renderTo_calls t2.
Proof. apply flat_map_app. Qed.

(** What one round of the loop over the frames has done when it
    returns. *)
Lemma pack_frame_inv (need_object_masks : bool)
    (imageSize numSceneObjects : Z) (f : scene.Scene G)
    (imgs masks : buffer Z) (iwi si : Z) t st1 :
  pack_frame need_object_masks imageSize numSceneObjects f
    (imgs, masks, iwi, si) = (t, Ok st1) ->
  exists masks',
    st1 = (renderTo f imgs iwi, masks', int_add iwi imageSize,
           int_add si 1) /\
    renderTo_calls t = [(f, iwi)].
Proof.
  unfold pack_frame. rewrite bind_tell. intros [= <- E].
  destruct need_object_masks.
  - pose proof (renderAllObjectMasksTo_trace f masks
                  (int_mul (int_mul si numSceneObjects) imageSize)) as Tr.
    destruct (renderAllObjectMasksTo f masks _) as [tm [m| |]];
      cbn in E; try discriminate.
    injection E as <-. exists m. split; [reflexivity|].
    cbn [bind ret fst renderTo_calls flat_map app] in *.
    rewrite app_nil_r. f_equal.
    apply mask_events_no_renderTo. exact Tr.
  - cbn in E. injection E as <-. exists masks. split; reflexivity.
Qed.

(** The loop over the frames hands the frames to [renderTo] in order, the
    first at [imageWriteIndex] and each next one [imageSize] further. *)
Lemma pack_frames_renderTo_calls (need_object_masks : bool)
    (imageSize numSceneObjects : Z) (frames : list (scene.Scene G)) :
  forall (imgs masks : buffer Z) (iwi si : Z) tr st',
    pack_frames need_object_masks imageSize numSceneObjects frames
      (imgs, masks, iwi, si) = (tr, Ok st') ->
    0 <= imageSize -> 0 <= iwi ->
    iwi + Z.of_nat (length frames) * imageSize <= INT_MAX ->
    renderTo_calls tr
    = combine frames (offsets iwi imageSize (length frames)).
Proof.
  induction frames as [|f frames IH];
    intros imgs masks iwi si tr st' E HS Hi Hmax.
  - cbn in E. injection E as <- _. reflexivity.
  - cbn [pack_frames] in E. apply bind_inv_ok in E.
    destruct E as [t1 [st1 [t2 [E1 [E2 ->]]]]].
    apply pack_frame_inv in E1. destruct E1 as [masks' [-> C1]].
    cbn [length] in Hmax. rewrite Nat2Z.inj_succ in Hmax.
    assert (Ha : int_add iwi imageSize = iwi + imageSize).
    { unfold int_add. apply int_wrap_small. unfold INT_MAX in *. nia. }
    rewrite Ha in E2.
    rewrite renderTo_calls_app, C1.
    rewrite (IH _ _ _ _ _ _ E2) by nia.
    reflexivity.
Qed.

Lemma featurize_frames_calls (numSceneObjects : Z)
    (frames : list (scene.Scene G)) :
  forall st,
    renderTo_calls (fst (featurize_frames numSceneObjects frames st)) = [].
Proof.
  induction frames as [|f frames IH]; intros [buf wi]; [reflexivity|].
  cbn [featurize_frames]. rewrite bind_tell. cbn [fst].
  unfold renderTo_calls in *. cbn [flat_map app]. apply IH.
Qed.

(** The stages of a run that reaches line 242: the three calls of the
    start, then the loop over the frames on two fresh buffers, then the
    feature loop. *)
Lemma magic_ponies_pack_stages (serialized_task : string)
    (user_input : scene.UserInput float) (keep : bool) (steps stride : Z)
    (need_images need_featurized_objects need_object_masks : bool)
    (task0 : task.Task G T) tr (p : Packed) :
  thrift_read_Task serialized_task = Some task0 ->
  magic_ponies_pack serialized_task user_input keep steps stride
    need_images need_featurized_objects need_object_masks = (tr, Ok p) ->
  let simulation := simulation_of task0 user_input keep steps stride in
  let frames := task.sceneList simulation in
  exists t1 t2 imgs0 masks0 a b,
    tr = [EvDeserialize serialized_task; EvMerge keep false;
          EvSimulate steps stride] ++ t1 ++ t2 /\
    Z.of_nat (length masks0)
    = int_mul (int_mul (imageSize p) (numImagesTotal p))
              (numSceneObjects p) /\
    (if 0 <? numImagesTotal p
     then pack_frames need_object_masks (imageSize p) (numSceneObjects p)
            frames (imgs0, masks0, 0, 0)
     else ret (imgs0, masks0, 0, 0))
    = (t1, Ok (packedImages p, packedObjectMasks p, a, b)) /\
    renderTo_calls t2 = [].
Proof.
  intros Hread. unfold magic_ponies_pack.
  rewrite deserialize_Task_run, Hread, bind_ok. cbn [fst snd].
  rewrite addUserInputToScene_run, bind_ok. cbn [fst snd].
  rewrite bind_tell. cbn [fst snd].
  fold (simulation_of task0 user_input keep steps stride).
  set (simulation := simulation_of task0 user_input keep steps stride).
  cbn [task.scene merged_scene scene.width scene.height].
  set (nI := if need_images then _ else 0).
  set (nS := if need_featurized_objects then _ else 0).
  set (S := int_mul (scene.width (task.scene task0))
                    (scene.height (task.scene task0))).
  set (O := getNumObjects simulation).
  destruct (new_array Z (int_mul S nI)) as [imgs| |] eqn:A1;
    try (cbn; discriminate).
  rewrite bind_lift_ok.
  destruct (new_array Z (int_mul (int_mul S nI) O)) as [masks| |] eqn:A2;
    try (cbn; discriminate).
  rewrite bind_lift_ok.
  destruct (if 0 <? nI then _ else _)
    as [t1 [[[[imgs' masks'] a] b]| |]] eqn:St; try (cbn; discriminate).
  rewrite bind_ok. cbn [fst snd].
  destruct (new_array float (int_mul (int_mul O kObjectFeatureSize) nS))
    as [feats| |] eqn:A3; try (cbn; discriminate).
  rewrite bind_lift_ok.
  assert (Ft : exists t2 st2,
    (if 0 <? nS
     then featurize_frames O (task.sceneList simulation) (feats, 0)
     else ret (feats, 0)) = (t2, Ok st2) /\ renderTo_calls t2 = []).
  { destruct (0 <? nS).
    - destruct (featurize_frames_run O (task.sceneList simulation) feats 0)
        as [t2 [feats' [wi [E _]]]].
      exists t2, (feats', wi). split; [exact E|].
      pose proof (featurize_frames_calls O (task.sceneList simulation)
                    (feats, 0)) as C.
      rewrite E in C. exact C.
    - exists [], (feats, 0). split; reflexivity. }
  destruct Ft as [t2 [st2 [Ft C2]]].
  rewrite Ft, bind_ok. cbn [fst snd ret].
  intros [= <- <-].
  cbn [imageSize numImagesTotal numSceneObjects packedImages
       packedObjectMasks].
  exists t1, t2, imgs, masks, a, b.
  rewrite app_nil_r. split; [reflexivity|].
  split; [apply new_array_length; exact A2|].
  split; [exact St | exact C2].
Qed.

(** The loop over the frames, masks asked for and every frame fitting:
    the masks of frame [k] lie in the [k]-th run of
    [numSceneObjects * imageSize] cells, the mask of its [i]-th valid body
    [i * imageSize] cells into this run; what lies before the first run
    is kept. *)
Lemma pack_frames_masks (imageSize numSceneObjects : Z)
    (frames : list (scene.Scene G)) :
  forall (imgs masks : buffer Z) (iwi si : Z),
    Forall (frame_fits imageSize numSceneObjects) frames ->
    0 <= imageSize -> 0 <= numSceneObjects <= INT_MAX -> 0 <= si ->
    si + Z.of_nat (length frames) <= INT_MAX ->
    (si + Z.of_nat (length frames)) * numSceneObjects * imageSize
      <= INT_MAX ->
    (si + Z.of_nat (length frames)) * numSceneObjects * imageSize
      <= Z.of_nat (length masks) ->
    exists tr imgs' masks' a b,
      pack_frames true imageSize numSceneObjects frames
        (imgs, masks, iwi, si) = (tr, Ok (imgs', masks', a, b)) /\
      length masks' = length masks /\
      firstn (Z.to_nat (si * numSceneObjects * imageSize)) masks'
      = firstn (Z.to_nat (si * numSceneObjects * imageSize)) masks /\
      forall k f i body,
        nth_error frames k = Some f ->
        nth_error (valid_bodies f) i = Some body ->
        slice masks'
          (Z.to_nat (((si + Z.of_nat k) * numSceneObjects + Z.of_nat i)
                     * imageSize))
          (Z.to_nat imageSize)
        = map Some (mask_of f body).
Proof.
  induction frames as [|f0 frames IH];
    intros imgs masks iwi si Hfit HS HO Hsi Hn Hmax Hlen.
  - exists [], imgs, masks, iwi, si. split; [reflexivity|].
    split; [reflexivity|]. split; [reflexivity|].
    intros k f i body Hk. destruct k; discriminate.
  - cbn [pack_frames]. cbn [length] in *. rewrite Nat2Z.inj_succ in *.
    inversion Hfit as [|f0' frames' [HfS Hfn] Hfit' Eq]. subst f0' frames'.
    unfold pack_frame. rewrite bind_tell.
    assert (Hstart : int_mul (int_mul si numSceneObjects) imageSize
                     = si * numSceneObjects * imageSize).
    { apply int_mul_mul_small. unfold INT_MAX in *. nia. }
    rewrite Hstart.
    pose proof (renderAllObjectMasksTo_run f0 masks
                  (si * numSceneObjects * imageSize)) as R.
    cbv zeta in R. rewrite HfS in R. rewrite R by nia. clear R.
    rewrite bind_ok. cbn [fst snd ret]. rewrite app_nil_r.
    assert (Hsi1 : int_add si 1 = si + 1).
    { unfold int_add. apply int_wrap_small. unfold INT_MAX in *. lia. }
    rewrite Hsi1.
    pose proof (length_flat_map_mask_of f0 (valid_bodies f0)) as L0.
    rewrite HfS in L0. specialize (L0 HS).
    set (masks1 := blit masks
                     (Z.to_nat (si * numSceneObjects * imageSize))
                     (flat_map (mask_of f0) (valid_bodies f0))).
    assert (L1 : length masks1 = length masks).
    { apply length_blit. nia. }
    destruct (IH (renderTo f0 imgs iwi) masks1 (int_add iwi imageSize)
                 (si + 1) Hfit' HS HO)
      as [tr [imgs' [masks' [a [b [E [L [P Sl]]]]]]]];
      [lia | lia | nia | rewrite L1; nia |].
    rewrite bind_ok, E. cbn [fst snd].
    eexists _, imgs', masks', a, b. split; [reflexivity|].
    split; [congruence|].
    assert (P0 : firstn (Z.to_nat (si * numSceneObjects * imageSize)) masks'
                 = firstn (Z.to_nat (si * numSceneObjects * imageSize))
                     masks).
    { rewrite (firstn_prefix masks' masks1
                 (Z.to_nat (si * numSceneObjects * imageSize))
                 (Z.to_nat ((si + 1) * numSceneObjects * imageSize)))
        by (try exact P; nia).
      apply firstn_blit. nia. }
    split; [exact P0|].
    intros k f i body Hk Hi. destruct k as [|k].
    + cbn [nth_error] in Hk. injection Hk as <-.
      assert (Hil : (i < length (valid_bodies f0))%nat).
      { apply nth_error_Some. rewrite Hi. discriminate. }
      rewrite (slice_prefix masks' masks1 _ _
                 (Z.to_nat ((si + 1) * numSceneObjects * imageSize)))
        by (try exact P; nia).
      replace ((si + Z.of_nat 0) * numSceneObjects + Z.of_nat i)
        with (si * numSceneObjects + Z.of_nat i) by lia.
      replace ((si * numSceneObjects + Z.of_nat i) * imageSize)
        with (si * numSceneObjects * imageSize + Z.of_nat i * imageSize)
        by ring.
      pose proof (slice_mask f0 masks (si * numSceneObjects * imageSize)
                    (valid_bodies f0) i body) as Sm.
      rewrite HfS in Sm. apply Sm; try assumption; nia.
    + cbn [nth_error] in Hk.
      replace (si + Z.of_nat (S k)) with (si + 1 + Z.of_nat k) by lia.
      exact (Sl k f i body Hk Hi).
Qed.

End PackLayout.

Lemma nth_error_offsets (start step : Z) (n : nat) :
  forall k, (k < n)%nat ->
    nth_error (offsets start step n) k = Some (start + Z.of_nat k * step).
Proof.
  revert start. induction n as [|n IH]; intros start k Hk; [lia|].
  destruct k as [|k].
  - cbn. f_equal. lia.
  - cbn [offsets nth_error]. rewrite IH by lia. f_equal. lia.
Qed.

Lemma length_offsets (start step : Z) (n : nat) :
  length (offsets start step n) = n.
Proof.
  revert start. induction n as [|n IH]; intros start; [reflexivity|].
  cbn [offsets length]. rewrite IH. reflexivity.
Qed.

Lemma nth_error_combine_some {A B : Type} (l1 : list A) :
  forall (l2 : list B) (k : nat) (a : A) (b : B),
    nth_error l1 k = Some a -> nth_error l2 k = Some b ->
    nth_error (combine l1 l2) k = Some (a, b).
Proof.
  induction l1 as [|x l1 IH]; intros l2 k a b Ha Hb.
  - destruct k; discriminate.
  - destruct l2 as [|y l2]; [destruct k; discriminate|].
    destruct k as [|k].
    + cbn in *. congruence.
    + cbn [nth_error combine] in *. apply IH; assumption.
Qed.

Section LayoutExtras.

Context {float G T : Type} {engine : Engine float G T}.

(** X15.  In a run with [need_images] that returns, [renderTo] is called
    once per frame of the simulation, in the order of the frames, and the
    [k]-th frame is rendered [k * imageSize] bytes into the buffer of the
    images. *)
Theorem X15_frames_rendered_in_order (serialized_task : string)
    (user_input : scene.UserInput float) (keep_space_around_bodies : bool)
    (steps stride : Z) (need_featurized_objects need_object_masks : bool)
    (task0 : task.Task G T) (tr : list (event G)) (r : Result) :
  let simulation :=
    simulation_of task0 user_input keep_space_around_bodies steps stride in
  let frames := task.sceneList simulation in
  let F := Z.of_nat (length frames) in
  let S := int_mul (scene.width (task.scene task0))
                   (scene.height (task.scene task0)) in
  thrift_read_Task serialized_task = Some task0 ->
  0 <= S -> F <= INT_MAX -> F * S <= INT_MAX ->
  magic_ponies serialized_task user_input keep_space_around_bodies
    steps stride true need_featurized_objects need_object_masks
  = (tr, Ok r) ->
  length (renderTo_calls tr) = length frames /\
  forall k f,
    nth_error frames k = Some f ->
    nth_error (renderTo_calls tr) k = Some (f, Z.of_nat k * S).
Proof.
  intros simulation frames F S Hread HS HF HFS Hrun.
  unfold magic_ponies in Hrun. apply bind_inv_ok in Hrun.
  destruct Hrun as [t0 [p [t3 [Hpack [Hret ->]]]]].
  injection Hret as <- _. rewrite app_nil_r.
  destruct (magic_ponies_pack_inv _ _ _ _ _ _ _ _ task0 t0 p Hread Hpack)
    as [_ [_ [HnI [_ [HiS _]]]]].
  destruct (magic_ponies_pack_stages _ _ _ _ _ _ _ _ task0 t0 p Hread Hpack)
    as [t1 [t2 [imgs0 [masks0 [a [b [-> [_ [St C2]]]]]]]]].
  fold simulation in HnI, St. fold frames in HnI, St. fold S in HiS.
  assert (HFi : int_of_size (length frames) = F).
  { unfold int_of_size. apply int_wrap_small. unfold INT_MAX in *. lia. }
  rewrite HnI, HFi, HiS in St.
  assert (C : renderTo_calls
                ([EvDeserialize serialized_task;
                  EvMerge keep_space_around_bodies false;
                  EvSimulate steps stride] ++ t1 ++ t2)
              = combine frames (offsets 0 S (length frames))).
  { rewrite !renderTo_calls_app, C2, app_nil_r.
    cbn [renderTo_calls flat_map app].
    destruct (0 <? F) eqn:E.
    - apply (pack_frames_renderTo_calls _ _ _ _ _ _ _ _ _ _ St);
        [assumption | lia | fold F; lia].
    - apply Z.ltb_ge in E.
      assert (Hnil : frames = []).
      { destruct frames; [reflexivity|]. subst F. cbn [length] in E. lia. }
      rewrite Hnil. cbn in St. injection St as <-. reflexivity. }
  rewrite C. split.
  - rewrite length_combine, length_offsets. lia.
  - intros k f Hk.
    assert (Hlt : (k < length frames)%nat).
    { apply nth_error_Some. rewrite Hk. discriminate. }
    pose proof (nth_error_offsets 0 S (length frames) k Hlt) as Ho.
    rewrite Z.add_0_l in Ho.
    apply nth_error_combine_some; assumption.
Qed.

(** X16.  In a run with [need_images] and [need_object_masks] that
    returns, with [O] objects counted, and with every frame of the image
    size of the task and of [O] valid bodies at most: the mask of the
    [i]-th valid body of frame [k] is the [imageSize] bytes of the masks
    array from [(k * O + i) * imageSize] on.  This mask is the
    rasterization of the body alone, or zeros when that rasterization has
    another size. *)
Theorem X16_mask_of_frame_and_object (serialized_task : string)
    (user_input : scene.UserInput float) (keep_space_around_bodies : bool)
    (steps stride : Z) (need_featurized_objects : bool)
    (task0 : task.Task G T) (tr : list (event G)) (r : Result) :
  let simulation :=
    simulation_of task0 user_input keep_space_around_bodies steps stride in
  let frames := task.sceneList simulation in
  let F := Z.of_nat (length frames) in
  let O := getNumObjects simulation in
  let S := int_mul (scene.width (task.scene task0))
                   (scene.height (task.scene task0)) in
  thrift_read_Task serialized_task = Some task0 ->
  0 <= S -> 0 <= O -> F <= INT_MAX -> F * O * S <= INT_MAX ->
  Forall (frame_fits S O) frames ->
  magic_ponies serialized_task user_input keep_space_around_bodies
    steps stride true need_featurized_objects true = (tr, Ok r) ->
  forall k f i body,
    nth_error frames k = Some f ->
    nth_error (valid_bodies f) i = Some body ->
    slice (arr_data (r_packedObjectMasksArray r))
          (Z.to_nat ((Z.of_nat k * O + Z.of_nat i) * S)) (Z.to_nat S)
    = map Some (mask_of f body).
Proof.
  intros simulation frames F O S Hread HS HO HF HFOS Hfit Hrun
    k f i body Hk Hi.
  unfold magic_ponies in Hrun. apply bind_inv_ok in Hrun.
  destruct Hrun as [t0 [p [t3 [Hpack [Hret ->]]]]].
  injection Hret as <- <-.
  destruct (magic_ponies_pack_inv _ _ _ _ _ _ _ _ task0 t0 p Hread Hpack)
    as [_ [_ [HnI [_ [HiS [HnO _]]]]]].
  destruct (magic_ponies_pack_stages _ _ _ _ _ _ _ _ task0 t0 p Hread Hpack)
    as [t1 [t2 [imgs0 [masks0 [a [b [_ [Lm [St _]]]]]]]]].
  fold simulation in HnI, HnO, St. fold frames in HnI, St.
  fold S in HiS. fold O in HnO.
  assert (HFi : int_of_size (length frames) = F).
  { unfold int_of_size. apply int_wrap_small. unfold INT_MAX in *. lia. }
  rewrite HnI, HFi, HiS, HnO in St, Lm.
  assert (Hlt : (k < length frames)%nat).
  { apply nth_error_Some. rewrite Hk. discriminate. }
  assert (HO' : O <= INT_MAX) by apply getNumObjects_le.
  assert (E : (0 <? F) = true) by (apply Z.ltb_lt; subst F; lia).
  rewrite E in St. cbv iota in St.
  rewrite int_mul_mul_small in Lm by (unfold INT_MAX in *; nia).
  destruct (pack_frames_masks S O frames imgs0 masks0 0 0 Hfit HS)
    as [tr' [imgs' [masks' [a' [b' [E' [_ [_ Sl]]]]]]]];
    try lia; try nia.
  pose proof (eq_trans (eq_sym St) E') as Eq.
  injection Eq as _ _ Em _ _.
  unfold magic_ponies_arrays. cbn [r_packedObjectMasksArray arr_data].
  rewrite Em. exact (Sl k f i body Hk Hi).
Qed.

End LayoutExtras.

(** ** The entry points *)

Section EntryExtras.

Context {float G T : Type} {engine : Engine float G T}
        {codec : Codec float G}.

Lemma deserialize_run {A : Type} (read : string -> option A)
    (serialized : string) :
  deserialize (G := G) read serialized
  = ([EvDeserialize serialized],
     match read serialized with
     | Some object => Ok object
     | None => Throw thrift_exception
     end).
Proof. unfold deserialize. rewrite bind_tell. reflexivity. Qed.

(** X17.  Once the user input is built and the task decoded,
    [check_for_occlusions] decodes and merges, with occlusions not
    allowed, and does nothing else; it returns [true] exactly when the
    merge does not report a clean placement. *)
Theorem X17_check_for_occlusions_result (serialized_task : string)
    (points : array_int32) (rects balls : list float) (keep : bool)
    (user_input : scene.UserInput float) (task0 : task.Task G T) :
  buildUserInputObject points rects balls = Ok user_input ->
  thrift_read_Task serialized_task = Some task0 ->
  check_for_occlusions serialized_task points rects balls keep
  = ([EvDeserialize serialized_task; EvMerge keep false],
     Ok (negb (fst (mergeUserInputIntoScene user_input
                      (scene.bodies (task.scene task0)) keep false
                      (scene.height (task.scene task0))
                      (scene.width (task.scene task0)))))).
Proof.
  intros Hbuild Hread. unfold check_for_occlusions.
  rewrite Hbuild, bind_lift_ok.
  rewrite deserialize_Task_run, Hread, bind_ok. cbn [fst snd].
  rewrite addUserInputToScene_run, bind_ok. cbn [fst snd ret app].
  unfold merged_scene. cbn [scene.user_input_status].
  destruct (fst (mergeUserInputIntoScene _ _ _ _ _ _)); reflexivity.
Qed.

(** X18.  [check_for_occlusions_general] on the bytes of a user input
    gives what [check_for_occlusions] gives on arrays from which this user
    input is built, after one more decoding. *)
Theorem X18_check_for_occlusions_general_agrees (serialized_task : string)
    (serialized_user_input : string)
    (points : array_int32) (rects balls : list float) (keep : bool)
    (user_input : scene.UserInput float) :
  buildUserInputObject points rects balls = Ok user_input ->
  thrift_read_UserInput serialized_user_input = Some user_input ->
  check_for_occlusions_general serialized_task serialized_user_input keep
  = (EvDeserialize serialized_user_input
       :: fst (check_for_occlusions serialized_task points rects balls keep),
     snd (check_for_occlusions serialized_task points rects balls keep)).
Proof.
  intros Hbuild Hread.
  unfold check_for_occlusions_general, check_for_occlusions.
  rewrite Hbuild, bind_lift_ok, deserialize_run, Hread, bind_ok.
  reflexivity.
Qed.

(** X19.  [magic_ponies_general] on the bytes of a user input gives what
    the entry point [magic_ponies] gives on arrays from which this user
    input is built, after one more decoding. *)
Theorem X19_magic_ponies_general_agrees (serialized_task : string)
    (serialized_user_input : string)
    (points : array_int32) (rects balls : list float) (keep : bool)
    (steps stride : Z)
    (need_images need_featurized_objects need_object_masks : bool)
    (user_input : scene.UserInput float) :
  buildUserInputObject points rects balls = Ok user_input ->
  thrift_read_UserInput serialized_user_input = Some user_input ->
  magic_ponies_general serialized_task serialized_user_input keep
    steps stride need_images need_featurized_objects need_object_masks
  = (EvDeserialize serialized_user_input
       :: fst (magic_ponies_binding serialized_task points rects balls keep
                 steps stride need_images need_featurized_objects
                 need_object_masks),
     snd (magic_ponies_binding serialized_task points rects balls keep
            steps stride need_images need_featurized_objects
            need_object_masks)).
Proof.
  intros Hbuild Hread.
  unfold magic_ponies_general, magic_ponies_binding.
  rewrite Hbuild, bind_lift_ok, deserialize_run, Hread, bind_ok.
  reflexivity.
Qed.

(** X20.  [add_user_input_to_scene] decodes the scene, then the user
    input, merges with the flag [allow_occlusions] that it is given, and
    returns the bytes of the merged scene.  When the scene does not decode
    the user input is not read; when either does not decode nothing is
    merged. *)
Theorem X20_add_user_input_to_scene (scene_serialized : string)
    (user_input_serialized : string) (keep allow : bool) :
  match thrift_read_Scene scene_serialized,
        thrift_read_UserInput user_input_serialized with
  | Some s, Some user_input =>
      add_user_input_to_scene scene_serialized user_input_serialized
        keep allow
      = ([EvDeserialize scene_serialized;
          EvDeserialize user_input_serialized;
          EvMerge keep allow],
         Ok (thrift_write_Scene (merged_scene user_input keep allow s)))
  | Some s, None =>
      add_user_input_to_scene scene_serialized user_input_serialized
        keep allow
      = ([EvDeserialize scene_serialized;
          EvDeserialize user_input_serialized],
         Throw thrift_exception)
  | None, _ =>
      add_user_input_to_scene scene_serialized user_input_serialized
        keep allow
      = ([EvDeserialize scene_serialized], Throw thrift_exception)
  end.
Proof.
  unfold add_user_input_to_scene. rewrite !deserialize_run.
  destruct (thrift_read_Scene scene_serialized) as [s|]; [|reflexivity].
  rewrite bind_ok. cbn [fst snd].
  destruct (thrift_read_UserInput user_input_serialized) as [ui|];
    [|reflexivity].
  rewrite bind_ok. cbn [fst snd].
  rewrite addUserInputToScene_run, bind_ok. reflexivity.
Qed.

(** X21.  [render] on a scene whose width times height is not negative
    calls [renderTo] once, at the start of a vector of zeros, and returns
    width times height pixels; on a negative product the vector cannot be
    built and [renderTo] is not called. *)
Theorem X21_render_returns_image_size (scene_serialized : string)
    (s : scene.Scene G) :
  thrift_read_Scene scene_serialized = Some s ->
  let imageSize := int_mul (scene.width s) (scene.height s) in
  (0 <= imageSize ->
   exists pixels,
     render_binding scene_serialized
     = ([EvDeserialize scene_serialized; EvRenderTo s 0],
        Ok (Some pixels)) /\
     pixels = renderTo s (repeat (Some 0) (Z.to_nat imageSize)) 0 /\
     Z.of_nat (length pixels) = imageSize) /\
  (imageSize < 0 ->
   render_binding scene_serialized
   = ([EvDeserialize scene_serialized], Ok None)).
Proof.
  intros Hread imageSize. unfold render_binding.
  rewrite deserialize_run, Hread, bind_ok. cbn [fst snd].
  fold imageSize. unfold new_vector. split; intros Hsize.
  - destruct (imageSize <? 0) eqn:E; [apply Z.ltb_lt in E; lia|].
    rewrite bind_tell. cbn [fst snd ret app].
    eexists. split; [reflexivity|]. split; [reflexivity|].
    rewrite renderTo_length, repeat_length. lia.
  - destruct (imageSize <? 0) eqn:E; [|apply Z.ltb_ge in E; lia].
    reflexivity.
Qed.

(** X22.  [featurize_scene] on a scene whose object count times the
    feature size fits an [int] calls the featurizer once, at the start of
    a vector of zeros, and returns as many floats as the number of bodies
    of the scene that are not undefined, times the feature size. *)
Theorem X22_featurize_scene_returns_count (zero : float)
    (scene_serialized : string) (s : scene.Scene G) :
  thrift_read_Scene scene_serialized = Some s ->
  let n := Z.of_nat (length (valid_bodies s)) in
  0 <= kObjectFeatureSize -> n <= INT_MAX ->
  n * kObjectFeatureSize <= INT_MAX ->
  exists features,
    featurize_scene_binding zero scene_serialized
    = ([EvDeserialize scene_serialized; EvFeaturize s 0],
       Ok (Some features)) /\
    Z.of_nat (length features) = n * kObjectFeatureSize.
Proof.
  intros Hread n Hk Hn Hnk. unfold featurize_scene_binding.
  rewrite deserialize_run, Hread, bind_ok. cbn [fst snd].
  rewrite (getNumObjectsInScene_count s Hn). fold (valid_bodies s). fold n.
  assert (Hm : int_mul n kObjectFeatureSize = n * kObjectFeatureSize).
  { unfold int_mul. apply int_wrap_small. unfold INT_MAX in *. nia. }
  rewrite Hm. unfold new_vector.
  destruct (n * kObjectFeatureSize <? 0) eqn:E; [apply Z.ltb_lt in E; nia|].
  rewrite bind_tell. cbn [fst snd ret app].
  eexists. split; [reflexivity|].
  rewrite featurizeScene_length, repeat_length. nia.
Qed.

End EntryExtras.

(** ** A frame with more objects than the first *)

Section GrowingFrames.

Context {float G T : Type} {engine : Engine float G T}.

Lemma bind_assoc {A B C : Type} (m : M G A) (k : A -> M G B)
    (h : B -> M G C) :
  bind (bind m k) h = bind m (fun a => bind (k a) h).
Proof.
  destruct m as [t [a| |]]; try reflexivity.
  cbn [bind]. destruct (k a) as [t' [b| |]]; try reflexivity.
  cbn [bind]. destruct (h b) as [t'' r]. rewrite app_assoc. reflexivity.
Qed.

Lemma bind_ext {A B : Type} (m : M G A) (k k' : A -> M G B) :
  (forall a, k a = k' a) -> bind m k = bind m k'.
Proof.
  intros Hk. destruct m as [t [a| |]]; try reflexivity.
  cbn [bind]. rewrite Hk. reflexivity.
Qed.

Lemma pack_frames_app (need_object_masks : bool)
    (imageSize numSceneObjects : Z) (fs1 fs2 : list (scene.Scene G)) :
  forall st,
    pack_frames need_object_masks imageSize numSceneObjects (fs1 ++ fs2) st
    = bind (pack_frames need_object_masks imageSize numSceneObjects fs1 st)
           (pack_frames need_object_masks imageSize numSceneObjects fs2).
Proof.
  induction fs1 as [|f fs1 IH]; intros st.
  - cbn [app pack_frames]. rewrite bind_ret. reflexivity.
  - cbn [app pack_frames]. rewrite bind_assoc.
    apply bind_ext. exact IH.
Qed.

(** The scene index after the loop. *)
Lemma pack_frames_index (need_object_masks : bool)
    (imageSize numSceneObjects : Z) (frames : list (scene.Scene G)) :
  forall (imgs masks imgs' masks' : buffer Z) (iwi si a b : Z) tr,
    pack_frames need_object_masks imageSize numSceneObjects frames
      (imgs, masks, iwi, si) = (tr, Ok (imgs', masks', a, b)) ->
    0 <= si -> si + Z.of_nat (length frames) <= INT_MAX ->
    b = si + Z.of_nat (length frames).
Proof.
  induction frames as [|f frames IH];
    intros imgs masks imgs' masks' iwi si a b tr E Hsi Hmax.
  - cbn in E. injection E as _ _ _ _ <-. cbn [length]. lia.
  - cbn [pack_frames] in E. apply bind_inv_ok in E.
    destruct E as [t1 [st1 [t2 [E1 [E2 _]]]]].
    apply pack_frame_inv in E1. destruct E1 as [m [-> _]].
    cbn [length] in *. rewrite Nat2Z.inj_succ in *.
    assert (Hsi1 : int_add si 1 = si + 1).
    { unfold int_add. apply int_wrap_small. unfold INT_MAX in *. lia. }
    rewrite Hsi1 in E2.
    rewrite (IH _ _ _ _ _ _ _ _ _ E2) by lia. lia.
Qed.

(** X23.  The object count is taken from the first frame.  When the last
    frame of the simulation has more valid bodies than that, the masks of
    this frame do not fit the buffer and a run with images and masks
    stores a mask past its end. *)
Theorem X23_more_objects_than_first_frame (serialized_task : string)
    (user_input : scene.UserInput float) (keep_space_around_bodies : bool)
    (steps stride : Z) (need_featurized_objects : bool)
    (task0 : task.Task G T) (earlier : list (scene.Scene G))
    (last : scene.Scene G) :
  let simulation :=
    simulation_of task0 user_input keep_space_around_bodies steps stride in
  let F := Z.of_nat (length (task.sceneList simulation)) in
  let O := getNumObjects simulation in
  let S := int_mul (scene.width (task.scene task0))
                   (scene.height (task.scene task0)) in
  let n := Z.of_nat (length (valid_bodies last)) in
  thrift_read_Task serialized_task = Some task0 ->
  task.sceneList simulation = earlier ++ [last] ->
  Forall (frame_fits S O) earlier ->
  int_mul (scene.width last) (scene.height last) = S ->
  0 < S -> 0 <= O -> O < n -> n <= INT_MAX ->
  F <= INT_MAX -> F * S <= INT_MAX ->
  (F - 1) * O * S + n * S <= INT_MAX ->
  snd (magic_ponies serialized_task user_input keep_space_around_bodies
         steps stride true need_featurized_objects true)
  = Undefined.
Proof.
  intros simulation F O S n Hread Hframes Hfit HlS HS HO Hn HnM HF HFS Hmax.
  assert (HO' : O <= INT_MAX) by apply getNumObjects_le.
  assert (HFe : F = Z.of_nat (length earlier) + 1).
  { subst F. rewrite Hframes, length_app. cbn [length]. lia. }
  assert (HFi : int_of_size (length (task.sceneList simulation)) = F).
  { unfold int_of_size. apply int_wrap_small. unfold INT_MAX in *. lia. }
  unfold magic_ponies. apply bind_undefined.
  unfold magic_ponies_pack.
  rewrite deserialize_Task_run, Hread, bind_ok. cbn [fst snd].
  rewrite addUserInputToScene_run, bind_ok. cbn [fst snd].
  rewrite bind_tell. cbn [fst snd].
  fold (simulation_of task0 user_input keep_space_around_bodies
          steps stride). fold simulation.
  cbn [task.scene merged_scene scene.width scene.height].
  fold S. fold O. rewrite HFi.
  assert (B1 : 0 <= S * F <= INT_MAX) by (unfold INT_MAX in *; nia).
  assert (B2 : 0 <= S * F * O <= INT_MAX) by (unfold INT_MAX in *; nia).
  assert (A1 : int_mul S F = S * F).
  { unfold int_mul. apply int_wrap_small. unfold INT_MAX in *. lia. }
  assert (A2 : int_mul (int_mul S F) O = S * F * O).
  { apply int_mul_mul_small. unfold INT_MAX in *. lia. }
  rewrite A2, A1, !new_array_ok by lia.
  rewrite !bind_lift_ok.
  assert (E : (0 <? F) = true) by (apply Z.ltb_lt; lia).
  rewrite E. cbv iota.
  apply bind_undefined.
  rewrite Hframes, pack_frames_app.
  destruct (pack_frames_returns true S O earlier
              (repeat None (Z.to_nat (S * F)))
              (repeat None (Z.to_nat (S * F * O))) 0 0)
    as [t1 [[[[imgs1 masks1] a] b] [E1 _]]];
    try lia; try nia.
  { intros _. exact Hfit. }
  { rewrite repeat_length. nia. }
  rewrite E1, bind_ok. cbn [fst snd].
  pose proof (pack_frames_length _ _ _ _ _ _ _ _ _ _ _ _ _ E1) as [_ Lm].
  rewrite repeat_length in Lm.
  pose proof (pack_frames_index _ _ _ _ _ _ _ _ _ _ _ _ _ E1) as Hb.
  rewrite Hb by lia. clear Hb.
  cbn [pack_frames]. apply bind_undefined.
  unfold pack_frame. rewrite bind_tell. cbn [fst snd].
  apply bind_undefined.
  rewrite int_mul_mul_small by (unfold INT_MAX in *; nia).
  pose proof (masks_overflow_short_buffer last masks1
                ((0 + Z.of_nat (length earlier)) * O * S)) as U.
  cbv zeta in U. rewrite HlS in U. apply U; try lia; try nia.
Qed.

End GrowingFrames.


(** ** The layout of the features *)

Section FeatureLayout.

Context {float G T : Type} {engine : Engine float G T}.

Lemma featurize_calls_app (t1 t2 : list (event G)) :
  featurize_calls (t1 ++ t2) = featurize_calls t1 ++ featurize_calls t2.
Proof. apply flat_map_app. Qed.

Lemma pack_events_no_featurize (tr : list (event G)) :
  Forall (fun e => is_pack_event e = true) tr ->
  Forall (fun e => match e with EvFeaturize _ _ => False | _ => True end) tr ->
  featurize_calls tr = [].
Proof.
  intros _. induction 1 as [|e tr He _ IH]; [reflexivity|].
  unfold featurize_calls in *. cbn [flat_map]. rewrite IH.
  destruct e; try reflexivity. contradiction.
Qed.

Lemma pack_frames_no_featurize (need_object_masks : bool)
    (imageSize numSceneObjects : Z) (frames : list (scene.Scene G)) :
  forall st,
    Forall (fun e => match e with EvFeaturize _ _ => False | _ => True end)
      (fst (pack_frames need_object_masks imageSize numSceneObjects
              frames st)).
Proof.
  induction frames as [|f frames IH]; intros st; [constructor|].
  cbn [pack_frames]. apply bind_trace; [|intros st'; apply IH].
  destruct st as [[[imgs masks] iwi] si]. unfold pack_frame.
  rewrite bind_tell. cbn [fst]. constructor; [exact I|].
  apply bind_trace; [|intros m; constructor].
  destruct need_object_masks; [|constructor].
  eapply Forall_impl; [|apply renderAllObjectMasksTo_trace].
  intros e He. destruct e; try discriminate; exact I.
Qed.

(** The feature loop hands the frames to the featurizer in order, the
    first at [writeIndex] and each next one
    [kObjectFeatureSize * numSceneObjects] further. *)
Lemma featurize_frames_calls_in_order (numSceneObjects : Z)
    (frames : list (scene.Scene G)) :
  forall (buf : buffer float) (wi : Z),
    0 <= kObjectFeatureSize * numSceneObjects ->
    0 <= wi ->
    wi + Z.of_nat (length frames) * (kObjectFeatureSize * numSceneObjects)
      <= INT_MAX ->
    featurize_calls (fst (featurize_frames numSceneObjects frames (buf, wi)))
    = combine frames
        (offsets wi (kObjectFeatureSize * numSceneObjects) (length frames)).
Proof.
  induction frames as [|f frames IH]; intros buf wi Hstep Hwi Hmax;
    [reflexivity|].
  cbn [featurize_frames]. rewrite bind_tell. cbn [fst].
  cbn [length] in Hmax. rewrite Nat2Z.inj_succ in Hmax.
  assert (Hm : int_mul kObjectFeatureSize numSceneObjects
               = kObjectFeatureSize * numSceneObjects).
  { unfold int_mul. apply int_wrap_small. unfold INT_MAX in *. nia. }
  assert (Ha : int_add wi (kObjectFeatureSize * numSceneObjects)
               = wi + kObjectFeatureSize * numSceneObjects).
  { unfold int_add. apply int_wrap_small. unfold INT_MAX in *. nia. }
  rewrite Hm, Ha.
  unfold featurize_calls in *. cbn [flat_map app length offsets combine].
  f_equal. apply IH; nia.
Qed.

(** X24.  In a run with [need_featurized_objects] that returns, the
    featurizer is called once per frame of the simulation, in the order of
    the frames, and the [k]-th frame is featurized
    [k * kObjectFeatureSize * O] floats into the buffer of the features,
    [O] being the object count. *)
Theorem X24_frames_featurized_in_order (serialized_task : string)
    (user_input : scene.UserInput float) (keep_space_around_bodies : bool)
    (steps stride : Z) (need_images need_object_masks : bool)
    (task0 : task.Task G T) (tr : list (event G)) (r : Result) :
  let simulation :=
    simulation_of task0 user_input keep_space_around_bodies steps stride in
  let frames := task.sceneList simulation in
  let F := Z.of_nat (length frames) in
  let O := getNumObjects simulation in
  thrift_read_Task serialized_task = Some task0 ->
  0 <= O -> 0 <= kObjectFeatureSize -> F <= INT_MAX ->
  F * (kObjectFeatureSize * O) <= INT_MAX ->
  magic_ponies serialized_task user_input keep_space_around_bodies
    steps stride need_images true need_object_masks = (tr, Ok r) ->
  length (featurize_calls tr) = length frames /\
  forall k f,
    nth_error frames k = Some f ->
    nth_error (featurize_calls tr) k
    = Some (f, Z.of_nat k * (kObjectFeatureSize * O)).
Proof.
  intros simulation frames F O Hread HO Hk HF HFkO Hrun.
  assert (HFi : int_of_size (length frames) = F).
  { unfold int_of_size. apply int_wrap_small. unfold INT_MAX in *. lia. }
  assert (C : featurize_calls tr
              = combine frames
                  (offsets 0 (kObjectFeatureSize * O) (length frames))).
  { revert Hrun. unfold magic_ponies, magic_ponies_pack.
    rewrite deserialize_Task_run, Hread, bind_ok. cbn [fst snd].
    rewrite addUserInputToScene_run, bind_ok. cbn [fst snd].
    rewrite bind_tell. cbn [fst snd].
    fold (simulation_of task0 user_input keep_space_around_bodies
            steps stride). fold simulation. fold frames.
    cbn [task.scene merged_scene scene.width scene.height].
    fold O. rewrite HFi.
    set (nI := if need_images then F else 0).
    set (S := int_mul (scene.width (task.scene task0))
                      (scene.height (task.scene task0))).
    destruct (new_array Z (int_mul S nI)) as [imgs| |];
      try (cbn; discriminate).
    rewrite bind_lift_ok.
    destruct (new_array Z (int_mul (int_mul S nI) O)) as [masks| |];
      try (cbn; discriminate).
    rewrite bind_lift_ok.
    match goal with
    | |- context [bind (if 0 <? nI then ?x else ?y) _] =>
        assert (T1 : featurize_calls (fst (if 0 <? nI then x else y)) = [])
    end.
    { destruct (0 <? nI); [|reflexivity].
      apply pack_events_no_featurize;
        [apply pack_frames_trace | apply pack_frames_no_featurize]. }
    destruct (if 0 <? nI then _ else _)
      as [t1 [[[[imgs' masks'] a] b]| |]]; try (cbn; discriminate).
    cbn [fst] in T1.
    rewrite bind_ok. cbn [fst snd].
    destruct (new_array float (int_mul (int_mul O kObjectFeatureSize) F))
      as [feats| |]; try (cbn; discriminate).
    rewrite bind_lift_ok.
    pose proof (featurize_frames_calls_in_order O frames feats 0) as T2.
    destruct (featurize_frames_run O frames feats 0)
      as [t2 [feats' [wi [Ft _]]]].
    rewrite Ft in T2. cbn [fst] in T2.
    destruct (0 <? F) eqn:E.
    - rewrite Ft, bind_ok. cbn [fst snd ret]. rewrite bind_ok.
      cbn [fst snd ret]. intros [= <- _].
      specialize (T2 ltac:(nia) ltac:(lia) ltac:(nia)).
      unfold featurize_calls in *. cbn [app flat_map].
      rewrite !app_nil_r, !flat_map_app, T1, T2. reflexivity.
    - apply Z.ltb_ge in E.
      assert (Hnil : frames = []).
      { destruct frames; [reflexivity|]. subst F. cbn [length] in E. lia. }
      rewrite bind_ret. cbn [fst snd ret]. rewrite bind_ok.
      cbn [fst snd ret]. intros [= <- _].
      unfold featurize_calls in *. cbn [app flat_map].
      rewrite !app_nil_r, T1, Hnil. reflexivity. }
  rewrite C. split.
  - rewrite length_combine, length_offsets. lia.
  - intros k f Hkf.
    assert (Hlt : (k < length frames)%nat).
    { apply nth_error_Some. rewrite Hkf. discriminate. }
    pose proof (nth_error_offsets 0 (kObjectFeatureSize * O)
                  (length frames) k Hlt) as Ho.
    rewrite Z.add_0_l in Ho.
    apply nth_error_combine_some; assumption.
Qed.

End FeatureLayout.

Lemma X24_frames_featurized_in_order_witness :
  exists tr r,
    magic_ponies (engine := Toy.toy_engine)
      "task" Toy.toy_input true 2 1 false true false = (tr, Ok r) /\
    map snd (featurize_calls tr) = [0; 42].
Proof.
  destruct (magic_ponies (engine := Toy.toy_engine)
              "task" Toy.toy_input true 2 1 false true false)
    as [tr [r| |]] eqn:Hrun; try (vm_compute in Hrun; discriminate).
  exists tr, r. split; [reflexivity|].
  destruct (X24_frames_featurized_in_order (engine := Toy.toy_engine)
              "task" Toy.toy_input true 2 1 false false
              (task.Build_Task Toy.toy_scene tt) tr r)
    as [Hlen Hnth]; try (vm_compute; discriminate); try reflexivity.
  - exact Hrun.
  - pose proof (Hnth 0%nat _ eq_refl) as H0.
    pose proof (Hnth 1%nat _ eq_refl) as H1.
    destruct (featurize_calls tr) as [|c0 [|c1 [|c2 l]]];
      try discriminate Hlen.
    cbn in H0, H1. injection H0 as ->. injection H1 as ->. reflexivity.
Defined.

(** ** The further properties on the small engine *)

Lemma X9_run_without_outputs_witness :
  snd (magic_ponies (engine := Toy.toy_engine)
         "task" Toy.toy_input true 2 1 false false true)
  = Ok {| r_isSolved := true;
          r_hadOcclusions := false;
          r_packedImagesArray := Build_py_array 0 [];
          r_packedObjectMasksArray := Build_py_array 0 [];
          r_numSceneObjects := 3;
          r_packedObjectsArray := Build_py_array 0 [];
          r_numSceneObjects' := 3 |}.
Proof.
  rewrite (X9_run_without_outputs (engine := Toy.toy_engine)
             "task" Toy.toy_input true 2 1 true
             (task.Build_Task Toy.toy_scene tt) eq_refl).
  reflexivity.
Defined.

Lemma X10_decode_failure_propagates_witness :
  check_for_occlusions (engine := Toy.toy_engine)
    "bad" (points_of_rows []) [] [1; 2; 3] true
  = ([EvDeserialize "bad"], Throw thrift_exception).
Proof.
  exact (proj2 (proj2 (X10_decode_failure_propagates
                         (engine := Toy.toy_engine)
                         "bad" Toy.toy_input true 2 1 true true true
                         (points_of_rows []) [] [1; 2; 3]
                         eq_refl eq_refl))).
Defined.

Lemma X11_size_of_features_witness :
  exists tr r,
    magic_ponies (engine := Toy.toy_engine)
      "task" Toy.toy_input true 2 1 false true false = (tr, Ok r) /\
    arr_shape (r_packedObjectsArray r) = 84.
Proof.
  destruct (magic_ponies (engine := Toy.toy_engine)
              "task" Toy.toy_input true 2 1 false true false)
    as [tr [r| |]] eqn:Hrun; try (vm_compute in Hrun; discriminate).
  exists tr, r. split; [reflexivity|].
  apply (X11_size_of_features (engine := Toy.toy_engine)
           "task" Toy.toy_input true 2 1 false false
           (task.Build_Task Toy.toy_scene tt) tr r);
    try (vm_compute; discriminate); try reflexivity.
  exact Hrun.
Defined.

Lemma X12_no_masks_when_not_asked_witness :
  filter is_render
    (fst (magic_ponies (engine := Toy.toy_engine)
            "task" Toy.toy_input true 2 1 true true false)) = [] /\
  exists r,
    snd (magic_ponies (engine := Toy.toy_engine)
           "task" Toy.toy_input true 2 1 true true false) = Ok r /\
    arr_data (r_packedObjectMasksArray r) = [].
Proof.
  pose proof (X12_no_masks_when_not_asked (engine := Toy.toy_engine)
                "task" Toy.toy_input true 2 1 true true) as [Htr Hr].
  split; [exact Htr|].
  destruct (snd (magic_ponies (engine := Toy.toy_engine)
                   "task" Toy.toy_input true 2 1 true true false))
    as [r| |] eqn:Hrun; try (vm_compute in Hrun; discriminate).
  exists r. split; [reflexivity|]. exact (proj2 (Hr r eq_refl)).
Defined.

Lemma X13_decode_merge_simulate_then_pack_witness :
  exists rest,
    fst (magic_ponies (engine := Toy.toy_engine)
           "task" Toy.toy_input true 2 1 true true true)
    = [EvDeserialize "task"; EvMerge true false; EvSimulate 2 1] ++ rest /\
    Forall (fun e => is_pack_event e = true) rest.
Proof.
  exact (X13_decode_merge_simulate_then_pack (engine := Toy.toy_engine)
           "task" Toy.toy_input true 2 1 true true true
           (task.Build_Task Toy.toy_scene tt) eq_refl).
Defined.

Lemma X14_scalars_of_a_run_witness :
  exists tr r,
    magic_ponies (engine := Toy.toy_engine)
      "task" Toy.toy_input true 2 1 true false true = (tr, Ok r) /\
    r_isSolved r = true /\ r_numSceneObjects r = 3.
Proof.
  destruct (magic_ponies (engine := Toy.toy_engine)
              "task" Toy.toy_input true 2 1 true false true)
    as [tr [r| |]] eqn:Hrun; try (vm_compute in Hrun; discriminate).
  exists tr, r. split; [reflexivity|].
  destruct (X14_scalars_of_a_run (engine := Toy.toy_engine)
              "task" Toy.toy_input true 2 1 true false true
              (task.Build_Task Toy.toy_scene tt) tr r eq_refl Hrun)
    as [Hs [_ [Hn _]]].
  split; [exact Hs | exact Hn].
Defined.

Lemma X15_frames_rendered_in_order_witness :
  exists tr r,
    magic_ponies (engine := Toy.toy_engine)
      "task" Toy.toy_input true 2 1 true false true = (tr, Ok r) /\
    map snd (renderTo_calls tr) = [0; 4].
Proof.
  destruct (magic_ponies (engine := Toy.toy_engine)
              "task" Toy.toy_input true 2 1 true false true)
    as [tr [r| |]] eqn:Hrun; try (vm_compute in Hrun; discriminate).
  exists tr, r. split; [reflexivity|].
  destruct (X15_frames_rendered_in_order (engine := Toy.toy_engine)
              "task" Toy.toy_input true 2 1 false true
              (task.Build_Task Toy.toy_scene tt) tr r)
    as [Hlen Hnth]; try (vm_compute; discriminate); try reflexivity.
  - exact Hrun.
  - pose proof (Hnth 0%nat _ eq_refl) as H0.
    pose proof (Hnth 1%nat _ eq_refl) as H1.
    destruct (renderTo_calls tr) as [|c0 [|c1 [|c2 l]]];
      try discriminate Hlen.
    cbn in H0, H1. injection H0 as ->. injection H1 as ->. reflexivity.
Defined.

Lemma X16_mask_of_frame_and_object_witness :
  exists tr r,
    magic_ponies (engine := Toy.toy_engine)
      "task" Toy.toy_input true 2 1 true false true = (tr, Ok r) /\
    slice (arr_data (r_packedObjectMasksArray r)) 20 4
    = [Some 3; Some 3; Some 3; Some 3].
Proof.
  destruct (magic_ponies (engine := Toy.toy_engine)
              "task" Toy.toy_input true 2 1 true false true)
    as [tr [r| |]] eqn:Hrun; try (vm_compute in Hrun; discriminate).
  exists tr, r. split; [reflexivity|].
  assert (Hfit : Forall (frame_fits 4 3)
            (task.sceneList
               (simulation_of (engine := Toy.toy_engine)
                  (task.Build_Task Toy.toy_scene tt) Toy.toy_input
                  true 2 1))).
  { repeat (constructor;
            [split; [reflexivity | vm_compute; discriminate]|]).
    constructor. }
  assert (H0 : 0 <= 4) by (vm_compute; discriminate).
  assert (H1 : 0 <= 3) by (vm_compute; discriminate).
  assert (H2 : 2 <= INT_MAX) by (vm_compute; discriminate).
  assert (H3 : 2 * 3 * 4 <= INT_MAX) by (vm_compute; discriminate).
  exact (X16_mask_of_frame_and_object (engine := Toy.toy_engine)
           "task" Toy.toy_input true 2 1 false
           (task.Build_Task Toy.toy_scene tt) tr r eq_refl
           H0 H1 H2 H3 Hfit Hrun 1%nat
           (merged_scene (engine := Toy.toy_engine)
              Toy.toy_input true false Toy.toy_scene)
           2%nat (scene.Build_Body (scene.Shape 1) 3)
           eq_refl eq_refl).
Defined.

Lemma X17_check_for_occlusions_result_witness :
  check_for_occlusions (engine := Toy.toy_engine)
    "task" (points_of_rows []) [] [1; 2; 3] true
  = ([EvDeserialize "task"; EvMerge true false], Ok false).
Proof.
  exact (X17_check_for_occlusions_result (engine := Toy.toy_engine)
           "task" (points_of_rows []) [] [1; 2; 3] true
           Toy.toy_input (task.Build_Task Toy.toy_scene tt)
           eq_refl eq_refl).
Defined.

Lemma X18_check_for_occlusions_general_agrees_witness :
  check_for_occlusions_general (engine := Toy.toy_engine)
    (codec := ToyCodec.toy_codec) "task" "input" true
  = ([EvDeserialize "input"; EvDeserialize "task"; EvMerge true false],
     Ok false).
Proof.
  exact (X18_check_for_occlusions_general_agrees
           (engine := Toy.toy_engine) (codec := ToyCodec.toy_codec)
           "task" "input" (points_of_rows []) [] [1; 2; 3] true
           Toy.toy_input eq_refl eq_refl).
Defined.

Lemma X19_magic_ponies_general_agrees_witness :
  snd (magic_ponies_general (engine := Toy.toy_engine)
         (codec := ToyCodec.toy_codec)
         "task" "input" true 2 1 false false false)
  = snd (magic_ponies_binding (engine := Toy.toy_engine)
           "task" (points_of_rows []) [] [1; 2; 3] true 2 1
           false false false).
Proof.
  rewrite (X19_magic_ponies_general_agrees
             (engine := Toy.toy_engine) (codec := ToyCodec.toy_codec)
             "task" "input" (points_of_rows []) [] [1; 2; 3] true 2 1
             false false false Toy.toy_input eq_refl eq_refl).
  reflexivity.
Defined.

Lemma X21_render_returns_image_size_witness :
  exists pixels,
    render_binding (engine := Toy.toy_engine) (codec := ToyCodec.toy_codec)
      "scene"
    = ([EvDeserialize "scene"; EvRenderTo Toy.toy_scene 0],
       Ok (Some pixels)) /\
    Z.of_nat (length pixels) = 4.
Proof.
  destruct (proj1 (X21_render_returns_image_size
                     (engine := Toy.toy_engine)
                     (codec := ToyCodec.toy_codec)
                     "scene" Toy.toy_scene eq_refl))
    as [pixels [Hrun [_ Hlen]]].
  - vm_compute. discriminate.
  - exists pixels. split; [exact Hrun | exact Hlen].
Defined.

Lemma X22_featurize_scene_returns_count_witness :
  exists features,
    featurize_scene_binding (engine := Toy.toy_engine)
      (codec := ToyCodec.toy_codec) 0 "scene"
    = ([EvDeserialize "scene"; EvFeaturize Toy.toy_scene 0],
       Ok (Some features)) /\
    Z.of_nat (length features) = 42.
Proof.
  destruct (X22_featurize_scene_returns_count
              (engine := Toy.toy_engine) (codec := ToyCodec.toy_codec)
              0 "scene" Toy.toy_scene eq_refl)
    as [features [Hrun Hlen]]; try (vm_compute; discriminate).
  exists features. split; [exact Hrun | exact Hlen].
Defined.
Lemma X23_more_objects_than_first_frame_witness :
  snd (magic_ponies (engine := ToyGrowing.growing_engine)
         "task" Toy.toy_input true 2 1 true false true) = Undefined.
Proof.
  apply (X23_more_objects_than_first_frame
           (engine := ToyGrowing.growing_engine)
           "task" Toy.toy_input true 2 1 false
           (task.Build_Task Toy.toy_scene tt))
    with (earlier := [merged_scene (engine := ToyGrowing.growing_engine)
                        Toy.toy_input true false Toy.toy_scene])
         (last := {| scene.width := 2; scene.height := 2;
                     scene.bodies := scene.bodies Toy.toy_scene;
                     scene.user_input_bodies :=
                       [scene.Build_Body (scene.Shape 3) 7;
                        scene.Build_Body (scene.Shape 1) 3];
                     scene.user_input_status := Some scene.NO_OCCLUSIONS |});
    cbv zeta.
  - reflexivity.
  - reflexivity.
  - constructor; [|constructor].
    split; [reflexivity | vm_compute; discriminate].
  - reflexivity.
  - vm_compute. reflexivity.
  - vm_compute. discriminate.
  - vm_compute. reflexivity.
  - vm_compute. discriminate.
  - vm_compute. discriminate.
  - vm_compute. discriminate.
  - vm_compute. discriminate.
Defined.
